(** * SaveMyMind: the note store, its codec, the date buckets and the
      model-provisioning gate, embedded from the TypeScript sources.

    The development follows the layout of the repository:
    - [Js], [JsDate], [Runtime]: the fragments of the JavaScript runtime
      and of React Native the code relies on (UTF-16 strings, [Date] and
      the time zone of the host, JSON values, exceptions, promises that
      reject, [AsyncStorage] and the file system);
    - [NoteUtils]: [src/utils/noteUtils.ts];
    - [UseNotes]: [src/hooks/useNotes.ts];
    - [ModelDownload]: [src/services/modelDownloadService.ts];
    - [Gate]: [validateAndEnsureModel] of [src/app/index.tsx];
    - [BiometricAuth]: the biometric service;
    - [StartScreen], [ListScreen]: authentication on launch and the list
      of notes, of [src/app/index.tsx];
    - [Reference], [Samples], [Phones]: a concrete platform and concrete
      inputs;
    - [CodecLaw], [Reader]: the JSON values the laws of the platform speak
      of, and the loops of the reference reader;
    - [TitleSpec], [DateSpec], [CodecSpec]: the rules in the words of the
      specification, to compare the code with;
    - [TitleShape], [StoreSpec], [ViewSpec], [ModelSpec], [GateSpec]: the
      vocabulary of the properties proved of the code beyond those rules.

    Definitions come first, theorems afterwards. *)

From Stdlib Require Import ZArith NArith List Ascii String Lia Bool.
From Stdlib Require Import DecimalString DecimalZ DecimalPos.
From Stdlib Require Import Sorted.
From stdpp Require Import base decidable option list gmap strings.

Local Open Scope Z_scope.

(* ===================================================================== *)
(** ** JavaScript strings *)
(* ===================================================================== *)

Module Js.

(** A JavaScript string is a sequence of UTF-16 code units; [length],
    [substring], [split] and [trim] all work on code units. *)
Definition jstring := list N.

(** A literal of the source, written with Rocq's string notation. *)
Definition lit (s : string) : jstring :=
  map N_of_ascii (list_ascii_of_string s).

(** [!s] for a string: only the empty string is falsy. *)
Definition falsy (s : jstring) : bool :=
  match s with [] => true | _ => false end.

(** The code units [String.prototype.trim] strips: ECMAScript [WhiteSpace]
    (TAB, VT, FF, ZWNBSP and the Unicode category Zs) and [LineTerminator]
    (LF, CR, LS, PS). *)
Definition is_ws (c : N) : bool :=
  ((9 <=? c) && (c <=? 13) || (c =? 32) || (c =? 160) || (c =? 5760)
   || (8192 <=? c) && (c <=? 8202) || (c =? 8232) || (c =? 8233)
   || (c =? 8239) || (c =? 8287) || (c =? 12288) || (c =? 65279))%N.

Fixpoint dropWhile {A} (p : A -> bool) (l : list A) : list A :=
  match l with
  | [] => []
  | x :: r => if p x then dropWhile p r else l
  end.

Fixpoint takeWhile {A} (p : A -> bool) (l : list A) : list A :=
  match l with
  | [] => []
  | x :: r => if p x then x :: takeWhile p r else []
  end.

Definition trimStart (s : jstring) : jstring := dropWhile is_ws s.
Definition trimEnd (s : jstring) : jstring :=
  reverse (dropWhile is_ws (reverse s)).

(** [s.trim()] *)
Definition trim (s : jstring) : jstring := trimEnd (trimStart s).

(** [s.split(sep)] for a one-code-unit separator: [n] separators give
    [n + 1] pieces, and the empty string gives one empty piece. *)
Fixpoint split (sep : N) (s : jstring) : list jstring :=
  match s with
  | [] => [[]]
  | c :: r =>
      if (c =? sep)%N then [] :: split sep r
      else match split sep r with
           | l :: ls => (c :: l) :: ls
           | [] => [[c]]
           end
  end.

(** [s.substring(0, n)] *)
Definition substring0 (n : nat) (s : jstring) : jstring := take n s.

(** [a[0]] on the array returned by [split], which is never empty. *)
Definition first (a : list jstring) : jstring := hd [] a.

(** [z.toString()] for an integral number. *)
Definition Z_toString (z : Z) : jstring :=
  lit (NilZero.string_of_int (Z.to_int z)).

Definition LF : N := 10%N.

(** [s.startsWith(sub)] *)
Fixpoint startsWith (s sub : jstring) : bool :=
  match sub, s with
  | [], _ => true
  | c :: sub', d :: s' => (c =? d)%N && startsWith s' sub'
  | _ :: _, [] => false
  end.

(** [s.includes(sub)]: [sub] occurs in [s] as a run of code units; the
    empty string occurs in every string. *)
Fixpoint includes (s sub : jstring) : bool :=
  startsWith s sub
  || match s with
     | [] => false
     | _ :: r => includes r sub
     end.

(** [s.toLowerCase()]: the case mapping of the Unicode tables the engine
    ships. *)
Class CaseMapping := { toLowerCase : jstring -> jstring }.

End Js.

(* ===================================================================== *)
(** ** JavaScript dates *)
(* ===================================================================== *)

(** The time arithmetic of ECMAScript (section "Date Objects"), with the
    names the standard gives it. A number that can be [NaN] is an
    [option Z]; every other number the code computes with dates is an
    integer, and integer arithmetic gives the same bucket as the double
    arithmetic of the runtime. *)
Module JsDate.

Definition number := option Z.
Definition NaN : number := None.

Definition msPerDay : Z := 86400000.

Definition Day (t : Z) : Z := t / msPerDay.
Definition TimeWithinDay (t : Z) : Z := t mod msPerDay.

Definition DaysInYear (y : Z) : Z :=
  if negb (y mod 4 =? 0) then 365
  else if negb (y mod 100 =? 0) then 366
  else if negb (y mod 400 =? 0) then 365
  else 366.

Definition DayFromYear (y : Z) : Z :=
  365 * (y - 1970) + (y - 1969) / 4 - (y - 1901) / 100 + (y - 1601) / 400.

(** The year of a day number: the standard asks for the largest [y] with
    [DayFromYear y <= d]; the mean-year estimate is off by at most one. *)
Definition YearFromDay (d : Z) : Z :=
  let y := 1970 + (d * 400) / 146097 in
  if DayFromYear (y + 1) <=? d then y + 1
  else if d <? DayFromYear y then y - 1
  else y.

Definition YearFromTime (t : Z) : Z := YearFromDay (Day t).

Definition InLeapYear (t : Z) : Z :=
  if DaysInYear (YearFromTime t) =? 366 then 1 else 0.

Definition DayWithinYear (t : Z) : Z := Day t - DayFromYear (YearFromTime t).

(** Days of the year before month [m] (0 = January), [leap] being 0 or 1. *)
Definition daysBeforeMonth (m leap : Z) : Z :=
  match m with
  | 0 => 0
  | 1 => 31
  | 2 => 59 + leap
  | 3 => 90 + leap
  | 4 => 120 + leap
  | 5 => 151 + leap
  | 6 => 181 + leap
  | 7 => 212 + leap
  | 8 => 243 + leap
  | 9 => 273 + leap
  | 10 => 304 + leap
  | _ => 334 + leap
  end.

Definition MonthFromTime (t : Z) : Z :=
  let d := DayWithinYear t in
  let leap := InLeapYear t in
  if d <? 31 then 0
  else if d <? 59 + leap then 1
  else if d <? 90 + leap then 2
  else if d <? 120 + leap then 3
  else if d <? 151 + leap then 4
  else if d <? 181 + leap then 5
  else if d <? 212 + leap then 6
  else if d <? 243 + leap then 7
  else if d <? 273 + leap then 8
  else if d <? 304 + leap then 9
  else if d <? 334 + leap then 10
  else 11.

Definition DateFromTime (t : Z) : Z :=
  DayWithinYear t - daysBeforeMonth (MonthFromTime t) (InLeapYear t) + 1.

(** [MakeDay(year, month, date)]: the day number of the first of the month,
    plus [date - 1]. *)
Definition MakeDay (year month date : Z) : Z :=
  let ym := year + month / 12 in
  let mn := month mod 12 in
  let leap := if DaysInYear ym =? 366 then 1 else 0 in
  DayFromYear ym + daysBeforeMonth mn leap + date - 1.

Definition MakeDate (day time : Z) : Z := day * msPerDay + time.

Definition maxTime : Z := 8640000000000000.

Definition TimeClip (t : Z) : number :=
  if maxTime <? Z.abs t then NaN else Some t.

(** The host's time zone: [LocalTZA t true] is the offset of local time
    from UTC at the UTC instant [t], and [LocalTZA t false] the offset to
    take off the local time value [t]. *)
Class TimeZone := { LocalTZA : Z -> bool -> Z }.

(** A [Date] object is its time value, [NaN] for an Invalid Date. *)
Definition Date := number.

Section Local.
Context `{TimeZone}.

Definition LocalTime (t : Z) : Z := t + LocalTZA t true.
Definition UTC (t : Z) : Z := t - LocalTZA t false.

Definition getTime (d : Date) : number := d.
Definition getFullYear (d : Date) : number := YearFromTime ∘ LocalTime <$> d.
Definition getMonth (d : Date) : number := MonthFromTime ∘ LocalTime <$> d.
Definition getDate (d : Date) : number := DateFromTime ∘ LocalTime <$> d.

(** [new Date(year, month, date)]: local midnight of that calendar day. A
    year from 0 to 99 stands for 1900 + year. *)
Definition Date_ymd (year month date : number) : Date :=
  match year, month, date with
  | Some y, Some m, Some dt =>
      let yr := if (0 <=? y) && (y <=? 99) then 1900 + y else y in
      TimeClip (UTC (MakeDate (MakeDay yr m dt) 0))
  | _, _, _ => NaN
  end.

End Local.

(** [a - b] on numbers. *)
Definition num_sub (a b : number) : number :=
  match a, b with Some x, Some y => Some (x - y) | _, _ => NaN end.

(** [Math.ceil(a / d)] for a positive integer [d]. *)
Definition ceil_div (a : number) (d : Z) : number :=
  (fun x => - ((- x) / d)) <$> a.

(** [a === k] and [a <= k] against an integer literal; false on [NaN]. *)
Definition num_eqb (a : number) (k : Z) : bool :=
  match a with Some x => x =? k | None => false end.
Definition num_leb (a : number) (k : Z) : bool :=
  match a with Some x => x <=? k | None => false end.

End JsDate.

(* ===================================================================== *)
(** ** JSON values, exceptions and the asynchronous platform *)
(* ===================================================================== *)

Module Runtime.
Import Js JsDate.

(** The value [JSON.parse] returns. Only integral numbers are represented. *)
#[local] Unset Elimination Schemes.
Inductive json :=
| JNull
| JBool (b : bool)
| JNum (z : Z)
| JStr (s : jstring)
| JArr (items : list json)
| JObj (props : list (jstring * json)).
#[local] Set Elimination Schemes.

(** [o[key]] on a parsed object; a repeated key keeps its last value. *)
Fixpoint obj_get (key : jstring) (props : list (jstring * json)) : option json :=
  match props with
  | [] => None
  | (k, v) :: rest =>
      match obj_get key rest with
      | Some v' => Some v'
      | None => if bool_decide (k = key) then Some v else None
      end
  end.

(** The text side of the platform: the rendering of a JSON value by
    [JSON.stringify], [JSON.parse] ([None]: it throws a [SyntaxError]),
    [Date.prototype.toISOString] and [Date.parse]. *)
Class Codec := {
  JSON_text : json -> jstring;
  JSON_parse : jstring -> option json;
  Date_toISOString : Z -> jstring;
  Date_parse : jstring -> number;
}.

(** What a [throw] carries. [Rejected] is the reason of a platform promise
    that rejects. *)
Inductive exn :=
| Error (message : string)
| TypeError (message : string)
| SyntaxError (message : string)
| Rejected (message : string).

(** [error instanceof Error ? error.message : 'Unknown error']: whatever
    is thrown in the embedding is an [Error] that carries a message. *)
Definition message_of (e : exn) : string :=
  match e with
  | Error m | TypeError m | SyntaxError m | Rejected m => m
  end.

(** The interfaces of the types module ([Note], [NoteInput], [NotesState]),
    declared here because the state of the application holds a
    [NotesState]. *)
Record Note := {
  id : jstring;
  title : jstring;
  content : jstring;
  createdAt : Date;
  updatedAt : Date;
}.

Record NoteInput := { input_title : jstring; input_content : jstring }.

(** [Partial<NoteInput>] *)
Record NoteUpdates := {
  upd_title : option jstring;
  upd_content : option jstring;
}.

Record NotesState := {
  notes : list Note;
  loading : bool;
  error : option string;
}.

(** The React state of the start screen that belongs to the gate. *)
Record GateState := {
  isModelDownloading : bool;
  modelDownloadProgress : Z * Z;   (* written / expected; (0, 1) is 0 *)
  modelDownloadError : option string;
  isModelReady : bool;
}.

(** What the transport does when [downloadAsync] runs. *)
Inductive DownloadOutcome :=
| DownloadRejects (message : string)
| DownloadNoResult
| DownloadCompletes.

Record Download := {
  dl_outcome : DownloadOutcome;
  dl_fileWritten : bool;              (* a file is at [modelPath] afterwards *)
  dl_progress : list (Z * Z);         (* the progress events delivered *)
}.

(** Everything a call can read or change. [faults] scripts the awaited
    platform calls to come, in order: [Some m] makes the next one reject
    with reason [m]; when the script runs out the calls succeed. *)
Record App := {
  platformIsWeb : bool;                 (* [Platform.OS === 'web'] *)
  fileSystemLoaded : bool;              (* [FileSystem] is not null *)
  asyncStorage : gmap string jstring;
  modelFileExists : bool;
  faults : list (option string);
  transport : Download;
  notesState : NotesState;
  gateState : GateState;
}.

Definition with_asyncStorage (f : gmap string jstring -> gmap string jstring) (a : App) : App :=
  {| platformIsWeb := platformIsWeb a; fileSystemLoaded := fileSystemLoaded a;
     asyncStorage := f (asyncStorage a); modelFileExists := modelFileExists a;
     faults := faults a; transport := transport a;
     notesState := notesState a; gateState := gateState a |}.

Definition with_modelFileExists (b : bool) (a : App) : App :=
  {| platformIsWeb := platformIsWeb a; fileSystemLoaded := fileSystemLoaded a;
     asyncStorage := asyncStorage a; modelFileExists := b;
     faults := faults a; transport := transport a;
     notesState := notesState a; gateState := gateState a |}.

Definition with_faults (l : list (option string)) (a : App) : App :=
  {| platformIsWeb := platformIsWeb a; fileSystemLoaded := fileSystemLoaded a;
     asyncStorage := asyncStorage a; modelFileExists := modelFileExists a;
     faults := l; transport := transport a;
     notesState := notesState a; gateState := gateState a |}.

Definition with_notesState (f : NotesState -> NotesState) (a : App) : App :=
  {| platformIsWeb := platformIsWeb a; fileSystemLoaded := fileSystemLoaded a;
     asyncStorage := asyncStorage a; modelFileExists := modelFileExists a;
     faults := faults a; transport := transport a;
     notesState := f (notesState a); gateState := gateState a |}.

Definition with_gateState (f : GateState -> GateState) (a : App) : App :=
  {| platformIsWeb := platformIsWeb a; fileSystemLoaded := fileSystemLoaded a;
     asyncStorage := asyncStorage a; modelFileExists := modelFileExists a;
     faults := faults a; transport := transport a;
     notesState := notesState a; gateState := f (gateState a) |}.

(** How a call ends. [OutOfModel]: the call produced a value that does not
    inhabit its TypeScript type (a stored object without the fields of
    [Note], say); the embedding does not follow the program further. *)
Inductive Result (A : Type) :=
| Return (a : A)
| Throw (e : exn)
| OutOfModel.
Arguments Return {A} a.
Arguments Throw {A} e.
Arguments OutOfModel {A}.

(** An [async] function: it runs on the state of the application. *)
Definition IO (A : Type) : Type := App -> Result A * App.

Definition ret {A} (a : A) : IO A := fun w => (Return a, w).
Definition throw {A} (e : exn) : IO A := fun w => (Throw e, w).
Definition outOfModel {A} : IO A := fun w => (OutOfModel, w).

Definition bind {A B} (m : IO A) (k : A -> IO B) : IO B :=
  fun w =>
    match m w with
    | (Return a, w') => k a w'
    | (Throw e, w') => (Throw e, w')
    | (OutOfModel, w') => (OutOfModel, w')
    end.

(** [try { body } catch (error) { handler }]; what [body] did before it
    threw stays done. *)
Definition try_catch {A} (body : IO A) (handler : exn -> IO A) : IO A :=
  fun w =>
    match body w with
    | (Throw e, w') => handler e w'
    | r => r
    end.

Definition get {A} (f : App -> A) : IO A := fun w => (Return (f w), w).
Definition modify (f : App -> App) : IO unit := fun w => (Return tt, f w).

#[global] Instance IO_ret : MRet IO := @ret.
#[global] Instance IO_bind : MBind IO := fun A B k m => bind m k.

(** An awaited call into the platform: it rejects when the script says so,
    and otherwise performs [effect]. *)
Definition platform_call {A} (effect : IO A) : IO A :=
  fun w =>
    match faults w with
    | Some m :: rest => (Throw (Rejected m), with_faults rest w)
    | None :: rest => effect (with_faults rest w)
    | [] => effect w
    end.

(** The next [n] platform calls do not reject. *)
Definition quiet (n : nat) (w : App) : bool :=
  forallb (fun f => bool_decide (f = None)) (take n (faults w)).

(** The state once a platform call has used up its entry of the script. *)
Definition advance (w : App) : App := with_faults (tl (faults w)) w.

Definition AsyncStorage_getItem (key : string) : IO (option jstring) :=
  platform_call (get (fun w => asyncStorage w !! key)).

Definition AsyncStorage_setItem (key : string) (value : jstring) : IO unit :=
  platform_call (modify (with_asyncStorage (insert key value))).

Definition AsyncStorage_removeItem (key : string) : IO unit :=
  platform_call (modify (with_asyncStorage (delete key))).

(** [FileSystem.getInfoAsync(modelPath)], reduced to its [exists] field. *)
Definition FileSystem_getInfoAsync : IO bool :=
  platform_call (get modelFileExists).

(** [FileSystem.deleteAsync(modelPath, { idempotent: true })] *)
Definition FileSystem_deleteAsync : IO unit :=
  platform_call (modify (with_modelFileExists false)).

End Runtime.

(* ===================================================================== *)
(** ** src/utils/noteUtils.ts *)
(* ===================================================================== *)

Module NoteUtils.
Import Js JsDate Runtime.

Definition NOTES_STORAGE_KEY : string := "savemymind_notes".

(** What a call reads from its surroundings: the instant [new Date()]
    yields, the instant [Date.now()] yields inside [generateId], and
    [Math.random().toString(36).substr(2, 9)]. *)
Record Ambient := {
  new_Date : Z;
  Date_now : Z;
  random36 : jstring;
}.

Definition generateId (env : Ambient) : jstring :=
  Z_toString (Date_now env) ++ random36 env.

Inductive DateCategory := Today | Yesterday | ThisWeek | ThisMonth | Older.

#[global] Instance DateCategory_eq_dec : EqDecision DateCategory.
Proof. solve_decision. Defined.

(** [getDateCategory(date)]; [clock] is the instant [new Date()] reads. *)
Definition getDateCategory `{TimeZone} (clock : Z) (date : Date) : DateCategory :=
  let now : Date := Some clock in
  let noteDate : Date := date in
  let today := Date_ymd (getFullYear now) (getMonth now) (getDate now) in
  let noteDateOnly :=
    Date_ymd (getFullYear noteDate) (getMonth noteDate) (getDate noteDate) in
  let diffTime := num_sub (getTime today) (getTime noteDateOnly) in
  let diffDays := ceil_div diffTime (1000 * 60 * 60 * 24) in
  if num_eqb diffDays 0 then Today
  else if num_eqb diffDays 1 then Yesterday
  else if num_leb diffDays 7 then ThisWeek
  else if num_leb diffDays 30 then ThisMonth
  else Older.

Definition DEFAULT_TITLE : jstring := lit "New note".

(** [t.length > 50 ? t.substring(0, 50) + '...' : t], the expression both
    return sites of [generateTitleFromContent] share. *)
Definition limitTitle (t : jstring) : jstring :=
  if (50 <? length t)%nat then substring0 50 t ++ lit "..." else t.

(** The [for (const line of lines)] loop of [generateTitleFromContent]. *)
Fixpoint firstNonEmptyLine (lines : list jstring) : jstring :=
  match lines with
  | [] => DEFAULT_TITLE
  | line :: rest =>
      let trimmedLine := trim line in
      if falsy trimmedLine then firstNonEmptyLine rest
      else limitTitle trimmedLine
  end.

Definition generateTitleFromContent (content : jstring) : jstring :=
  if falsy content || falsy (trim content) then DEFAULT_TITLE
  else
    let firstLine := trim (first (split LF (trim content))) in
    if falsy firstLine then
      let lines := split LF (trim content) in
      firstNonEmptyLine lines
    else limitTitle firstLine.

(** [CategorizedNotes]: the object with the five category keys. *)
Record CategorizedNotes := {
  cat_Today : list Note;
  cat_Yesterday : list Note;
  cat_ThisWeek : list Note;
  cat_ThisMonth : list Note;
  cat_Older : list Note;
}.

(** [categories[category]] *)
Definition bucket (category : DateCategory) (categories : CategorizedNotes) : list Note :=
  match category with
  | Today => cat_Today categories
  | Yesterday => cat_Yesterday categories
  | ThisWeek => cat_ThisWeek categories
  | ThisMonth => cat_ThisMonth categories
  | Older => cat_Older categories
  end.

(** [categories[category] = f(categories[category])] *)
Definition on_bucket (category : DateCategory) (f : list Note -> list Note)
    (c : CategorizedNotes) : CategorizedNotes :=
  match category with
  | Today => {| cat_Today := f (cat_Today c); cat_Yesterday := cat_Yesterday c;
                cat_ThisWeek := cat_ThisWeek c; cat_ThisMonth := cat_ThisMonth c;
                cat_Older := cat_Older c |}
  | Yesterday => {| cat_Today := cat_Today c; cat_Yesterday := f (cat_Yesterday c);
                    cat_ThisWeek := cat_ThisWeek c; cat_ThisMonth := cat_ThisMonth c;
                    cat_Older := cat_Older c |}
  | ThisWeek => {| cat_Today := cat_Today c; cat_Yesterday := cat_Yesterday c;
                   cat_ThisWeek := f (cat_ThisWeek c); cat_ThisMonth := cat_ThisMonth c;
                   cat_Older := cat_Older c |}
  | ThisMonth => {| cat_Today := cat_Today c; cat_Yesterday := cat_Yesterday c;
                    cat_ThisWeek := cat_ThisWeek c; cat_ThisMonth := f (cat_ThisMonth c);
                    cat_Older := cat_Older c |}
  | Older => {| cat_Today := cat_Today c; cat_Yesterday := cat_Yesterday c;
                cat_ThisWeek := cat_ThisWeek c; cat_ThisMonth := cat_ThisMonth c;
                cat_Older := f (cat_Older c) |}
  end.

(** The comparator of the sort, [new Date(b.updatedAt).getTime() - new
    Date(a.updatedAt).getTime()]; [a] goes after [b] when it is positive.
    A [NaN] counts as zero. *)
Definition compareNotes (a b : Note) : number :=
  num_sub (getTime (updatedAt b)) (getTime (updatedAt a)).

Definition goes_after (a b : Note) : bool :=
  match compareNotes a b with
  | Some v => 0 <? v
  | None => false
  end.

Fixpoint insert_sorted (x : Note) (l : list Note) : list Note :=
  match l with
  | [] => [x]
  | y :: r => if goes_after x y then y :: insert_sorted x r else x :: l
  end.

(** [list.sort(comparator)]: a stable sort. With valid dates every stable
    sort gives this order; with an Invalid Date among them the comparator
    is not consistent and this order is one an engine may give. *)
Fixpoint sort_newest_first (l : list Note) : list Note :=
  match l with
  | [] => []
  | x :: r => insert_sorted x (sort_newest_first r)
  end.

(** The [notes.forEach] loop of [categorizeNotes]: the [i]-th note is
    pushed on the bucket [categoryOf i note]. *)
Fixpoint categorize_each (categoryOf : nat -> Note -> DateCategory) (i : nat)
    (notes : list Note) (categories : CategorizedNotes) : CategorizedNotes :=
  match notes with
  | [] => categories
  | note :: rest =>
      let category := categoryOf i note in
      categorize_each categoryOf (S i) rest
        (on_bucket category (fun l => l ++ [note]) categories)
  end.

(** [categorizeNotes(notes)]; the [i]-th call of [getDateCategory] reads
    the clock at [clock i]. *)
Definition categorizeNotes `{TimeZone} (clock : nat -> Z) (notes : list Note) : CategorizedNotes :=
  let categories :=
    {| cat_Today := []; cat_Yesterday := []; cat_ThisWeek := [];
       cat_ThisMonth := []; cat_Older := [] |} in
  let categories :=
    categorize_each (fun i note => getDateCategory (clock i) (updatedAt note))
      0 notes categories in
  foldr (fun category c => on_bucket category sort_newest_first c) categories
    [Today; Yesterday; ThisWeek; ThisMonth; Older].

(** [filterNotes(notes, searchTerm)] *)
Definition filterNotes `{CaseMapping} (notes : list Note) (searchTerm : jstring) : list Note :=
  if falsy (trim searchTerm) then notes
  else
    let lowercaseSearch := toLowerCase searchTerm in
    List.filter
      (fun note =>
         includes (toLowerCase (title note)) lowercaseSearch
         || includes (toLowerCase (content note)) lowercaseSearch)
      notes.

(** [s || ''] *)
Definition or_empty (s : jstring) : jstring := if falsy s then lit "" else s.

Definition createNote (env : Ambient) (noteInput : NoteInput) : Note :=
  let now : Date := Some (new_Date env) in
  let title :=
    let trimmed := trim (input_title noteInput) in
    if falsy trimmed
    then generateTitleFromContent (or_empty (input_content noteInput))
    else trimmed in
  {| id := generateId env;
     title := title;
     content := or_empty (input_content noteInput);
     createdAt := now;
     updatedAt := now |}.

Definition updateNote (env : Ambient) (existingNote : Note) (updates : NoteUpdates) : Note :=
  let title0 := match upd_title updates with
                | Some t => t
                | None => title existingNote
                end in
  let content0 := match upd_content updates with
                  | Some c => c
                  | None => content existingNote
                  end in
  let title1 :=
    if falsy title0 || falsy (trim title0)
    then generateTitleFromContent (or_empty content0)
    else title0 in
  (* { ...existingNote, ...updates, title, updatedAt: new Date() } *)
  {| id := id existingNote;
     title := title1;
     content := content0;
     createdAt := createdAt existingNote;
     updatedAt := Some (new_Date env) |}.

Section Storage.
Context `{Codec}.

(** The value [JSON.stringify] serialises for a [Date]: [toJSON] gives the
    ISO string of a valid date and [null] for an Invalid Date. *)
Definition Date_toJSON (d : Date) : json :=
  match d with
  | Some t => JStr (Date_toISOString t)
  | None => JNull
  end.

Definition Note_toJSON (n : Note) : json :=
  JObj [ (lit "id", JStr (id n));
         (lit "title", JStr (title n));
         (lit "content", JStr (content n));
         (lit "createdAt", Date_toJSON (createdAt n));
         (lit "updatedAt", Date_toJSON (updatedAt n)) ].

(** [JSON.stringify(notes)] *)
Definition JSON_stringify (notes : list Note) : jstring :=
  JSON_text (JArr (map Note_toJSON notes)).

Definition saveNotesToStorage (notes : list Note) : IO unit :=
  try_catch
    (let notesJson := JSON_stringify notes in
     AsyncStorage_setItem NOTES_STORAGE_KEY notesJson)
    (fun error => throw error).

(** [new Date(v)] for the value of a property of a parsed object
    ([None]: the property is missing, [v] is [undefined]). The outer
    [None] stands for an array or object, which [new Date] would convert
    with [ToPrimitive]. *)
Definition new_Date_of (v : option json) : option Date :=
  match v with
  | None => Some NaN
  | Some JNull => Some (Some 0)
  | Some (JBool b) => Some (Some (if b then 1 else 0))
  | Some (JNum z) => Some (TimeClip z)
  | Some (JStr s) => Some (Date_parse s)
  | Some (JArr _) | Some (JObj _) => None
  end.

Definition string_field (key : jstring) (props : list (jstring * json)) : option jstring :=
  match obj_get key props with
  | Some (JStr s) => Some s
  | _ => None
  end.

Definition Note_keys : list jstring :=
  [lit "id"; lit "title"; lit "content"; lit "createdAt"; lit "updatedAt"].

(** [{ ...note, createdAt: new Date(note.createdAt), updatedAt: new
    Date(note.updatedAt) }] for an element that is not [null]: [Some] when
    the result has the fields of [Note], with strings where [Note] has
    strings, and no other field. *)
Definition revive (note : json) : option Note :=
  match note with
  | JObj props =>
      guard (forallb (fun kv => bool_decide (kv.1 ∈ Note_keys)) props = true);;
      i ← string_field (lit "id") props;
      t ← string_field (lit "title") props;
      c ← string_field (lit "content") props;
      ca ← new_Date_of (obj_get (lit "createdAt") props);
      ua ← new_Date_of (obj_get (lit "updatedAt") props);
      Some {| id := i; title := t; content := c; createdAt := ca; updatedAt := ua |}
  | _ => None
  end.

Definition is_null (j : json) : bool :=
  match j with JNull => true | _ => false end.

Fixpoint revive_all (items : list json) : option (list Note) :=
  match items with
  | [] => Some []
  | j :: rest =>
      n ← revive j;
      ns ← revive_all rest;
      Some (n :: ns)
  end.

(** [notes.map(note => ...)] on what [JSON.parse] returned: a [TypeError]
    when [notes] is not an array (it has no [map]) or holds a [null]
    (reading [note.createdAt] throws). *)
Definition map_revive (parsed : json) : IO (list Note) :=
  match parsed with
  | JArr items =>
      if existsb is_null items
      then throw (TypeError "Cannot read properties of null")
      else match revive_all items with
           | Some ns => ret ns
           | None => outOfModel
           end
  | _ => throw (TypeError "notes.map is not a function")
  end.

Definition loadNotesFromStorage : IO (list Note) :=
  try_catch
    (notesJson ← AsyncStorage_getItem NOTES_STORAGE_KEY;
     match notesJson with
     | None => ret []
     | Some text =>
         if falsy text then ret []
         else match JSON_parse text with
              | None => throw (SyntaxError "Unexpected token")
              | Some parsed => map_revive parsed
              end
     end)
    (fun error => ret []).

End Storage.

End NoteUtils.

(* ===================================================================== *)
(** ** src/hooks/useNotes.ts *)
(* ===================================================================== *)

(** The callbacks of the hook, each run on the state its closure sees:
    calls are taken one after the other, the component having rendered in
    between. *)
Module UseNotes.
Import Js JsDate Runtime NoteUtils.

Definition setState (f : NotesState -> NotesState) : IO unit :=
  modify (with_notesState f).

Definition set_loading (b : bool) (e : option string) (prev : NotesState) : NotesState :=
  {| notes := notes prev; loading := b; error := e |}.
Definition set_error (e : option string) (prev : NotesState) : NotesState :=
  {| notes := notes prev; loading := loading prev; error := e |}.
Definition set_notes_loaded (ns : list Note) (prev : NotesState) : NotesState :=
  {| notes := ns; loading := false; error := error prev |}.
Definition set_notes_saved (ns : list Note) (prev : NotesState) : NotesState :=
  {| notes := ns; loading := loading prev; error := None |}.

Section Hook.
Context `{Codec}.

Definition loadNotes : IO unit :=
  try_catch
    (setState (set_loading true None);;
     notes ← loadNotesFromStorage;
     setState (set_notes_loaded notes))
    (fun error =>
       setState (set_loading false (Some "Failed to load notes"))).

Definition saveNotes (notes : list Note) : IO unit :=
  try_catch
    (saveNotesToStorage notes;;
     setState (set_notes_saved notes))
    (fun error => setState (set_error (Some "Failed to save notes"))).

Definition addNote (env : Ambient) (noteInput : NoteInput) : IO Note :=
  try_catch
    ((* a [NoteInput] is an object: the first validation passes *)
     let newNote := createNote env noteInput in
     (* !newNote.id; the two dates are objects, never falsy *)
     if falsy (id newNote)
     then throw (Error "Failed to create valid note structure")
     else
       state_notes ← get (notes ∘ notesState);
       let updatedNotes := newNote :: state_notes in
       saveNotes updatedNotes;;
       ret newNote)
    (fun error =>
       setState (set_error (Some ("Failed to create note: " +:+ message_of error)));;
       throw error).

(** [state.notes.findIndex(note => note.id === noteId)]; [None] is -1. *)
Definition findIndex (noteId : jstring) (l : list Note) : option nat :=
  fst <$> list_find (fun note => id note = noteId) l.

Definition updateNoteById (env : Ambient) (noteId : jstring) (updates : NoteUpdates) : IO Note :=
  try_catch
    (if falsy noteId then throw (Error "Invalid note ID")
     else
       state_notes ← get (notes ∘ notesState);
       match findIndex noteId state_notes with
       | None => throw (Error "Note not found")
       | Some noteIndex =>
           match state_notes !! noteIndex with
           | None => throw (Error "Invalid existing note structure")
           | Some existingNote =>
               if falsy (id existingNote)
               then throw (Error "Invalid existing note structure")
               else
                 let updatedNote := updateNote env existingNote updates in
                 if falsy (id updatedNote)
                    || negb (bool_decide (id updatedNote = noteId))
                 then throw (Error "Note update resulted in invalid data")
                 else
                   let updatedNotes := <[noteIndex := updatedNote]> state_notes in
                   saveNotes updatedNotes;;
                   ret updatedNote
           end
       end)
    (fun error =>
       setState (set_error (Some ("Failed to update note: " +:+ message_of error)));;
       throw error).

Definition deleteNote (noteId : jstring) : IO unit :=
  try_catch
    (state_notes ← get (notes ∘ notesState);
     let updatedNotes :=
       filter (fun note => id note <> noteId) state_notes in
     saveNotes updatedNotes)
    (fun error =>
       setState (set_error (Some "Failed to delete note"));;
       throw error).

Definition deleteAllNotes : IO unit :=
  try_catch
    (saveNotes [])
    (fun error =>
       setState (set_error (Some "Failed to delete all notes"));;
       throw error).

End Hook.

(** [state.notes.find(note => note.id === noteId)] *)
Definition getNoteById (st : NotesState) (noteId : jstring) : option Note :=
  snd <$> list_find (fun note => id note = noteId) (notes st).

Definition clearError : IO unit := setState (set_error None).

(** What the hook computes on every render from the state and from the
    search term, a state variable of its own. *)
Definition filteredNotes `{CaseMapping} (st : NotesState) (searchTerm : jstring) : list Note :=
  filterNotes (notes st) searchTerm.

Definition categorizedNotes `{CaseMapping} `{TimeZone} (clock : nat -> Z)
    (st : NotesState) (searchTerm : jstring) : CategorizedNotes :=
  categorizeNotes clock (filteredNotes st searchTerm).

End UseNotes.

(* ===================================================================== *)
(** ** src/services/modelDownloadService.ts *)
(* ===================================================================== *)

Module ModelDownload.
Import Js Runtime.

Definition MODEL_STORAGE_KEY : string := "whisper_model_downloaded".
Definition MODEL_VERSION_KEY : string := "whisper_model_version".
Definition CURRENT_MODEL_VERSION : jstring := lit "1.0.0".

(** [Platform.OS === 'web' || !FileSystem] *)
Definition unsupported (w : App) : bool :=
  platformIsWeb w || negb (fileSystemLoaded w).

Definition isModelAvailable : IO bool :=
  no_fs ← get unsupported;
  if no_fs : bool then ret false
  else
    try_catch
      (fileInfo_exists ← FileSystem_getInfoAsync;
       if negb fileInfo_exists then ret false
       else
         storedVersion ← AsyncStorage_getItem MODEL_VERSION_KEY;
         if negb (bool_decide (storedVersion = Some CURRENT_MODEL_VERSION))
         then
           FileSystem_deleteAsync;;
           AsyncStorage_removeItem MODEL_STORAGE_KEY;;
           AsyncStorage_removeItem MODEL_VERSION_KEY;;
           ret false
         else
           isDownloaded ← AsyncStorage_getItem MODEL_STORAGE_KEY;
           ret (bool_decide (isDownloaded = Some (lit "true"))))
      (fun error => ret false).

(** [downloadResumable.downloadAsync()]: the transport writes the file (or
    part of it), reports its progress to the callback, and then rejects,
    resolves to nothing, or resolves to a result. [Some tt] is a result. *)
Definition downloadAsync (onProgress : Z * Z -> IO unit) : IO (option unit) :=
  dl ← get transport;
  modify (fun w => with_modelFileExists (dl_fileWritten dl || modelFileExists w) w);;
  foldr (fun p k => onProgress p;; k) (ret tt) (dl_progress dl);;
  match dl_outcome dl with
  | DownloadRejects m => throw (Rejected m)
  | DownloadNoResult => ret None
  | DownloadCompletes => ret (Some tt)
  end.

(** [downloadModel(onProgress)]; the path it returns is a constant of the
    service, so the embedding returns [tt]. *)
Definition downloadModel (onProgress : Z * Z -> IO unit) : IO unit :=
  no_fs ← get unsupported;
  if no_fs : bool
  then throw (Error "Model download not supported on web platform")
  else
    try_catch
      (available ← isModelAvailable;
       if available : bool then ret tt
       else
         result ← downloadAsync onProgress;
         match result with
         | None => throw (Error "Download failed - no result returned")
         | Some _ =>
             fileInfo_exists ← FileSystem_getInfoAsync;
             if negb fileInfo_exists
             then throw (Error "Download completed but file not found")
             else
               AsyncStorage_setItem MODEL_STORAGE_KEY (lit "true");;
               AsyncStorage_setItem MODEL_VERSION_KEY CURRENT_MODEL_VERSION;;
               ret tt
         end)
      (fun error =>
         try_catch
           (FileSystem_deleteAsync;;
            AsyncStorage_removeItem MODEL_STORAGE_KEY)
           (fun cleanupError => ret tt);;
         throw error).

Definition deleteModel : IO unit :=
  no_fs ← get unsupported;
  if no_fs : bool
  then throw (Error "Model deletion not supported on web platform")
  else
    try_catch
      (FileSystem_deleteAsync;;
       AsyncStorage_removeItem MODEL_STORAGE_KEY;;
       AsyncStorage_removeItem MODEL_VERSION_KEY)
      (fun error => throw error).

End ModelDownload.

(* ===================================================================== *)
(** ** src/app/index.tsx: the provisioning gate *)
(* ===================================================================== *)

Module Gate.
Import Js Runtime ModelDownload.

Definition setGate (f : GateState -> GateState) : IO unit :=
  modify (with_gateState f).

Definition setIsModelReady (b : bool) (g : GateState) : GateState :=
  {| isModelDownloading := isModelDownloading g;
     modelDownloadProgress := modelDownloadProgress g;
     modelDownloadError := modelDownloadError g;
     isModelReady := b |}.
Definition setIsModelDownloading (b : bool) (g : GateState) : GateState :=
  {| isModelDownloading := b;
     modelDownloadProgress := modelDownloadProgress g;
     modelDownloadError := modelDownloadError g;
     isModelReady := isModelReady g |}.
Definition setModelDownloadProgress (p : Z * Z) (g : GateState) : GateState :=
  {| isModelDownloading := isModelDownloading g;
     modelDownloadProgress := p;
     modelDownloadError := modelDownloadError g;
     isModelReady := isModelReady g |}.
Definition setModelDownloadError (e : option string) (g : GateState) : GateState :=
  {| isModelDownloading := isModelDownloading g;
     modelDownloadProgress := modelDownloadProgress g;
     modelDownloadError := e;
     isModelReady := isModelReady g |}.

Definition validateAndEnsureModel : IO unit :=
  try_catch
    (web ← get platformIsWeb;
     if web : bool then setGate (setIsModelReady true)
     else
       isAvailable ← isModelAvailable;
       if isAvailable : bool then setGate (setIsModelReady true)
       else
         setGate (setIsModelDownloading true);;
         setGate (setModelDownloadError None);;
         setGate (setModelDownloadProgress (0, 1));;
         downloadModel (fun progress => setGate (setModelDownloadProgress progress));;
         isNowAvailable ← isModelAvailable;
         if negb isNowAvailable
         then throw (Error "Model download completed but validation failed")
         else
           setGate (setIsModelDownloading false);;
           setGate (setIsModelReady true))
    (fun modelError =>
       setGate (setIsModelDownloading false);;
       setGate (setModelDownloadError (Some (message_of modelError)))).

(** [retryModelDownload] *)
Definition retryModelDownload : IO unit :=
  setGate (setModelDownloadError None);;
  validateAndEnsureModel.

End Gate.

(* ===================================================================== *)
(** ** The biometric service (src/services/biometricAuth) *)
(* ===================================================================== *)

Module BiometricAuth.
Import Js Runtime.

Definition BIOMETRIC_ENABLED_KEY : string := "biometric_enabled".

(** [LocalAuthentication.AuthenticationType] *)
Inductive AuthenticationType := FINGERPRINT | FACIAL_RECOGNITION | IRIS.

#[global] Instance AuthenticationType_eq_dec : EqDecision AuthenticationType.
Proof. solve_decision. Defined.

Record BiometricCapabilities := {
  isAvailable : bool;
  supportedTypes : list AuthenticationType;
  isEnrolled : bool;
}.

(** [LocalAuthenticationResult]: [{ success: true }], or
    [{ success: false, error }]. *)
Inductive LocalAuthenticationResult :=
| AuthSuccess
| AuthFailure (error : string).

(** What the device answers to the calls of [expo-local-authentication];
    the answer to the prompt may depend on the message shown. Each call is
    an awaited platform call and can reject. *)
Record LocalAuthentication := {
  hasHardware : bool;
  supportedAuthenticationTypes : list AuthenticationType;
  isEnrolledOnDevice : bool;
  authenticatePrompt : jstring -> LocalAuthenticationResult;
}.

Section Service.
Variable la : LocalAuthentication.

Definition hasHardwareAsync : IO bool := platform_call (ret (hasHardware la)).
Definition supportedAuthenticationTypesAsync : IO (list AuthenticationType) :=
  platform_call (ret (supportedAuthenticationTypes la)).
Definition isEnrolledAsync : IO bool := platform_call (ret (isEnrolledOnDevice la)).
Definition authenticateAsync (promptMessage : jstring) : IO LocalAuthenticationResult :=
  platform_call (ret (authenticatePrompt la promptMessage)).

Definition checkCapabilities : IO BiometricCapabilities :=
  try_catch
    (isAvailable ← hasHardwareAsync;
     supportedTypes ← supportedAuthenticationTypesAsync;
     isEnrolled ← isEnrolledAsync;
     ret {| isAvailable := isAvailable;
            supportedTypes := supportedTypes;
            isEnrolled := isEnrolled |})
    (fun error =>
       ret {| isAvailable := false; supportedTypes := []; isEnrolled := false |}).

Definition isBiometricEnabled : IO bool :=
  try_catch
    (enabled ← AsyncStorage_getItem BIOMETRIC_ENABLED_KEY;
     ret (bool_decide (enabled = Some (lit "true"))))
    (fun error => ret false).

(** [enabled.toString()] *)
Definition bool_toString (b : bool) : jstring :=
  if b then lit "true" else lit "false".

Definition setBiometricEnabled (enabled : bool) : IO unit :=
  try_catch
    (AsyncStorage_setItem BIOMETRIC_ENABLED_KEY (bool_toString enabled))
    (fun error => throw error).

Definition authenticate (reason : jstring) : IO LocalAuthenticationResult :=
  try_catch
    (capabilities ← checkCapabilities;
     if negb (isAvailable capabilities) then ret (AuthFailure "not_available")
     else if negb (isEnrolled capabilities) then ret (AuthFailure "not_enrolled")
     else
       result ← authenticateAsync
                  (if falsy reason then lit "Authenticate to access SaveMyMind" else reason);
       ret result)
    (fun error => ret (AuthFailure "unknown")).

End Service.

Definition getErrorMessage (error : string) : string :=
  if String.eqb error "not_available"
  then "Biometric authentication is not available on this device."
  else if String.eqb error "not_enrolled"
  then "No biometric data is enrolled on this device. Please set up Face ID, Touch ID, or fingerprint in your device settings."
  else if String.eqb error "user_cancel"
  then "Authentication was cancelled by the user."
  else if String.eqb error "system_cancel"
  then "Authentication was cancelled by the system."
  else if String.eqb error "lockout"
  then "Too many failed attempts. Please try again later."
  else if String.eqb error "authentication_failed"
  then "Authentication failed. Please try again."
  else if String.eqb error "passcode_not_set"
  then "Device passcode is not set. Please set up a passcode in your device settings."
  else "An unknown error occurred during authentication.".

End BiometricAuth.

(* ===================================================================== *)
(** ** src/app/index.tsx: authentication on the start screen *)
(* ===================================================================== *)

Module StartScreen.
Import Js Runtime BiometricAuth Gate.

(** The four state variables of the screen that belong to
    authentication. *)
Record AuthState := {
  isAuthenticated : bool;
  authenticationRequired : bool;
  authenticationError : option string;
  isCheckingAuth : bool;
}.

Definition setIsAuthenticated (b : bool) (s : AuthState) : AuthState :=
  {| isAuthenticated := b;
     authenticationRequired := authenticationRequired s;
     authenticationError := authenticationError s;
     isCheckingAuth := isCheckingAuth s |}.
Definition setAuthenticationRequired (b : bool) (s : AuthState) : AuthState :=
  {| isAuthenticated := isAuthenticated s;
     authenticationRequired := b;
     authenticationError := authenticationError s;
     isCheckingAuth := isCheckingAuth s |}.
Definition setAuthenticationError (e : option string) (s : AuthState) : AuthState :=
  {| isAuthenticated := isAuthenticated s;
     authenticationRequired := authenticationRequired s;
     authenticationError := e;
     isCheckingAuth := isCheckingAuth s |}.
Definition setIsCheckingAuth (b : bool) (s : AuthState) : AuthState :=
  {| isAuthenticated := isAuthenticated s;
     authenticationRequired := authenticationRequired s;
     authenticationError := authenticationError s;
     isCheckingAuth := b |}.

(** A callback of the screen: it runs on the authentication state and on
    the rest of the application. What it did before it threw stays
    done. *)
Definition UI (A : Type) : Type := AuthState -> App -> Result A * AuthState * App.

Definition ui_ret {A} (a : A) : UI A := fun s w => (Return a, s, w).

Definition ui_bind {A B} (m : UI A) (k : A -> UI B) : UI B :=
  fun s w =>
    match m s w with
    | (Return a, s', w') => k a s' w'
    | (Throw e, s', w') => (Throw e, s', w')
    | (OutOfModel, s', w') => (OutOfModel, s', w')
    end.

Definition ui_try_catch {A} (body : UI A) (handler : exn -> UI A) : UI A :=
  fun s w =>
    match body s w with
    | (Throw e, s', w') => handler e s' w'
    | r => r
    end.

(** [await] of a call that knows nothing of the screen. *)
Definition await {A} (m : IO A) : UI A :=
  fun s w => let (r, w') := m w in (r, s, w').

Definition setAuth (f : AuthState -> AuthState) : UI unit :=
  fun s w => (Return tt, f s, w).

#[global] Instance UI_ret : MRet UI := @ui_ret.
#[global] Instance UI_bind : MBind UI := fun A B k m => ui_bind m k.

Section Screen.
Variable la : LocalAuthentication.

Definition checkAuthenticationAndModel : UI unit :=
  ui_try_catch
    (setAuth (setIsCheckingAuth true);;
     isBiometricEnabled ← await isBiometricEnabled;
     if isBiometricEnabled : bool then
       setAuth (setAuthenticationRequired true);;
       setAuth (setIsCheckingAuth false)
     else
       setAuth (setIsAuthenticated true);;
       setAuth (setAuthenticationRequired false);;
       setAuth (setIsCheckingAuth false);;
       await validateAndEnsureModel)
    (fun error =>
       setAuth (setIsCheckingAuth false);;
       setAuth (setIsAuthenticated true);;
       await validateAndEnsureModel).

Definition handleBiometricAuthentication : UI unit :=
  ui_try_catch
    (setAuth (setAuthenticationError None);;
     result ← await (authenticate la (lit "Authenticate to access your notes"));
     match result with
     | AuthSuccess =>
         setAuth (setIsAuthenticated true);;
         setAuth (setAuthenticationRequired false);;
         await validateAndEnsureModel
     | AuthFailure error =>
         if String.eqb error EmptyString then ui_ret tt
         else
           let errorMessage := getErrorMessage error in
           setAuth (setAuthenticationError (Some errorMessage))
     end)
    (fun error =>
       setAuth (setAuthenticationError
                  (Some "An unexpected error occurred during authentication."))).

End Screen.

End StartScreen.

(* ===================================================================== *)
(** ** src/app/index.tsx: the list the start screen renders *)
(* ===================================================================== *)

Module ListScreen.
Import Js Runtime NoteUtils.

Definition CATEGORY_ORDER : list DateCategory :=
  [Today; Yesterday; ThisWeek; ThisMonth; Older].

(** [Object.values(categorizedNotes).some(notes => notes.length > 0)] *)
Definition hasNotes (categorizedNotes : CategorizedNotes) : bool :=
  existsb (fun notes => (0 <? length notes)%nat)
    [cat_Today categorizedNotes; cat_Yesterday categorizedNotes;
     cat_ThisWeek categorizedNotes; cat_ThisMonth categorizedNotes;
     cat_Older categorizedNotes].

(** [renderCategory(category)], reduced to the notes [renderNoteItem] is
    called on: a category without notes renders nothing. *)
Definition renderCategory (categorizedNotes : CategorizedNotes)
    (category : DateCategory) : list Note :=
  let notes := bucket category categorizedNotes in
  if (length notes =? 0)%nat then [] else notes.

(** [hasNotes ? CATEGORY_ORDER.map(renderCategory) : <the empty state>]:
    the notes on the screen, from top to bottom. *)
Definition renderedNotes (categorizedNotes : CategorizedNotes) : list Note :=
  if hasNotes categorizedNotes
  then concat (map (renderCategory categorizedNotes) CATEGORY_ORDER)
  else [].

End ListScreen.

(* ===================================================================== *)
(** ** A concrete platform *)
(* ===================================================================== *)

(** Time zones and a JSON and ISO-8601 codec to run the embedding on
    concrete inputs. The theorems below hold for every platform; these
    instances show their hypotheses can be met and carry the examples. *)
Module Reference.
Import Js JsDate Runtime.

Definition utc : TimeZone := {| LocalTZA _ _ := 0 |}.

(** A zone that keeps one offset from UTC all year. *)
Definition fixed_offset (offset : Z) : TimeZone := {| LocalTZA _ _ := offset |}.

(** Central European Time around 2024: UTC+1, and UTC+2 from
    2024-03-31T01:00Z to 2024-10-27T01:00Z. A local time the clocks skip
    or repeat takes the offset in force before the change. *)
Definition dst_start_2024 : Z := 1711846800000.
Definition dst_end_2024 : Z := 1729990800000.
Definition cet_2024 : TimeZone :=
  {| LocalTZA t isUTC :=
       if isUTC : bool then
         if (dst_start_2024 <=? t) && (t <? dst_end_2024)
         then 7200000 else 3600000
       else
         if (dst_start_2024 + 7200000 <=? t) && (t <? dst_end_2024 + 7200000)
         then 7200000 else 3600000 |}.

(** *** Writing JSON *)

Definition hex_digit (n : N) : N := (if n <? 10 then 48 + n else 87 + n)%N.

Definition unicode_escape (c : N) : jstring :=
  (lit "\u" ++ [hex_digit (c / 4096); hex_digit ((c / 256) mod 16);
                hex_digit ((c / 16) mod 16); hex_digit (c mod 16)])%N.

Definition is_high_surrogate (c : N) : bool := ((55296 <=? c) && (c <=? 56319))%N.
Definition is_low_surrogate (c : N) : bool := ((56320 <=? c) && (c <=? 57343))%N.

Definition QUOTE : N := 34%N.
Definition BACKSLASH : N := 92%N.

(** [QuoteJSONString] without the surrounding quotes. *)
Fixpoint quote_chars (s : jstring) : jstring :=
  match s with
  | [] => []
  | c :: r =>
      if (c =? 8)%N then lit "\b" ++ quote_chars r
      else if (c =? 9)%N then lit "\t" ++ quote_chars r
      else if (c =? 10)%N then lit "\n" ++ quote_chars r
      else if (c =? 12)%N then lit "\f" ++ quote_chars r
      else if (c =? 13)%N then lit "\r" ++ quote_chars r
      else if (c =? QUOTE)%N then [BACKSLASH; QUOTE] ++ quote_chars r
      else if (c =? BACKSLASH)%N then [BACKSLASH; BACKSLASH] ++ quote_chars r
      else if (c <? 32)%N then unicode_escape c ++ quote_chars r
      else if is_high_surrogate c then
        match r with
        | c2 :: r2 =>
            if is_low_surrogate c2 then c :: c2 :: quote_chars r2
            else unicode_escape c ++ quote_chars r
        | [] => unicode_escape c
        end
      else if is_low_surrogate c then unicode_escape c ++ quote_chars r
      else c :: quote_chars r
  end.

Definition quote (s : jstring) : jstring := [QUOTE] ++ quote_chars s ++ [QUOTE].

Definition join_comma (parts : list jstring) : jstring :=
  match parts with
  | [] => []
  | p :: ps => p ++ concat (map (fun q => lit "," ++ q) ps)
  end.

Fixpoint write_json (j : json) : jstring :=
  match j with
  | JNull => lit "null"
  | JBool true => lit "true"
  | JBool false => lit "false"
  | JNum z => Z_toString z
  | JStr s => quote s
  | JArr items => lit "[" ++ join_comma (map write_json items) ++ lit "]"
  | JObj props =>
      lit "{"
      ++ join_comma (map (fun kv => quote (fst kv) ++ lit ":" ++ write_json (snd kv)) props)
      ++ lit "}"
  end.

(** *** Reading JSON *)

Definition is_json_ws (c : N) : bool :=
  ((c =? 32) || (c =? 9) || (c =? 10) || (c =? 13))%N.

Definition skip_ws (s : jstring) : jstring := dropWhile is_json_ws s.

Definition hex_value (c : N) : option N :=
  (if (48 <=? c) && (c <=? 57) then Some (c - 48)
   else if (97 <=? c) && (c <=? 102) then Some (c - 87)
   else if (65 <=? c) && (c <=? 70) then Some (c - 55)
   else None)%N.

Definition read_hex4 (s : jstring) : option (N * jstring) :=
  match s with
  | a :: b :: c :: d :: r =>
      x ← hex_value a; y ← hex_value b; z ← hex_value c; u ← hex_value d;
      Some (x * 4096 + y * 256 + z * 16 + u, r)%N
  | _ => None
  end.

(** The characters of a string after its opening quote, up to the closing
    one; [fuel] bounds the code units read. *)
Fixpoint read_string_chars (fuel : nat) (s : jstring) : option (jstring * jstring) :=
  match fuel with
  | O => None
  | S fuel' =>
      match s with
      | [] => None
      | c :: r =>
          if (c =? QUOTE)%N then Some ([], r)
          else if (c <? 32)%N then None
          else if (c =? BACKSLASH)%N then
            match r with
            | [] => None
            | e :: r' =>
                let plain (x : N) :=
                  '(cs, rest) ← read_string_chars fuel' r'; Some (x :: cs, rest) in
                if (e =? QUOTE)%N then plain QUOTE
                else if (e =? BACKSLASH)%N then plain BACKSLASH
                else if (e =? 47)%N then plain 47%N
                else if (e =? 98)%N then plain 8%N
                else if (e =? 102)%N then plain 12%N
                else if (e =? 110)%N then plain 10%N
                else if (e =? 114)%N then plain 13%N
                else if (e =? 116)%N then plain 9%N
                else if (e =? 117)%N then
                  '(x, r'') ← read_hex4 r';
                  '(cs, rest) ← read_string_chars fuel' r'';
                  Some (x :: cs, rest)
                else None
            end
          else
            '(cs, rest) ← read_string_chars fuel' r; Some (c :: cs, rest)
      end
  end.

Definition is_digit (c : N) : bool := ((48 <=? c) && (c <=? 57))%N.

Definition digits_value (ds : jstring) : Z :=
  fold_left (fun acc c => acc * 10 + Z.of_N (c - 48)) ds 0.

(** An integer literal; a fraction or an exponent is not read. *)
Definition read_number (s : jstring) : option (json * jstring) :=
  let '(neg, s1) := match s with
                    | c :: r => if (c =? 45)%N then (true, r) else (false, s)
                    | [] => (false, s)
                    end in
  let ds := takeWhile is_digit s1 in
  let rest := dropWhile is_digit s1 in
  match ds with
  | [] => None
  | d :: ds' =>
      if (d =? 48)%N && negb (falsy ds') then None
      else match rest with
           | c :: _ => if (c =? 46)%N || (c =? 101)%N || (c =? 69)%N then None
                       else Some (JNum (if neg : bool then - digits_value ds else digits_value ds), rest)
           | [] => Some (JNum (if neg : bool then - digits_value ds else digits_value ds), rest)
           end
  end.

Definition read_keyword (kw : jstring) (v : json) (s : jstring) : option (json * jstring) :=
  if bool_decide (take (length kw) s = kw) then Some (v, drop (length kw) s) else None.

Fixpoint read_value (fuel : nat) (s : jstring) : option (json * jstring) :=
  match fuel with
  | O => None
  | S fuel' =>
      let read_items :=
        fix read_items (n : nat) (s : jstring) : option (list json * jstring) :=
          match n with
          | O => None
          | S n' =>
              '(v, r) ← read_value fuel' s;
              match skip_ws r with
              | c :: r' =>
                  if (c =? 44)%N then
                    '(vs, rest) ← read_items n' r'; Some (v :: vs, rest)
                  else if (c =? 93)%N then Some ([v], r')
                  else None
              | [] => None
              end
          end in
      let read_props :=
        fix read_props (n : nat) (s : jstring) : option (list (jstring * json) * jstring) :=
          match n with
          | O => None
          | S n' =>
              match skip_ws s with
              | q :: r0 =>
                  if (q =? QUOTE)%N then
                    '(k, r1) ← read_string_chars (S (length r0)) r0;
                    match skip_ws r1 with
                    | c :: r2 =>
                        if (c =? 58)%N then
                          '(v, r3) ← read_value fuel' r2;
                          match skip_ws r3 with
                          | d :: r4 =>
                              if (d =? 44)%N then
                                '(kvs, rest) ← read_props n' r4; Some ((k, v) :: kvs, rest)
                              else if (d =? 125)%N then Some ([(k, v)], r4)
                              else None
                          | [] => None
                          end
                        else None
                    | [] => None
                    end
                  else None
              | [] => None
              end
          end in
      match skip_ws s with
      | [] => None
      | c :: r =>
          if (c =? QUOTE)%N then
            '(cs, rest) ← read_string_chars (S (length r)) r; Some (JStr cs, rest)
          else if (c =? 91)%N then
            match skip_ws r with
            | c' :: r' => if (c' =? 93)%N then Some (JArr [], r')
                          else '(vs, rest) ← read_items (S (length r)) r; Some (JArr vs, rest)
            | [] => None
            end
          else if (c =? 123)%N then
            match skip_ws r with
            | c' :: r' => if (c' =? 125)%N then Some (JObj [], r')
                          else '(kvs, rest) ← read_props (S (length r)) r; Some (JObj kvs, rest)
            | [] => None
            end
          else if (c =? 110)%N then read_keyword (lit "null") JNull (c :: r)
          else if (c =? 116)%N then read_keyword (lit "true") (JBool true) (c :: r)
          else if (c =? 102)%N then read_keyword (lit "false") (JBool false) (c :: r)
          else read_number (c :: r)
      end
  end.

Definition read_json (s : jstring) : option json :=
  '(v, rest) ← read_value (S (length s)) s;
  match skip_ws rest with
  | [] => Some v
  | _ => None
  end.

(** *** ISO-8601 instants *)

(** [n] in decimal on [width] digits, zero-padded. *)
Fixpoint pad_digits (width : nat) (n : Z) : jstring :=
  match width with
  | O => []
  | S w => pad_digits w (n / 10) ++ [Z.to_N (48 + n mod 10)]
  end.

Definition write_iso (t : Z) : jstring :=
  let y := YearFromTime t in
  let ms := TimeWithinDay t in
  (if (0 <=? y) && (y <=? 9999) then pad_digits 4 y
   else (if y <? 0 then lit "-" else lit "+") ++ pad_digits 6 (Z.abs y))
  ++ lit "-" ++ pad_digits 2 (MonthFromTime t + 1)
  ++ lit "-" ++ pad_digits 2 (DateFromTime t)
  ++ lit "T" ++ pad_digits 2 (ms / 3600000)
  ++ lit ":" ++ pad_digits 2 (ms / 60000 mod 60)
  ++ lit ":" ++ pad_digits 2 (ms / 1000 mod 60)
  ++ lit "." ++ pad_digits 3 (ms mod 1000)
  ++ lit "Z".

Definition read_digits (width : nat) (s : jstring) : option (Z * jstring) :=
  let ds := take width s in
  if (length ds =? width)%nat && forallb is_digit ds
  then Some (digits_value ds, drop width s) else None.

Definition expect (c : N) (s : jstring) : option jstring :=
  match s with
  | x :: r => if (x =? c)%N then Some r else None
  | [] => None
  end.

(** The instant a string in the format of [write_iso] denotes; [NaN] for
    any other string. *)
Definition read_iso (s : jstring) : number :=
  '(y, s) ← match s with
            | c :: r =>
                if (c =? 43)%N then read_digits 6 r
                else if (c =? 45)%N then '(v, r') ← read_digits 6 r; Some (- v, r')
                else read_digits 4 s
            | [] => None
            end;
  s ← expect 45 s; '(mo, s) ← read_digits 2 s;
  s ← expect 45 s; '(d, s) ← read_digits 2 s;
  s ← expect 84 s; '(h, s) ← read_digits 2 s;
  s ← expect 58 s; '(mi, s) ← read_digits 2 s;
  s ← expect 58 s; '(sec, s) ← read_digits 2 s;
  s ← expect 46 s; '(ms, s) ← read_digits 3 s;
  s ← expect 90 s;
  if falsy s && (1 <=? mo) && (mo <=? 12) && (1 <=? d) && (d <=? 31)
     && (h <=? 24) && (mi <=? 59) && (sec <=? 59)
  then TimeClip (MakeDate (MakeDay y (mo - 1) d)
                          (h * 3600000 + mi * 60000 + sec * 1000 + ms))
  else NaN.

Definition codec : Codec :=
  {| JSON_text := write_json;
     JSON_parse := read_json;
     Date_toISOString := write_iso;
     Date_parse := read_iso |}.

(** A state to start examples from: a phone with nothing stored. *)
Definition device : App :=
  {| platformIsWeb := false; fileSystemLoaded := true;
     asyncStorage := ∅; modelFileExists := false;
     faults := [];
     transport := {| dl_outcome := DownloadCompletes;
                     dl_fileWritten := true; dl_progress := [] |};
     notesState := {| notes := []; loading := true; error := None |};
     gateState := {| isModelDownloading := false; modelDownloadProgress := (0, 1);
                     modelDownloadError := None; isModelReady := false |} |}.

End Reference.

(* ===================================================================== *)
(** ** Plain JSON values, and the loops of the reference reader *)
(* ===================================================================== *)

Module CodecLaw.
Import Js JsDate Runtime.

(** A JSON value without numbers: strings, [null], booleans, and arrays
    and objects of such. *)
Fixpoint number_free (j : json) : bool :=
  match j with
  | JNull | JBool _ | JStr _ => true
  | JNum _ => false
  | JArr items => forallb number_free items
  | JObj props => forallb (fun kv => number_free (snd kv)) props
  end.

(** A property name that could be an integer index: an object lists such
    names first, in ascending order, whatever the order they were added
    in. *)
Definition index_like (k : jstring) : bool :=
  match k with
  | c :: _ => ((48 <=? c) && (c <=? 57))%N
  | [] => false
  end.

(** JSON values of strings, booleans and [null], in arrays and in objects
    whose property names are distinct and keep their order. *)
Fixpoint plain (j : json) : bool :=
  match j with
  | JNull | JBool _ | JStr _ => true
  | JNum _ => false
  | JArr items => forallb plain items
  | JObj props =>
      bool_decide (NoDup (map fst props))
      && forallb (fun kv => negb (index_like (fst kv)) && plain (snd kv)) props
  end.

End CodecLaw.

(** The two loops of [Reference.read_value], over the reader of values
    they call. *)
Module Reader.
Import Js Runtime Reference.

Definition read_items_with (read : jstring -> option (json * jstring)) :
    nat -> jstring -> option (list json * jstring) :=
  fix read_items (n : nat) (s : jstring) : option (list json * jstring) :=
    match n with
    | O => None
    | S n' =>
        '(v, r) ← read s;
        match skip_ws r with
        | c :: r' =>
            if (c =? 44)%N then
              '(vs, rest) ← read_items n' r'; Some (v :: vs, rest)
            else if (c =? 93)%N then Some ([v], r')
            else None
        | [] => None
        end
    end.

Definition read_props_with (read : jstring -> option (json * jstring)) :
    nat -> jstring -> option (list (jstring * json) * jstring) :=
  fix read_props (n : nat) (s : jstring) : option (list (jstring * json) * jstring) :=
    match n with
    | O => None
    | S n' =>
        match skip_ws s with
        | q :: r0 =>
            if (q =? QUOTE)%N then
              '(k, r1) ← read_string_chars (S (length r0)) r0;
              match skip_ws r1 with
              | c :: r2 =>
                  if (c =? 58)%N then
                    '(v, r3) ← read r2;
                    match skip_ws r3 with
                    | d :: r4 =>
                        if (d =? 44)%N then
                          '(kvs, rest) ← read_props n' r4; Some ((k, v) :: kvs, rest)
                        else if (d =? 125)%N then Some ([(k, v)], r4)
                        else None
                    | [] => None
                    end
                  else None
              | [] => None
              end
            else None
        | [] => None
        end
    end.

(** [read] reads back what was written for [v], whatever follows. *)
Definition reads_back (read : jstring -> option (json * jstring)) (v : json) : Prop :=
  forall rest, read (write_json v ++ rest) = Some (v, rest).

(** The text of one property of an object. *)
Definition prop_text (kv : jstring * json) : jstring :=
  quote (fst kv) ++ lit ":" ++ write_json (snd kv).

End Reader.

(* ===================================================================== *)
(** ** Sample data *)
(* ===================================================================== *)

Module Samples.
Import Js JsDate Runtime NoteUtils UseNotes ModelDownload Gate Reference.

Definition env0 : Ambient :=
  {| new_Date := 1730070060000;
     Date_now := 1730070060001;
     random36 := lit "k3j9x0q2p" |}.

Definition env1 : Ambient :=
  {| new_Date := 1730070060003;
     Date_now := 1730070060004;
     random36 := lit "0f8zq1m7c" |}.

(** Title left empty, content ["Buy milk\nand eggs"]. *)
Definition input0 : NoteInput :=
  {| input_title := [];
     input_content := lit "Buy milk" ++ [LF] ++ lit "and eggs" |}.

Definition input1 : NoteInput :=
  {| input_title := lit "Second"; input_content := lit "another thought" |}.

Definition note0 : Note := createNote env0 input0.

Definition with_notes (ns : list Note) (w : App) : App :=
  with_notesState (fun st => {| notes := ns; loading := false; error := None |}) w.

(** A phone whose next platform call rejects. *)
Definition failing_device : App :=
  with_faults [Some "disk full"%string] (with_notes [note0] device).

(** A phone that holds a model downloaded for an older version. *)
Definition stale_storage : gmap string jstring :=
  <[MODEL_STORAGE_KEY := lit "true"]> (<[MODEL_VERSION_KEY := lit "0.9.0"]> ∅).
Definition stale_device : App :=
  with_modelFileExists true (with_asyncStorage (fun _ => stale_storage) device).

(** A note whose dates are Invalid Dates: what loading a stored object
    without date fields yields. *)
Definition undated_note : Note :=
  {| id := lit "a"; title := lit "t"; content := lit "c";
     createdAt := NaN; updatedAt := NaN |}.

Definition undated_blob : jstring :=
  write_json (JArr [JObj [(lit "id", JStr (lit "a"));
                          (lit "title", JStr (lit "t"));
                          (lit "content", JStr (lit "c"))]]).

(** A phone whose file-system module did not load. *)
Definition no_file_system : App :=
  {| platformIsWeb := false; fileSystemLoaded := false;
     asyncStorage := asyncStorage device; modelFileExists := false;
     faults := []; transport := transport device;
     notesState := notesState device; gateState := gateState device |}.

(** A browser; the script would make any platform call reject. *)
Definition browser : App :=
  {| platformIsWeb := true; fileSystemLoaded := false;
     asyncStorage := asyncStorage device; modelFileExists := false;
     faults := [Some "unreachable"%string]; transport := transport device;
     notesState := notesState device; gateState := gateState device |}.

(** A note updated on 2024-10-27 at 23:59, Central European Time. *)
Definition night_note : Note :=
  {| id := lit "1729980000000abc"; title := lit "Late"; content := lit "Late";
     createdAt := Some 1729980000000; updatedAt := Some 1730069940000 |}.

(** A note dated 2024-04-01 08:00, Central European Summer Time. *)
Definition april_note : Note :=
  {| id := lit "1711951200000xyz"; title := lit "April"; content := lit "April";
     createdAt := Some 1711951200000; updatedAt := Some 1711951200000 |}.

(** A note edited at 23:43 on 2024-10-27, Central European Time, a
    quarter of an hour before [night_note]. *)
Definition evening_note : Note :=
  {| id := lit "1730000000000old"; title := lit "Evening"; content := lit "Evening";
     createdAt := Some 1730000000000; updatedAt := Some 1730069000000 |}.

(** A prior sequence of creates: the notes created, first call first. *)
Fixpoint createAll `{Codec} (calls : list (Ambient * NoteInput)) : IO (list Note) :=
  match calls with
  | [] => mret []
  | (env, noteInput) :: rest =>
      n ← addNote env noteInput;
      ns ← createAll rest;
      mret (n :: ns)
  end.

End Samples.

(* ===================================================================== *)
(** ** More sample states *)
(* ===================================================================== *)

Module Phones.
Import Js Runtime ModelDownload Reference Samples.

Definition with_transport (dl : Download) (a : App) : App :=
  {| platformIsWeb := platformIsWeb a; fileSystemLoaded := fileSystemLoaded a;
     asyncStorage := asyncStorage a; modelFileExists := modelFileExists a;
     faults := faults a; transport := dl;
     notesState := notesState a; gateState := gateState a |}.

(** A phone whose download breaks off after half of the file. *)
Definition rejecting_device : App :=
  with_transport
    {| dl_outcome := DownloadRejects "connection reset";
       dl_fileWritten := true; dl_progress := [(1, 4); (2, 4)] |}
    device.

(** A phone with the current model in place. *)
Definition provisioned_storage : gmap string jstring :=
  <[MODEL_STORAGE_KEY := lit "true"]> (<[MODEL_VERSION_KEY := CURRENT_MODEL_VERSION]> ∅).
Definition provisioned_device : App :=
  with_modelFileExists true (with_asyncStorage (fun _ => provisioned_storage) device).

(** Lower case for the letters A to Z; every other code unit is left as
    it is. On strings of ASCII characters this is [toLowerCase]. *)
Definition ascii_lowercase : CaseMapping :=
  {| toLowerCase := map (fun c => if (65 <=? c) && (c <=? 90) then c + 32 else c)%N |}.

End Phones.

(* ===================================================================== *)
(** ** The title rule in the words of the specification *)
(* ===================================================================== *)

Module TitleSpec.
Import Js.

(** The first line that is non-empty after trimming, in its trimmed form. *)
Fixpoint first_nonblank (lines : list jstring) : option jstring :=
  match lines with
  | [] => None
  | l :: rest =>
      match trim l with
      | [] => first_nonblank rest
      | t => Some t
      end
  end.

(** Trim; if empty, the default. Otherwise split into lines and use the
    first line that is non-empty after trimming, cut to 50 code units plus
    an ellipsis when longer; the default when the lines are exhausted. *)
Definition spec_title (content : jstring) : jstring :=
  match trim content with
  | [] => NoteUtils.DEFAULT_TITLE
  | _ =>
      match first_nonblank (split LF content) with
      | Some t =>
          if (50 <? length t)%nat then take 50 t ++ lit "..." else t
      | None => NoteUtils.DEFAULT_TITLE
      end
  end.

End TitleSpec.

(* ===================================================================== *)
(** ** The date buckets in the words of the specification *)
(* ===================================================================== *)

Module DateSpec.
Import JsDate NoteUtils.

(** Whole calendar days between the local date of the note and the local
    date of today: the difference of the two local day numbers. *)
Definition calendarDiffDays `{TimeZone} (clock t : Z) : Z :=
  Day (LocalTime clock) - Day (LocalTime t).

(** 0: Today; 1: Yesterday; up to 7: This week; up to 30: This month;
    beyond: Older. A negative difference (a note dated after today) is
    given This week. *)
Definition categoryOfDiff (diffDays : Z) : DateCategory :=
  if diffDays =? 0 then Today
  else if diffDays =? 1 then Yesterday
  else if diffDays <=? 7 then ThisWeek
  else if diffDays <=? 30 then ThisMonth
  else Older.

(** The instant is one whose local calendar day the [Date] constructor
    gives back: the year is not one of 0..99, which the constructor reads
    as 1900..1999, and the local midnight is a representable time value. *)
Definition plainDay (offset t : Z) : Prop :=
  ~ (0 <= YearFromTime (t + offset) <= 99)
  /\ Z.abs (Day (t + offset) * msPerDay - offset) <= maxTime.

(** A reading of a real clock: the local year is 100 or later and the
    local midnight is a representable time value. *)
Definition realClock (offset clock : Z) : Prop :=
  100 <= YearFromTime (clock + offset)
  /\ Z.abs (Day (clock + offset) * msPerDay - offset) <= maxTime.

End DateSpec.

(* ===================================================================== *)
(** ** What the codec asks of the platform *)
(* ===================================================================== *)

Module CodecSpec.
Import Js JsDate Runtime.

(** [JSON.parse] reads back the text [JSON.stringify] writes for [j]; the
    text is not the empty string. *)
Definition text_round_trips `{Codec} (j : json) : Prop :=
  JSON_text j <> [] /\ JSON_parse (JSON_text j) = Some j.

(** The date is valid and [Date.parse] reads back its ISO string. *)
Definition instant_round_trips `{Codec} (d : Date) : Prop :=
  exists t, d = Some t /\ Date_parse (Date_toISOString t) = Some t.

Definition timestamps_round_trip `{Codec} (n : Note) : Prop :=
  instant_round_trips (createdAt n) /\ instant_round_trips (updatedAt n).

(** Decoding the stored text throws: it is not JSON, or the parsed value
    is not an array, or the array holds a [null]. *)
Definition decode_throws `{Codec} (text : jstring) : Prop :=
  match JSON_parse text with
  | None => True
  | Some (JArr items) => existsb NoteUtils.is_null items = true
  | Some _ => True
  end.

(** The load cannot succeed: the adapter read rejects, or it returns a
    text whose decoding throws. *)
Definition load_fails `{Codec} (w : App) : Prop :=
  (exists reason rest, faults w = Some reason :: rest)
  \/ (quiet 1 w = true
      /\ exists text, asyncStorage w !! NoteUtils.NOTES_STORAGE_KEY = Some text
                      /\ text <> [] /\ decode_throws text).

(** A date that holds an instant: not an Invalid Date, and a time value
    in the range of [Date]. *)
Definition is_instant (d : Date) : Prop :=
  exists t, d = Some t /\ Z.abs t <= maxTime.

(** A note as the specification has it: both timestamps are instants. *)
Definition has_instants (n : Note) : Prop :=
  is_instant (createdAt n) /\ is_instant (updatedAt n).

(** What the standard asks of the platform: [JSON.parse] reads back the
    text [JSON.stringify] writes for every plain value, and [Date.parse]
    reads back the ISO string of every instant. *)
Definition lawful `{Codec} : Prop :=
  (forall j, CodecLaw.plain j = true -> text_round_trips j)
  /\ (forall t, Z.abs t <= maxTime -> Date_parse (Date_toISOString t) = Some t).

End CodecSpec.

(* ===================================================================== *)
(** ** The shape of a title *)
(* ===================================================================== *)

Module TitleShape.
Import Js.

(** A string that does not start, or does not end, with a blank code
    unit. *)
Definition starts_clean (s : jstring) : bool :=
  match s with [] => true | c :: _ => negb (is_ws c) end.
Definition ends_clean (s : jstring) : bool := starts_clean (reverse s).

(** What a title is made of: one line, at most 53 code units, not empty,
    nothing to trim. *)
Definition well_shaped (t : jstring) : Prop :=
  t <> [] /\ (length t <= 53)%nat /\ Forall (fun c => c <> LF) t /\ trim t = t.

End TitleShape.

(* ===================================================================== *)
(** ** What the store keeps in step *)
(* ===================================================================== *)

Module StoreSpec.
Import Js Runtime NoteUtils.

(** The stored blob is the serialisation of the collection in memory. *)
Definition in_sync `{Codec} (w : App) : Prop :=
  asyncStorage w !! NOTES_STORAGE_KEY
  = Some (JSON_stringify (notes (notesState w))).

(** How a mutator that was to make [ns] the collection can end: the
    collection and the blob are [ns] and the error field is cleared, or
    the write was rejected and both are as in [w]. *)
Definition applied `{Codec} (ns : list Note) (w' : App) : Prop :=
  notes (notesState w') = ns
  /\ asyncStorage w' !! NOTES_STORAGE_KEY = Some (JSON_stringify ns)
  /\ error (notesState w') = None.

Definition dropped (w w' : App) : Prop :=
  notes (notesState w') = notes (notesState w)
  /\ asyncStorage w' = asyncStorage w
  /\ error (notesState w') = Some "Failed to save notes"%string.

End StoreSpec.

(* ===================================================================== *)
(** ** What the list view promises *)
(* ===================================================================== *)

Module ViewSpec.
Import Js JsDate Runtime NoteUtils.

(** [sub] occurs in [s]. *)
Definition occurs_in (sub s : jstring) : Prop :=
  exists before after, s = before ++ sub ++ after.

(** The note matches the search term: the lower-cased term occurs in the
    lower-cased title or in the lower-cased content. *)
Definition matches `{CaseMapping} (searchTerm : jstring) (note : Note) : Prop :=
  occurs_in (toLowerCase searchTerm) (toLowerCase (title note))
  \/ occurs_in (toLowerCase searchTerm) (toLowerCase (content note)).

(** [a] was not updated before [b]; both dates are valid. *)
Definition not_older (a b : Note) : Prop :=
  match updatedAt a, updatedAt b with
  | Some ta, Some tb => tb <= ta
  | _, _ => False
  end.

End ViewSpec.

(* ===================================================================== *)
(** ** What the model service and the gate promise *)
(* ===================================================================== *)

Module ModelSpec.
Import Js Runtime ModelDownload.

(** The model is in place: the asset file exists, the version tag is the
    current one and the installed flag is set. *)
Definition installed (w : App) : Prop :=
  modelFileExists w = true
  /\ asyncStorage w !! MODEL_VERSION_KEY = Some CURRENT_MODEL_VERSION
  /\ asyncStorage w !! MODEL_STORAGE_KEY = Some (lit "true").

(** Nothing but the script of faults differs. *)
Definition only_faults_differ (w w' : App) : Prop :=
  w' = with_faults (faults w') w.

(** The platform side of two states is the same: they differ in the
    state of the screens only. *)
Definition same_platform (w w' : App) : Prop :=
  platformIsWeb w' = platformIsWeb w
  /\ fileSystemLoaded w' = fileSystemLoaded w
  /\ asyncStorage w' = asyncStorage w
  /\ modelFileExists w' = modelFileExists w
  /\ faults w' = faults w
  /\ transport w' = transport w.

(** A progress callback that returns and touches the screens only. *)
Definition screen_only (onProgress : Z * Z -> IO unit) : Prop :=
  forall p w, exists w', onProgress p w = (Return tt, w') /\ same_platform w w'.

(** The verdict of the gate (ready, downloading, error) and everything
    outside the gate's state that the service cannot change is the same;
    the progress figure, the storage and the file may differ. *)
Definition same_verdict (w w' : App) : Prop :=
  isModelReady (gateState w') = isModelReady (gateState w)
  /\ isModelDownloading (gateState w') = isModelDownloading (gateState w)
  /\ modelDownloadError (gateState w') = modelDownloadError (gateState w)
  /\ notesState w' = notesState w
  /\ platformIsWeb w' = platformIsWeb w
  /\ fileSystemLoaded w' = fileSystemLoaded w
  /\ transport w' = transport w.

(** The call ends in a value or an exception and moves the state along
    [R]. *)
Definition respects {A} (R : App -> App -> Prop) (m : IO A) : Prop :=
  forall w, fst (m w) <> OutOfModel /\ R w (snd (m w)).

End ModelSpec.

Module GateSpec.
Import Js Runtime ModelDownload Gate.

(** The states the gate moves the screen to: the download has started;
    it has ended with the model ready; it has ended with an error. *)
Definition download_started (w : App) : App :=
  with_gateState (setModelDownloadProgress (0, 1))
    (with_gateState (setModelDownloadError None)
       (with_gateState (setIsModelDownloading true) w)).

Definition ended_ready (w : App) : App :=
  with_gateState (setIsModelReady true)
    (with_gateState (setIsModelDownloading false) w).

Definition ended_failed (e : exn) (w : App) : App :=
  with_gateState (setModelDownloadError (Some (message_of e)))
    (with_gateState (setIsModelDownloading false) w).

(** The progress callback the gate hands to [downloadModel]. *)
Definition show_progress (progress : Z * Z) : IO unit :=
  setGate (setModelDownloadProgress progress).

End GateSpec.

(* ===================================================================== *)
(** * Theorems *)
(* ===================================================================== *)

Module JsFacts.
Import Js.

Lemma dropWhile_all {A} (p : A -> bool) l :
  forallb p l = true -> dropWhile p l = [].
Proof.
  induction l as [|x r IH]; simpl; [reflexivity|].
  destruct (p x); simpl; [exact IH | discriminate].
Qed.

Lemma dropWhile_nil_all {A} (p : A -> bool) l :
  dropWhile p l = [] -> forallb p l = true.
Proof.
  induction l as [|x r IH]; simpl; [reflexivity|].
  destruct (p x); simpl; [exact IH | discriminate].
Qed.

Lemma dropWhile_app_all {A} (p : A -> bool) l1 l2 :
  forallb p l1 = true -> dropWhile p (l1 ++ l2) = dropWhile p l2.
Proof.
  induction l1 as [|x r IH]; simpl; [reflexivity|].
  destruct (p x); simpl; [exact IH | discriminate].
Qed.

Lemma dropWhile_app_keep {A} (p : A -> bool) l1 l2 :
  forallb p l1 = false -> dropWhile p (l1 ++ l2) = dropWhile p l1 ++ l2.
Proof.
  induction l1 as [|x r IH]; simpl; [discriminate|].
  destruct (p x); simpl; [exact IH | reflexivity].
Qed.

Lemma takeWhile_dropWhile {A} (p : A -> bool) l :
  takeWhile p l ++ dropWhile p l = l.
Proof.
  induction l as [|x r IH]; simpl; [reflexivity|].
  destruct (p x); simpl; [now rewrite IH | reflexivity].
Qed.

Lemma takeWhile_all {A} (p : A -> bool) l : forallb p (takeWhile p l) = true.
Proof.
  induction l as [|x r IH]; simpl; [reflexivity|].
  destruct (p x) eqn:E; simpl; [now rewrite E | reflexivity].
Qed.

Lemma dropWhile_head {A} (p : A -> bool) l x r :
  dropWhile p l = x :: r -> p x = false.
Proof.
  induction l as [|y l IH]; simpl; [discriminate|].
  destruct (p y) eqn:E; [exact IH | intros [= <- _]; exact E].
Qed.

Lemma forallb_reverse {A} (p : A -> bool) l :
  forallb p (reverse l) = forallb p l.
Proof.
  induction l as [|x r IH]; [reflexivity|].
  rewrite reverse_cons, forallb_app, IH. simpl.
  rewrite andb_true_r. apply andb_comm.
Qed.

Lemma trimEnd_all l : forallb is_ws l = true -> trimEnd l = [].
Proof.
  intros H. unfold trimEnd.
  rewrite dropWhile_all; [reflexivity | now rewrite forallb_reverse].
Qed.

Lemma trimEnd_app_ws l w : forallb is_ws w = true -> trimEnd (l ++ w) = trimEnd l.
Proof.
  intros H. unfold trimEnd. rewrite reverse_app.
  now rewrite dropWhile_app_all by now rewrite forallb_reverse.
Qed.

Lemma trimEnd_nil_all l : trimEnd l = [] -> forallb is_ws l = true.
Proof.
  unfold trimEnd. intros H.
  apply (f_equal reverse) in H. rewrite reverse_involutive in H.
  apply dropWhile_nil_all in H. now rewrite forallb_reverse in H.
Qed.

(** A string trims to the empty string exactly when it is blank. *)
Lemma trim_nil_iff l : trim l = [] <-> forallb is_ws l = true.
Proof.
  unfold trim, trimStart. split.
  - intros H. apply trimEnd_nil_all in H.
    rewrite <- (takeWhile_dropWhile is_ws l), forallb_app, H.
    now rewrite takeWhile_all.
  - intros H. now rewrite dropWhile_all.
Qed.

Lemma trim_cons_ws a l : is_ws a = true -> trim (a :: l) = trim l.
Proof. intros H. unfold trim, trimStart. simpl. now rewrite H. Qed.

Lemma trim_app_ws l w : forallb is_ws w = true -> trim (l ++ w) = trim l.
Proof.
  intros Hw. destruct (forallb is_ws l) eqn:Hl.
  - assert (H : forallb is_ws (l ++ w) = true) by now rewrite forallb_app, Hl, Hw.
    apply trim_nil_iff in H. apply trim_nil_iff in Hl. congruence.
  - unfold trim, trimStart. rewrite dropWhile_app_keep by exact Hl.
    now apply trimEnd_app_ws.
Qed.

Lemma trim_cons_nonblank c l : is_ws c = false -> trim (c :: l) <> [].
Proof.
  intros Hc H. apply trim_nil_iff in H. simpl in H. now rewrite Hc in H.
Qed.

(** A string is what [trimEnd] keeps followed by blanks. *)
Lemma trimEnd_decompose l :
  exists w, forallb is_ws w = true /\ l = trimEnd l ++ w.
Proof.
  exists (reverse (takeWhile is_ws (reverse l))). split.
  - rewrite forallb_reverse. apply takeWhile_all.
  - unfold trimEnd. rewrite <- reverse_app, takeWhile_dropWhile.
    now rewrite reverse_involutive.
Qed.

Lemma split_nonempty sep s : split sep s <> [].
Proof.
  destruct s as [|c r]; simpl; [discriminate|].
  destruct (c =? sep)%N; [discriminate|].
  destruct (split sep r); discriminate.
Qed.

Lemma split_cons_other sep c r :
  (c =? sep)%N = false ->
  split sep (c :: r) = (c :: first (split sep r)) :: tl (split sep r).
Proof.
  intros H. simpl. rewrite H.
  destruct (split sep r) eqn:E; [now apply split_nonempty in E | reflexivity].
Qed.

(** The first piece of [u ++ w] is the first piece of [u], followed by
    blanks when [w] is blank. *)
Lemma first_split_app_ws sep u w :
  forallb is_ws w = true ->
  exists w', forallb is_ws w' = true /\
             first (split sep (u ++ w)) = first (split sep u) ++ w'.
Proof.
  intros Hw. induction u as [|a u IH].
  - exists (first (split sep w)). split; [|reflexivity].
    clear - Hw. induction w as [|b w IHw]; [reflexivity|].
    simpl in Hw. apply andb_true_iff in Hw as [Hb Hw].
    destruct (b =? sep)%N eqn:E.
    + simpl. now rewrite E.
    + rewrite split_cons_other by exact E. simpl. rewrite Hb. now apply IHw.
  - destruct (a =? sep)%N eqn:E.
    + exists []. split; [reflexivity|]. simpl. now rewrite E.
    + destruct IH as (w' & Hw' & IH). exists w'. split; [exact Hw'|].
      rewrite <- app_comm_cons, !split_cons_other by exact E.
      simpl. now rewrite IH.
Qed.

End JsFacts.

Module TitleFacts.
Import Js JsFacts NoteUtils TitleSpec.

Lemma is_ws_LF : is_ws LF = true.
Proof. reflexivity. Qed.

Lemma not_ws_not_LF c : is_ws c = false -> (c =? LF)%N = false.
Proof.
  intros H. destruct (N.eqb_spec c LF) as [->|]; [|reflexivity].
  now rewrite is_ws_LF in H.
Qed.

(** Blank code units in front of the content only add blank lines, or pad
    the first non-blank one on the left. *)
Lemma first_nonblank_skip_ws p s :
  forallb is_ws p = true ->
  first_nonblank (split LF (p ++ s)) = first_nonblank (split LF s).
Proof.
  induction p as [|a p IH]; [reflexivity|].
  simpl forallb. intros H. apply andb_true_iff in H as [Ha Hp].
  rewrite <- app_comm_cons. destruct (a =? LF)%N eqn:E.
  - simpl. rewrite E. simpl. now apply IH.
  - rewrite split_cons_other by exact E. simpl.
    rewrite trim_cons_ws by exact Ha. rewrite <- (IH Hp).
    destruct (split LF (p ++ s)) eqn:Es; [now apply split_nonempty in Es|].
    reflexivity.
Qed.

Lemma first_nonblank_at_start c s :
  is_ws c = false ->
  first_nonblank (split LF (c :: s)) = Some (trim (first (split LF (c :: s)))).
Proof.
  intros Hc. rewrite split_cons_other by now apply not_ws_not_LF.
  simpl. pose proof (trim_cons_nonblank c (first (split LF s)) Hc) as Hne.
  destruct (trim (c :: first (split LF s))); [contradiction | reflexivity].
Qed.

(** What the code calls [firstLine] is the first non-blank line of the
    content, trimmed. *)
Lemma firstLine_is_first_nonblank content :
  trim content <> [] ->
  first_nonblank (split LF content)
  = Some (trim (first (split LF (trim content)))).
Proof.
  intros Hne.
  rewrite <- (takeWhile_dropWhile is_ws content) at 1.
  rewrite first_nonblank_skip_ws by apply takeWhile_all.
  unfold trim at 2. fold (trimStart content).
  destruct (trimStart content) as [|c s] eqn:Es.
  - exfalso. apply Hne. unfold trim. now rewrite Es.
  - pose proof (dropWhile_head _ _ _ _ Es) as Hc.
    rewrite first_nonblank_at_start by exact Hc. f_equal.
    destruct (trimEnd_decompose (c :: s)) as (w & Hw & Hdec).
    destruct (first_split_app_ws LF (trimEnd (c :: s)) w Hw) as (w' & Hw' & Hf).
    rewrite <- Hdec in Hf. rewrite Hf. now apply trim_app_ws.
Qed.

Lemma falsy_nil (s : jstring) : falsy s = true <-> s = [].
Proof. destruct s; simpl; split; congruence. Qed.

Lemma falsy_false (s : jstring) : falsy s = false <-> s <> [].
Proof. destruct s; simpl; split; congruence. Qed.

(** C3. For every content string, [generateTitleFromContent] returns the
    fixed default when the trimmed content is empty, and otherwise the first
    line that is non-empty after trimming (in its trimmed form), cut to 50
    code units with ["..."] appended when it is longer than 50; the default
    is also what it returns should no such line exist. *)
Theorem C3_generateTitle_refines_spec (content : jstring) :
  generateTitleFromContent content = spec_title content.
Proof.
  unfold generateTitleFromContent, spec_title.
  destruct (trim content) as [|c0 t0] eqn:Et.
  - now rewrite orb_true_r.
  - assert (Hne : trim content <> []) by now rewrite Et.
    assert (Hc : content <> []).
    { intros ->. now apply Hne. }
    apply falsy_false in Hc. rewrite Hc. cbn [orb falsy]. cbv zeta.
    pose proof (firstLine_is_first_nonblank content Hne) as H.
    rewrite Et in H. rewrite H.
    destruct (trim (first (split LF (c0 :: t0)))) as [|c1 t1] eqn:E1.
    + (* a line kept by [first_nonblank] is never empty *)
      exfalso. clear - H.
      induction (split LF content) as [|l ls IH]; [discriminate|].
      simpl in H. destruct (trim l); [now apply IH | discriminate].
    + reflexivity.
Qed.

End TitleFacts.


Module DateFacts.
Import JsDate NoteUtils DateSpec.

(** The year the embedding computes is the one the standard defines: the
    last year that starts on or before the day. *)
Lemma YearFromDay_spec d :
  DayFromYear (YearFromDay d) <= d < DayFromYear (YearFromDay d + 1).
Proof.
  unfold YearFromDay. cbv zeta.
  set (y := 1970 + d * 400 / 146097).
  assert (Hq : 146097 * (y - 1970) <= 400 * d < 146097 * (y - 1970) + 146097).
  { unfold y. Z.div_mod_to_equations. lia. }
  clearbody y.
  destruct (Z.leb_spec (DayFromYear (y + 1)) d);
    [|destruct (Z.ltb_spec d (DayFromYear y))].
  - split; [assumption|]. unfold DayFromYear. Z.div_mod_to_equations. lia.
  - replace (y - 1 + 1) with y by lia. split; [|assumption].
    unfold DayFromYear. Z.div_mod_to_equations. lia.
  - split; assumption.
Qed.

Lemma DayFromYear_succ y : DayFromYear (y + 1) = DayFromYear y + DaysInYear y.
Proof.
  unfold DayFromYear, DaysInYear.
  replace (y + 1 - 1970) with (y - 1969) by lia.
  replace (y + 1 - 1969) with (y - 1968) by lia.
  replace (y + 1 - 1901) with (y - 1900) by lia.
  replace (y + 1 - 1601) with (y - 1600) by lia.
  destruct (Z.eqb_spec (y mod 4) 0); destruct (Z.eqb_spec (y mod 100) 0);
    destruct (Z.eqb_spec (y mod 400) 0); cbn [negb];
    Z.div_mod_to_equations; lia.
Qed.

Lemma DayFromYear_mono y1 y2 : y1 <= y2 -> DayFromYear y1 <= DayFromYear y2.
Proof.
  intros Hle. unfold DayFromYear. Z.div_mod_to_equations. lia.
Qed.

Lemma DayWithinYear_range t :
  0 <= DayWithinYear t < 365 + InLeapYear t.
Proof.
  unfold DayWithinYear, InLeapYear, YearFromTime.
  pose proof (YearFromDay_spec (Day t)) as H.
  rewrite DayFromYear_succ in H.
  assert (Hd : DaysInYear (YearFromDay (Day t)) = 365
               \/ DaysInYear (YearFromDay (Day t)) = 366).
  { unfold DaysInYear. repeat destruct (negb _); auto. }
  destruct Hd as [Hd | Hd]; rewrite Hd in *.
  - change (365 =? 366) with false. cbv iota. lia.
  - change (366 =? 366) with true. cbv iota. lia.
Qed.

Lemma MonthFromTime_range t : 0 <= MonthFromTime t <= 11.
Proof.
  unfold MonthFromTime. cbv zeta.
  repeat match goal with |- context [if ?b then _ else _] => destruct b end; lia.
Qed.

(** The calendar fields of an instant name its day. *)
Lemma MakeDay_fields t :
  MakeDay (YearFromTime t) (MonthFromTime t) (DateFromTime t) = Day t.
Proof.
  pose proof (MonthFromTime_range t) as Hm.
  unfold MakeDay. cbv zeta.
  replace (MonthFromTime t / 12) with 0 by (Z.div_mod_to_equations; lia).
  replace (MonthFromTime t mod 12) with (MonthFromTime t)
    by (Z.div_mod_to_equations; lia).
  rewrite Z.add_0_r. fold (InLeapYear t).
  unfold DateFromTime, DayWithinYear. lia.
Qed.

Section FixedOffset.
Context `{TimeZone}.
Variable offset : Z.
Hypothesis constant_offset : forall t isUTC, LocalTZA t isUTC = offset.

(** In a zone with one offset, the constructor yields the local midnight
    of the day of a plain instant. *)
Lemma Date_ymd_local_midnight t :
  plainDay offset t ->
  Date_ymd (getFullYear (Some t)) (getMonth (Some t)) (getDate (Some t))
  = Some (Day (t + offset) * msPerDay - offset).
Proof.
  intros [Hy Hr]. unfold getFullYear, getMonth, getDate, Date_ymd. cbn.
  unfold LocalTime, UTC. rewrite !constant_offset.
  destruct ((0 <=? YearFromTime (t + offset)) && (YearFromTime (t + offset) <=? 99)) eqn:E.
  - apply andb_true_iff in E as [E1 E2]. lia.
  - rewrite MakeDay_fields. unfold MakeDate. rewrite Z.add_0_r.
    unfold TimeClip. destruct (Z.ltb_spec maxTime (Z.abs (Day (t + offset) * msPerDay - offset))); [lia | reflexivity].
Qed.

(** In a zone with one offset, the bucket of a note is the bucket of the
    calendar-day difference, for plain instants. *)
Lemma getDateCategory_fixed_offset clock t :
  plainDay offset clock -> plainDay offset t ->
  getDateCategory clock (Some t) = categoryOfDiff (calendarDiffDays clock t).
Proof.
  intros Hc Ht. unfold getDateCategory. cbv zeta.
  rewrite !Date_ymd_local_midnight by assumption.
  unfold getTime, num_sub, ceil_div, calendarDiffDays, LocalTime. cbn.
  rewrite !constant_offset.
  set (a := Day (clock + offset)). set (b := Day (t + offset)).
  change (1000 * 60 * 60 * 24) with msPerDay.
  replace (- (- (a * msPerDay - offset - (b * msPerDay - offset)) / msPerDay))
    with (a - b).
  - reflexivity.
  - unfold msPerDay. Z.div_mod_to_equations. lia.
Qed.

(** In a zone with one offset, a note dated after today is in This week,
    whatever its date, for every reading of a real clock. *)
Lemma future_note_fixed_offset clock t :
  realClock offset clock -> t <= maxTime ->
  calendarDiffDays clock t < 0 ->
  getDateCategory clock (Some t) = ThisWeek.
Proof.
  intros [Hyear Hmid] Hmax Hneg.
  assert (Hdays : Day (clock + offset) < Day (t + offset)).
  { unfold calendarDiffDays, LocalTime in Hneg.
    rewrite !constant_offset in Hneg. lia. }
  assert (Hc : plainDay offset clock) by (split; [lia | exact Hmid]).
  assert (Ht : plainDay offset t).
  { split.
    - intros [_ Hle]. unfold YearFromTime in *.
      pose proof (YearFromDay_spec (Day (clock + offset))) as [Hlo _].
      pose proof (YearFromDay_spec (Day (t + offset))) as [_ Hhi].
      pose proof (DayFromYear_mono (YearFromDay (Day (t + offset)) + 1)
                    (YearFromDay (Day (clock + offset)))) as Hmono.
      lia.
    - unfold Day, msPerDay, maxTime in *. Z.div_mod_to_equations. lia. }
  rewrite (getDateCategory_fixed_offset clock t Hc Ht).
  unfold categoryOfDiff.
  destruct (Z.eqb_spec (calendarDiffDays clock t) 0); [lia|].
  destruct (Z.eqb_spec (calendarDiffDays clock t) 1); [lia|].
  destruct (Z.leb_spec (calendarDiffDays clock t) 7); [reflexivity | lia].
Qed.

End FixedOffset.

End DateFacts.


(* ===================================================================== *)
(** ** Running asynchronous code *)
(* ===================================================================== *)

Module RuntimeFacts.
Import Js Runtime.

Lemma with_faults_same w : with_faults (faults w) w = w.
Proof. now destruct w. Qed.

Lemma advance_nil w : faults w = [] -> advance w = w.
Proof. intros Hf. unfold advance. rewrite Hf. simpl. rewrite <- Hf. apply with_faults_same. Qed.

Lemma platform_call_rejects {A} (effect : IO A) w m rest :
  faults w = Some m :: rest ->
  platform_call effect w = (Throw (Rejected m), advance w).
Proof. intros Hf. unfold platform_call, advance. now rewrite Hf. Qed.

(** A call the script lets through runs its effect on the advanced state. *)
Lemma platform_call_quiet {A} (effect : IO A) n w :
  quiet (S n) w = true ->
  platform_call effect w = effect (advance w) /\ quiet n (advance w) = true.
Proof.
  unfold quiet, platform_call. destruct (faults w) as [|[m|] rest] eqn:Hf; simpl.
  - intros _. rewrite advance_nil by exact Hf. rewrite Hf. now destruct n.
  - discriminate.
  - intros Hq. unfold advance. rewrite Hf. simpl. split; [reflexivity | exact Hq].
Qed.

Lemma quiet_S n w : quiet (S n) w = true -> quiet n w = true.
Proof.
  unfold quiet. generalize (faults w). induction n as [|n IH]; intros l; [reflexivity|].
  destruct l as [|f l]; [reflexivity|]. simpl. intros Hq.
  apply andb_true_iff in Hq as [Hf Hq]. rewrite Hf. simpl. apply (IH l). exact Hq.
Qed.

Lemma quiet_nil n w : faults w = [] -> quiet n w = true.
Proof. intros Hf. unfold quiet. rewrite Hf. now destruct n. Qed.

(** Fields a step of the script leaves alone. *)
Lemma advance_fields w :
  asyncStorage (advance w) = asyncStorage w
  /\ notesState (advance w) = notesState w
  /\ gateState (advance w) = gateState w
  /\ modelFileExists (advance w) = modelFileExists w
  /\ platformIsWeb (advance w) = platformIsWeb w
  /\ fileSystemLoaded (advance w) = fileSystemLoaded w.
Proof. now destruct w. Qed.

End RuntimeFacts.

(** Unfolds the plumbing of [IO] so that a call reduces to its result. *)
Ltac io_unfold :=
  unfold Runtime.try_catch, mbind, mret, Runtime.IO_bind, Runtime.IO_ret,
    Runtime.bind, Runtime.ret, Runtime.throw, Runtime.outOfModel,
    Runtime.get, Runtime.modify in *.

(* ===================================================================== *)
(** ** Facts about src/utils/noteUtils.ts *)
(* ===================================================================== *)

Module NoteFacts.
Import Js JsDate Runtime NoteUtils JsFacts TitleFacts.

Lemma Z_toString_nonempty z : Z_toString z <> [].
Proof.
  unfold Z_toString, NilZero.string_of_int, NilZero.string_of_uint.
  destruct (Z.to_int z) as [d|d]; destruct d; discriminate.
Qed.

Lemma lit_inj s1 s2 : lit s1 = lit s2 -> s1 = s2.
Proof.
  unfold lit. intros Heq.
  rewrite <- (string_of_list_ascii_of_string s1), <- (string_of_list_ascii_of_string s2).
  f_equal. revert Heq.
  generalize (list_ascii_of_string s1) (list_ascii_of_string s2).
  induction l as [|a l IH]; intros [|b l']; simpl; try discriminate; [reflexivity|].
  intros [= Hab Hl]. f_equal; [|now apply IH].
  rewrite <- (ascii_N_embedding a), <- (ascii_N_embedding b). now rewrite Hab.
Qed.

(** The decimal form of an integer determines it. *)
Lemma Z_toString_inj z1 z2 : Z_toString z1 = Z_toString z2 -> z1 = z2.
Proof.
  unfold Z_toString. intros Heq. apply lit_inj in Heq.
  assert (Hnn : forall z, Z.to_int z <> Decimal.Pos Decimal.Nil
                          /\ Z.to_int z <> Decimal.Neg Decimal.Nil).
  { intros [|p|p]; split; simpl; try discriminate;
      intros [= Hp]; now apply Unsigned.to_uint_nonnil in Hp. }
  apply to_int_inj.
  assert (Hsome : Some (Z.to_int z1) = Some (Z.to_int z2)).
  { rewrite <- (NilZero.isi (Z.to_int z1)), <- (NilZero.isi (Z.to_int z2));
      try apply Hnn. now rewrite Heq. }
  now injection Hsome.
Qed.

(** Two clock readings with as many digits give different ids as soon as
    they differ, whatever the random suffixes. *)
Lemma generateId_distinct e1 e2 :
  length (Z_toString (Date_now e1)) = length (Z_toString (Date_now e2)) ->
  Date_now e1 <> Date_now e2 ->
  generateId e1 <> generateId e2.
Proof.
  intros Hlen Hne Heq. apply Hne, Z_toString_inj.
  unfold generateId in Heq.
  now apply app_inj_1 in Heq as [Heq _].
Qed.

Lemma generateId_nonempty env : falsy (generateId env) = false.
Proof.
  apply falsy_false. unfold generateId. intros H.
  apply app_eq_nil in H as [H _]. now apply Z_toString_nonempty in H.
Qed.

Lemma limitTitle_nonempty t : t <> [] -> limitTitle t <> [].
Proof.
  intros Ht. unfold limitTitle, substring0.
  destruct (50 <? length t)%nat; [|exact Ht].
  intros H. apply app_eq_nil in H as [_ H]. discriminate.
Qed.

Lemma firstNonEmptyLine_nonempty lines : firstNonEmptyLine lines <> [].
Proof.
  induction lines as [|l ls IH]; simpl; [discriminate|].
  destruct (falsy (trim l)) eqn:E; [exact IH|].
  apply limitTitle_nonempty. now apply falsy_false.
Qed.

(** A generated title is never the empty string. *)
Lemma generateTitle_nonempty c : generateTitleFromContent c <> [].
Proof.
  unfold generateTitleFromContent.
  destruct (falsy c || falsy (trim c)); [discriminate|]. cbv zeta.
  destruct (falsy (trim (first (split LF (trim c))))) eqn:E.
  - apply firstNonEmptyLine_nonempty.
  - apply limitTitle_nonempty. now apply falsy_false.
Qed.

Lemma or_empty_id (s : jstring) : or_empty s = s.
Proof. now destruct s. Qed.

Lemma createNote_title_nonempty env i : title (createNote env i) <> [].
Proof.
  unfold createNote. cbn.
  destruct (falsy (trim (input_title i))) eqn:E.
  - apply generateTitle_nonempty.
  - now apply falsy_false.
Qed.

Lemma insert_sorted_elem x l (n : Note) : n ∈ insert_sorted x l <-> n = x \/ n ∈ l.
Proof.
  induction l as [|y r IH]; simpl.
  - rewrite list_elem_of_singleton, elem_of_nil. tauto.
  - destruct (goes_after x y); rewrite !elem_of_cons; [rewrite IH|]; tauto.
Qed.

Lemma sort_newest_first_elem l (n : Note) : n ∈ sort_newest_first l <-> n ∈ l.
Proof.
  induction l as [|x r IH]; simpl; [tauto|].
  rewrite insert_sorted_elem, elem_of_cons, IH. tauto.
Qed.

Lemma bucket_on_bucket c c' f cs :
  bucket c (on_bucket c' f cs) = if decide (c = c') then f (bucket c cs) else bucket c cs.
Proof. destruct c, c'; reflexivity. Qed.

Lemma categorize_each_elem categoryOf notes : forall i cs c (n : Note),
  n ∈ bucket c (categorize_each categoryOf i notes cs)
  <-> n ∈ bucket c cs
      \/ exists j, notes !! j = Some n /\ categoryOf (i + j)%nat n = c.
Proof.
  induction notes as [|x rest IH]; intros i cs c n; cbn [categorize_each].
  - split; [tauto|]. intros [Hin | (j & Hj & _)]; [exact Hin | discriminate].
  - rewrite IH, bucket_on_bucket. split.
    + intros [Hin | (j & Hj & Hc)].
      * destruct (decide _) as [->|]; [|tauto].
        apply elem_of_app in Hin as [Hin | Hin]; [tauto|].
        apply list_elem_of_singleton in Hin as ->.
        right. exists 0%nat. now rewrite Nat.add_0_r.
      * right. exists (S j). now rewrite Nat.add_succ_r.
    + intros [Hin | ([|j] & Hj & Hc)].
      * left. destruct (decide _); [apply elem_of_app|]; tauto.
      * injection Hj as ->. rewrite Nat.add_0_r in Hc. left.
        rewrite decide_True by congruence.
        apply elem_of_app. right. now apply list_elem_of_singleton.
      * right. exists j. now rewrite Nat.add_succ_r in Hc.
Qed.

Lemma sorted_buckets_elem c cs (n : Note) :
  n ∈ bucket c (foldr (fun category c => on_bucket category sort_newest_first c) cs
                  [Today; Yesterday; ThisWeek; ThisMonth; Older])
  <-> n ∈ bucket c cs.
Proof. destruct c; cbn; apply sort_newest_first_elem. Qed.

(** A note is listed under a category exactly when it is in the collection
    and [getDateCategory] gave it that category. *)
Lemma categorizeNotes_elem `{TimeZone} clock notes c (n : Note) :
  n ∈ bucket c (categorizeNotes clock notes)
  <-> exists j, notes !! j = Some n
                /\ getDateCategory (clock j) (updatedAt n) = c.
Proof.
  unfold categorizeNotes. cbv zeta.
  rewrite sorted_buckets_elem, categorize_each_elem.
  split.
  - intros [Hin | Hj]; [|exact Hj]. destruct c; cbn in Hin; now apply elem_of_nil in Hin.
  - intros Hj. right. exact Hj.
Qed.

End NoteFacts.

(* ===================================================================== *)
(** ** Facts about src/hooks/useNotes.ts *)
(* ===================================================================== *)

Module HookFacts.
Import Js JsDate Runtime NoteUtils UseNotes CodecSpec.
Import JsFacts TitleFacts RuntimeFacts NoteFacts.

Section WithCodec.
Context `{Codec}.

(** [saveNotes] when the write rejects: the rejection is caught, only the
    error field changes. *)
Lemma saveNotes_write_rejects ns w reason rest :
  faults w = Some reason :: rest ->
  saveNotes ns w
  = (Return tt, with_notesState (set_error (Some "Failed to save notes")) (advance w)).
Proof.
  intros Hf. unfold saveNotes, saveNotesToStorage, AsyncStorage_setItem, setState.
  io_unfold. now rewrite (platform_call_rejects _ w reason rest Hf).
Qed.

(** [saveNotes] when the write goes through. *)
Lemma saveNotes_write_succeeds ns w :
  quiet 1 w = true ->
  saveNotes ns w
  = (Return tt,
     with_notesState (set_notes_saved ns)
       (with_asyncStorage (insert NOTES_STORAGE_KEY (JSON_stringify ns)) (advance w))).
Proof.
  intros Hq. unfold saveNotes, saveNotesToStorage, AsyncStorage_setItem, setState.
  io_unfold. now rewrite (proj1 (platform_call_quiet _ 0 w Hq)).
Qed.

(** C1. When the write-through rejects, neither [addNote] nor
    [updateNoteById] fails: each resolves with the note it built, as on
    success. The in-memory collection and the stored blob are as before the
    call; the only trace is the [error] field of the hook. *)
Theorem C1_failed_write_is_swallowed env w reason rest :
  faults w = Some reason :: rest ->
  (forall noteInput, exists w',
      addNote env noteInput w = (Return (createNote env noteInput), w')
      /\ notes (notesState w') = notes (notesState w)
      /\ asyncStorage w' = asyncStorage w
      /\ error (notesState w') = Some "Failed to save notes"%string)
  /\ (forall noteId updates i existingNote,
      noteId <> [] ->
      list_find (fun n => id n = noteId) (notes (notesState w)) = Some (i, existingNote) ->
      exists w',
        updateNoteById env noteId updates w
        = (Return (updateNote env existingNote updates), w')
        /\ notes (notesState w') = notes (notesState w)
        /\ asyncStorage w' = asyncStorage w
        /\ error (notesState w') = Some "Failed to save notes"%string).
Proof.
  intros Hf. split.
  - intros noteInput. unfold addNote. io_unfold.
    change (id (createNote env noteInput)) with (generateId env).
    rewrite generateId_nonempty. cbn beta iota.
    rewrite (saveNotes_write_rejects _ w reason rest Hf).
    eexists. split; [reflexivity|]. now destruct w.
  - intros noteId updates i existingNote Hne Hfind.
    unfold updateNoteById, findIndex. io_unfold.
    apply falsy_false in Hne. rewrite Hne. cbn beta iota.
    unfold compose. rewrite Hfind. cbn [fmap option_fmap option_map fst].
    apply list_find_Some in Hfind as (Hlook & Hid & _).
    rewrite Hlook. cbn [id updateNote]. rewrite Hid, Hne.
    rewrite bool_decide_eq_true_2 by reflexivity. cbn [negb orb].
    rewrite (saveNotes_write_rejects _ w reason rest Hf).
    eexists. split; [reflexivity|]. now destruct w.
Qed.

(** What [loadNotesFromStorage] returns when the load cannot succeed. *)
Lemma loadNotesFromStorage_fails w :
  load_fails w ->
  exists w', loadNotesFromStorage w = (Return [], w')
             /\ asyncStorage w' = asyncStorage w
             /\ notesState w' = notesState w.
Proof.
  intros [(reason & rest & Hf) | (Hq & text & Hget & Hne & Hthrows)];
    unfold loadNotesFromStorage, AsyncStorage_getItem; io_unfold.
  - rewrite (platform_call_rejects _ w reason rest Hf).
    eexists. split; [reflexivity|]. now destruct w.
  - rewrite (proj1 (platform_call_quiet _ 0 w Hq)).
    replace (asyncStorage (advance w) !! NOTES_STORAGE_KEY) with (Some text)
      by (rewrite <- Hget; now destruct w).
    apply falsy_false in Hne. rewrite Hne.
    unfold decode_throws in Hthrows. unfold map_revive.
    destruct (JSON_parse text) as [[| | | |items|]|]; io_unfold;
      try (eexists; split; [reflexivity|]; now destruct w).
    rewrite Hthrows.
    eexists. split; [reflexivity|]. now destruct w.
Qed.

(** C2. When the adapter read rejects or the stored text does not decode,
    [loadNotes] leaves an empty list and does not touch the stored blob,
    but it signals nothing: the [error] field is [null] afterwards. *)
Theorem C2_load_failure_is_not_signalled w :
  load_fails w ->
  exists w',
    loadNotes w = (Return tt, w')
    /\ notes (notesState w') = []
    /\ loading (notesState w') = false
    /\ error (notesState w') = None
    /\ asyncStorage w' = asyncStorage w.
Proof.
  intros Hfail. unfold loadNotes, setState. io_unfold.
  assert (Hfail' : load_fails (with_notesState (set_loading true None) w)).
  { destruct Hfail as [Hf | Hf]; [left | right]; now destruct w. }
  destruct (loadNotesFromStorage_fails _ Hfail') as (w1 & -> & Hs & Hn).
  eexists. split; [reflexivity|].
  destruct w1, w. cbn in *. subst. auto.
Qed.

(** [addNote] when the write goes through: the new note is put in front of
    the collection and the collection is stored. *)
Lemma addNote_succeeds env noteInput w :
  quiet 1 w = true ->
  let n := createNote env noteInput in
  let ns := n :: notes (notesState w) in
  addNote env noteInput w
  = (Return n,
     with_notesState (set_notes_saved ns)
       (with_asyncStorage (insert NOTES_STORAGE_KEY (JSON_stringify ns)) (advance w))).
Proof.
  intros Hq n ns. unfold addNote. io_unfold.
  change (id (createNote env noteInput)) with (generateId env).
  rewrite generateId_nonempty. cbn beta iota.
  now rewrite (saveNotes_write_succeeds _ w Hq).
Qed.

(** The next platform call goes through, or the script rejects it. *)
Lemma quiet_or_rejects w :
  quiet 1 w = true \/ exists reason rest, faults w = Some reason :: rest.
Proof.
  unfold quiet. destruct (faults w) as [|[reason|] rest]; [left | right | left]; eauto.
Qed.

(** [addNote] returns the note [createNote] builds, whether or not the
    write goes through. *)
Lemma addNote_returns env noteInput w :
  exists w', addNote env noteInput w = (Return (createNote env noteInput), w').
Proof.
  destruct (quiet_or_rejects w) as [Hq | (reason & rest & Hf)].
  - eexists. exact (addNote_succeeds env noteInput w Hq).
  - unfold addNote. io_unfold.
    change (id (createNote env noteInput)) with (generateId env).
    rewrite generateId_nonempty. cbn beta iota.
    rewrite (saveNotes_write_rejects _ w reason rest Hf). eexists. reflexivity.
Qed.

(** A sequence of creates returns the notes [createNote] builds, one for
    each call, whatever the writes do. *)
Lemma createAll_returns calls : forall w,
  exists w',
    Samples.createAll calls w = (Return (map (fun c => createNote c.1 c.2) calls), w').
Proof.
  induction calls as [|[env noteInput] calls IH]; intros w.
  - exists w. reflexivity.
  - cbn [Samples.createAll]. io_unfold.
    destruct (addNote_returns env noteInput w) as (w1 & ->).
    destruct (IH w1) as (w' & ->). exists w'. reflexivity.
Qed.

(** C5. The id of a created note is the decimal clock reading followed by
    the random suffix; the live collection is not consulted. After any
    sequence of creates, whatever their writes did, a create that reads
    the clock value and draws the suffix of an earlier one returns a note
    with the id of a note created before, against the claim. The rest of
    the claim holds: the content of the note is the input's, its title is
    not empty, its two timestamps are equal, and when its write goes
    through [getNoteById] finds it under its id. *)
Theorem C5_same_reading_and_draw_same_id calls env noteInput w prior :
  prior ∈ calls ->
  Date_now prior.1 = Date_now env ->
  random36 prior.1 = random36 env ->
  exists created w1 n w2,
    Samples.createAll calls w = (Return created, w1)
    /\ addNote env noteInput w1 = (Return n, w2)
    /\ (exists m, m ∈ created /\ id m = id n)
    /\ content n = input_content noteInput
    /\ title n <> []
    /\ createdAt n = updatedAt n
    /\ (quiet 1 w1 = true -> getNoteById (notesState w2) (id n) = Some n).
Proof.
  intros Hprior Hclock Hdraw.
  destruct (createAll_returns calls w) as (w1 & Hrun).
  destruct (addNote_returns env noteInput w1) as (w2 & Hadd).
  exists (map (fun c => createNote c.1 c.2) calls), w1, (createNote env noteInput), w2.
  split; [exact Hrun|]. split; [exact Hadd|].
  split; [|split; [|split; [|split]]].
  - exists (createNote prior.1 prior.2). split.
    + apply list_elem_of_fmap. exists prior. split; [reflexivity | exact Hprior].
    + cbn [id createNote]. unfold generateId. now rewrite Hclock, Hdraw.
  - cbn. apply or_empty_id.
  - apply createNote_title_nonempty.
  - reflexivity.
  - intros Hq. rewrite (addNote_succeeds env noteInput w1 Hq) in Hadd.
    injection Hadd as <-. unfold getNoteById. cbn.
    now rewrite decide_True by reflexivity.
Qed.

(** C7, as amended. For an id that no live note has, [updateNoteById]
    throws ["Note not found"], or ["Invalid note ID"] when the id is the
    empty string. Either way no note is added, removed or modified and
    nothing is written: no platform call is made. The hook records the
    failure in its [error] field. *)
Theorem C7_update_absent_id env noteId updates w :
  Forall (fun n => id n <> noteId) (notes (notesState w)) ->
  let message : string :=
    if falsy noteId then "Invalid note ID" else "Note not found" in
  exists w',
    updateNoteById env noteId updates w = (Throw (Error message), w')
    /\ notes (notesState w') = notes (notesState w)
    /\ asyncStorage w' = asyncStorage w
    /\ faults w' = faults w
    /\ error (notesState w') = Some ("Failed to update note: " +:+ message).
Proof.
  intros Habsent message. subst message.
  unfold updateNoteById, findIndex, setState. io_unfold.
  destruct (falsy noteId).
  - eexists. split; [reflexivity|]. now destruct w.
  - unfold compose.
    rewrite (proj2 (list_find_None _ _) Habsent). cbn.
    eexists. split; [reflexivity|]. now destruct w.
Qed.

End WithCodec.

End HookFacts.

Module CodecFacts.
Import Js JsDate Runtime NoteUtils UseNotes CodecLaw CodecSpec.
Import JsFacts TitleFacts RuntimeFacts NoteFacts.

Section WithCodec.
Context `{Codec}.

Lemma revive_Note_toJSON n :
  timestamps_round_trip n -> revive (Note_toJSON n) = Some n.
Proof.
  intros [(tc & Hc & Hpc) (tu & Hu & Hpu)]. destruct n as [i t c ca ua].
  cbn in Hc, Hu. subst ca ua.
  unfold revive, Note_toJSON, string_field.
  rewrite option_guard_True by (vm_compute; reflexivity).
  cbn [obj_get Date_toJSON mbind option_bind].
  repeat match goal with
         | |- context [bool_decide (lit ?a = lit ?b)] =>
             let r := eval vm_compute in (bool_decide (lit a = lit b)) in
             change (bool_decide (lit a = lit b)) with r
         end.
  cbn. now rewrite Hpc, Hpu.
Qed.

Lemma revive_all_toJSON ns :
  Forall timestamps_round_trip ns -> revive_all (map Note_toJSON ns) = Some ns.
Proof.
  induction 1 as [|n ns Hn _ IH]; [reflexivity|].
  cbn [map revive_all]. rewrite (revive_Note_toJSON n Hn), IH. reflexivity.
Qed.

Lemma toJSON_no_null ns : existsb is_null (map Note_toJSON ns) = false.
Proof. induction ns as [|n ns IH]; [reflexivity | exact IH]. Qed.

(** The blob [saveNotesToStorage] wrote is decoded to the collection, when
    the platform reads back the JSON text and the ISO strings it wrote for
    it. *)
Lemma save_then_load_decodes ns w :
  quiet 2 w = true ->
  text_round_trips (JArr (map Note_toJSON ns)) ->
  Forall timestamps_round_trip ns ->
  exists w1 w2,
    saveNotesToStorage ns w = (Return tt, w1)
    /\ loadNotesFromStorage w1 = (Return ns, w2).
Proof.
  intros Hq [Hne Hparse] Hdates.
  destruct (platform_call_quiet
              (modify (with_asyncStorage (insert NOTES_STORAGE_KEY (JSON_stringify ns))))
              1 w Hq) as [Hsave Hq1].
  unfold saveNotesToStorage, AsyncStorage_setItem. io_unfold. rewrite Hsave.
  eexists. eexists. split; [reflexivity|].
  unfold loadNotesFromStorage, AsyncStorage_getItem. io_unfold.
  set (w1 := with_asyncStorage _ (advance w)).
  assert (Hq1' : quiet 1 w1 = true) by (revert Hq1; now destruct w).
  rewrite (proj1 (platform_call_quiet _ 0 w1 Hq1')).
  replace (asyncStorage (advance w1) !! NOTES_STORAGE_KEY)
    with (Some (JSON_stringify ns)).
  2:{ destruct w. cbn. now rewrite lookup_insert_eq. }
  unfold JSON_stringify in *. apply falsy_false in Hne. rewrite Hne, Hparse.
  unfold map_revive. rewrite toJSON_no_null, (revive_all_toJSON ns Hdates).
  reflexivity.
Qed.

(** What [JSON.stringify] is given for a collection is a plain value. *)
Lemma toJSON_plain ns : plain (JArr (map Note_toJSON ns)) = true.
Proof.
  cbn [plain]. induction ns as [|n ns IH]; [reflexivity|].
  cbn [map forallb]. rewrite IH, andb_true_r.
  unfold Note_toJSON. cbn [plain map fst snd forallb].
  match goal with
  | |- context [bool_decide ?P] =>
      replace (bool_decide P) with true by (vm_compute; reflexivity)
  end.
  destruct (createdAt n), (updatedAt n); reflexivity.
Qed.

Lemma lawful_timestamps ns :
  lawful -> Forall has_instants ns -> Forall timestamps_round_trip ns.
Proof.
  intros [_ Hdate] Hall. eapply Forall_impl; [exact Hall|]. cbv beta.
  intros n [(tc & Hc & Hrc) (tu & Hu & Hru)].
  split; eexists; (split; [eassumption | now apply Hdate]).
Qed.

Lemma createNote_has_instants env noteInput :
  Z.abs (new_Date env) <= maxTime -> has_instants (createNote env noteInput).
Proof. intros Hclock. split; exists (new_Date env); split; auto. Qed.

Lemma updateNote_has_instants env existingNote updates :
  Z.abs (new_Date env) <= maxTime -> has_instants existingNote ->
  has_instants (updateNote env existingNote updates).
Proof.
  intros Hclock [Hcreated _]. split; [exact Hcreated|].
  exists (new_Date env). split; auto.
Qed.

(** C6. For every collection of notes, the empty collection included,
    what [loadNotesFromStorage] decodes from the blob [saveNotesToStorage]
    wrote is the collection itself: ids, titles, contents and both
    timestamps. The timestamps of a note are instants; the platform is
    lawful, and lets the write and the read through. *)
Theorem C6_save_then_load_roundtrip ns w :
  lawful -> Forall has_instants ns ->
  quiet 2 w = true ->
  exists w1 w2,
    saveNotesToStorage ns w = (Return tt, w1)
    /\ loadNotesFromStorage w1 = (Return ns, w2).
Proof.
  intros Hlaw Hns Hq. apply save_then_load_decodes.
  - exact Hq.
  - apply (proj1 Hlaw), toJSON_plain.
  - now apply lawful_timestamps.
Qed.

End WithCodec.

End CodecFacts.

(* ===================================================================== *)
(** ** Facts about the reference codec *)
(* ===================================================================== *)

Module ReferenceFacts.
Import Js JsDate Runtime Reference CodecLaw Reader CodecSpec.
Import JsFacts DateFacts.

(** *** Strings *)

Lemma hex_value_hex_digit d : (d < 16)%N -> hex_value (hex_digit d) = Some d.
Proof.
  intros Hd.
  assert (Hcases : (d = 0 \/ d = 1 \/ d = 2 \/ d = 3 \/ d = 4 \/ d = 5 \/ d = 6 \/ d = 7
                    \/ d = 8 \/ d = 9 \/ d = 10 \/ d = 11 \/ d = 12 \/ d = 13 \/ d = 14
                    \/ d = 15)%N) by lia.
  repeat (destruct Hcases as [-> | Hcases]; [reflexivity|]). now subst.
Qed.

(** The four hexadecimal digits of a code unit denote it. *)
Lemma read_hex4_unicode_escape c rest :
  (c < 65536)%N -> read_hex4 (drop 2 (unicode_escape c) ++ rest) = Some (c, rest).
Proof.
  intros Hc. unfold unicode_escape. cbn [lit drop app list_ascii_of_string map].
  unfold read_hex4.
  rewrite !hex_value_hex_digit by (zify; Z.to_euclidean_division_equations; lia).
  cbn. do 2 f_equal. zify. Z.to_euclidean_division_equations. lia.
Qed.

Lemma read_plain fuel c tail :
  (c =? QUOTE)%N = false -> (c <? 32)%N = false -> (c =? BACKSLASH)%N = false ->
  read_string_chars (S fuel) (c :: tail)
  = '(cs, rest) ← read_string_chars fuel tail; Some (c :: cs, rest).
Proof. intros Hq Hc Hb. cbn [read_string_chars]. now rewrite Hq, Hc, Hb. Qed.

Lemma read_unicode_escape fuel c tail :
  (c < 65536)%N ->
  read_string_chars (S fuel) (unicode_escape c ++ tail)
  = '(cs, rest) ← read_string_chars fuel tail; Some (c :: cs, rest).
Proof.
  intros Hc. pose proof (read_hex4_unicode_escape c tail Hc) as Hhex.
  unfold unicode_escape in *. cbn [lit drop app list_ascii_of_string map] in *.
  cbn [read_string_chars]. change (N_of_ascii "\") with 92%N.
  change (N_of_ascii "u") with 117%N. cbn [N.eqb N.ltb N.compare Pos.eqb Pos.compare Pos.compare_cont QUOTE BACKSLASH].
  cbv iota. rewrite Hhex. reflexivity.
Qed.

Lemma length_unicode_escape c : length (unicode_escape c) = 6%nat.
Proof. reflexivity. Qed.

(** What [quote_chars] writes is read back; [n] bounds the length of the
    string, because a surrogate pair is written in one step. *)
Lemma read_string_quote_chars n : forall s rest fuel,
  (length s <= n)%nat -> (length (quote_chars s) < fuel)%nat ->
  read_string_chars fuel (quote_chars s ++ QUOTE :: rest) = Some (s, rest).
Proof.
  induction n as [|n IH]; intros s rest fuel Hn Hfuel.
  - destruct s; [|cbn in Hn; lia]. destruct fuel; [cbn in Hfuel; lia|]. reflexivity.
  - destruct s as [|c r]; [destruct fuel; [cbn in Hfuel; lia|]; reflexivity|].
    cbn [length] in Hn. destruct fuel as [|fuel]; [lia|].
    revert Hfuel. cbn [quote_chars].
    destruct (N.eqb_spec c 8) as [->|H8].
    { intros Hfuel. cbn. rewrite IH; [reflexivity | lia | cbn in Hfuel; lia]. }
    destruct (N.eqb_spec c 9) as [->|H9].
    { intros Hfuel. cbn. rewrite IH; [reflexivity | lia | cbn in Hfuel; lia]. }
    destruct (N.eqb_spec c 10) as [->|H10].
    { intros Hfuel. cbn. rewrite IH; [reflexivity | lia | cbn in Hfuel; lia]. }
    destruct (N.eqb_spec c 12) as [->|H12].
    { intros Hfuel. cbn. rewrite IH; [reflexivity | lia | cbn in Hfuel; lia]. }
    destruct (N.eqb_spec c 13) as [->|H13].
    { intros Hfuel. cbn. rewrite IH; [reflexivity | lia | cbn in Hfuel; lia]. }
    destruct (N.eqb_spec c QUOTE) as [->|Hq].
    { intros Hfuel. cbn. rewrite IH; [reflexivity | lia | cbn in Hfuel; lia]. }
    destruct (N.eqb_spec c BACKSLASH) as [->|Hb].
    { intros Hfuel. cbn. rewrite IH; [reflexivity | lia | cbn in Hfuel; lia]. }
    apply N.eqb_neq in Hq, Hb.
    destruct (N.ltb_spec c 32) as [Hlow|Hhigh].
    { intros Hfuel. rewrite <- app_assoc, read_unicode_escape by lia.
      rewrite IH; [reflexivity | lia |].
      rewrite length_app, length_unicode_escape in Hfuel. lia. }
    apply N.ltb_ge in Hhigh.
    unfold is_high_surrogate, is_low_surrogate.
    destruct ((55296 <=? c) && (c <=? 56319))%N eqn:Hhs.
    { apply andb_true_iff in Hhs as [Hh1 Hh2].
      apply N.leb_le in Hh1, Hh2.
      destruct r as [|c2 r2].
      - intros Hfuel. rewrite read_unicode_escape by lia.
        destruct fuel; [rewrite length_unicode_escape in Hfuel; lia|]. reflexivity.
      - destruct ((56320 <=? c2) && (c2 <=? 57343))%N eqn:Hls.
        + apply andb_true_iff in Hls as [Hl1 Hl2]. apply N.leb_le in Hl1, Hl2.
          intros Hfuel. cbn [app length] in *.
          rewrite read_plain by (try apply N.eqb_neq; try apply N.ltb_ge; unfold QUOTE, BACKSLASH; lia).
          destruct fuel as [|fuel]; [lia|].
          rewrite read_plain by (try apply N.eqb_neq; try apply N.ltb_ge; unfold QUOTE, BACKSLASH; lia).
          rewrite IH; [reflexivity | lia | lia].
        + intros Hfuel. rewrite <- app_assoc, read_unicode_escape by lia.
          rewrite IH; [reflexivity | cbn [length] in *; lia |].
          rewrite length_app, length_unicode_escape in Hfuel. lia. }
    destruct ((56320 <=? c) && (c <=? 57343))%N eqn:Hls.
    { apply andb_true_iff in Hls as [Hl1 Hl2]. apply N.leb_le in Hl1, Hl2.
      intros Hfuel. rewrite <- app_assoc, read_unicode_escape by lia.
      rewrite IH; [reflexivity | lia |].
      rewrite length_app, length_unicode_escape in Hfuel. lia. }
    intros Hfuel. cbn [app length] in *.
    rewrite read_plain by (try assumption; now apply N.ltb_ge).
    rewrite IH; [reflexivity | lia | lia].
Qed.

(** A string in quotes is read back as the string. *)
Lemma read_quote s rest :
  read_string_chars (S (length (quote_chars s ++ QUOTE :: rest)))
    (quote_chars s ++ QUOTE :: rest)
  = Some (s, rest).
Proof.
  apply (read_string_quote_chars (length s)); [lia|].
  rewrite length_app. cbn. lia.
Qed.

(** *** Values *)

Lemma json_induction (P : json -> Prop) :
  P JNull -> (forall b, P (JBool b)) -> (forall z, P (JNum z)) -> (forall s, P (JStr s)) ->
  (forall items, Forall P items -> P (JArr items)) ->
  (forall props, Forall (fun kv => P (snd kv)) props -> P (JObj props)) ->
  forall j, P j.
Proof.
  intros Hnull Hbool Hnum Hstr Harr Hobj.
  fix IH 1. intros [|b|z|s|items|props].
  - exact Hnull.
  - apply Hbool.
  - apply Hnum.
  - apply Hstr.
  - apply Harr. induction items as [|v vs IHvs]; constructor; [apply IH | exact IHvs].
  - apply Hobj. induction props as [|[k v] kvs IHkvs]; constructor; [apply IH | exact IHkvs].
Qed.

(** One step of [read_value]. *)
Lemma read_value_step fuel s :
  read_value (S fuel) s
  = match skip_ws s with
    | [] => None
    | c :: r =>
        if (c =? QUOTE)%N then
          '(cs, rest) ← read_string_chars (S (length r)) r; Some (JStr cs, rest)
        else if (c =? 91)%N then
          match skip_ws r with
          | c' :: r' =>
              if (c' =? 93)%N then Some (JArr [], r')
              else '(vs, rest) ← read_items_with (read_value fuel) (S (length r)) r;
                   Some (JArr vs, rest)
          | [] => None
          end
        else if (c =? 123)%N then
          match skip_ws r with
          | c' :: r' =>
              if (c' =? 125)%N then Some (JObj [], r')
              else '(kvs, rest) ← read_props_with (read_value fuel) (S (length r)) r;
                   Some (JObj kvs, rest)
          | [] => None
          end
        else if (c =? 110)%N then read_keyword (lit "null") JNull (c :: r)
        else if (c =? 116)%N then read_keyword (lit "true") (JBool true) (c :: r)
        else if (c =? 102)%N then read_keyword (lit "false") (JBool false) (c :: r)
        else read_number (c :: r)
    end.
Proof. reflexivity. Qed.

Lemma join_comma_two p q ps :
  join_comma (p :: q :: ps) = p ++ 44%N :: join_comma (q :: ps).
Proof. reflexivity. Qed.

Lemma join_comma_two_app p q ps tail :
  join_comma (p :: q :: ps) ++ tail = p ++ 44%N :: join_comma (q :: ps) ++ tail.
Proof. now rewrite join_comma_two, <- app_assoc. Qed.

Lemma join_comma_one p : join_comma [p] = p.
Proof. apply app_nil_r. Qed.

Lemma length_join_comma ps : (length ps <= S (length (join_comma ps)))%nat.
Proof.
  destruct ps as [|p ps]; [cbn; lia|]. revert p.
  induction ps as [|q ps IH]; intros p; [cbn; lia|].
  rewrite join_comma_two, length_app. specialize (IH q). cbn [length] in *. lia.
Qed.

Lemma length_join_comma_elem p ps :
  p ∈ ps -> (length p <= length (join_comma ps))%nat.
Proof.
  destruct ps as [|q ps]; [intros Hin; inversion Hin|]. revert q.
  induction ps as [|q' ps IH]; intros q Hin.
  - apply list_elem_of_singleton in Hin as ->. now rewrite join_comma_one.
  - rewrite join_comma_two, length_app. cbn [length].
    apply elem_of_cons in Hin as [->|Hin]; [lia|]. specialize (IH q' Hin). lia.
Qed.

Section Loops.
Variable read : jstring -> option (json * jstring).

Lemma read_items_with_written : forall vs v n rest,
  Forall (reads_back read) (v :: vs) -> (length vs < n)%nat ->
  read_items_with read n (join_comma (map write_json (v :: vs)) ++ 93%N :: rest)
  = Some (v :: vs, rest).
Proof.
  induction vs as [|v' vs IH]; intros v n rest Hall Hn;
    (destruct n as [|n]; [lia|]); apply Forall_cons in Hall as [Hv Hall].
  - cbn [map]. rewrite join_comma_one. cbn [read_items_with].
    rewrite (Hv (93%N :: rest)). reflexivity.
  - cbn [map]. rewrite join_comma_two_app. cbn [read_items_with].
    rewrite (Hv (44%N :: join_comma (write_json v' :: map write_json vs) ++ 93%N :: rest)).
    cbn [app mbind option_bind skip_ws dropWhile is_json_ws].
    change (read_items_with read n
              (join_comma (map write_json (v' :: vs)) ++ 93%N :: rest)
            ≫= (fun '(vs0, rest0) => Some (v :: vs0, rest0))
            = Some (v :: v' :: vs, rest)).
    rewrite IH; [reflexivity | assumption | cbn [length] in Hn; lia].
Qed.

Lemma prop_text_eq kv tail :
  prop_text kv ++ tail
  = QUOTE :: quote_chars (fst kv) ++ QUOTE :: 58%N :: write_json (snd kv) ++ tail.
Proof.
  unfold prop_text, quote. change (lit ":") with [58%N].
  cbn [app]. now rewrite <- !app_assoc.
Qed.

Lemma read_props_with_written : forall kvs kv n rest,
  Forall (fun kv => reads_back read (snd kv)) (kv :: kvs) -> (length kvs < n)%nat ->
  read_props_with read n (join_comma (map prop_text (kv :: kvs)) ++ 125%N :: rest)
  = Some (kv :: kvs, rest).
Proof.
  induction kvs as [|kv' kvs IH]; intros [k v] n rest Hall Hn;
    (destruct n as [|n]; [lia|]); apply Forall_cons in Hall as [Hv Hall]; cbn [snd] in Hv.
  - cbn [map]. rewrite join_comma_one, prop_text_eq. cbn [fst snd].
    cbn [read_props_with skip_ws dropWhile is_json_ws QUOTE N.eqb Pos.eqb orb].
    rewrite read_quote. cbn [mbind option_bind skip_ws dropWhile is_json_ws N.eqb Pos.eqb orb].
    rewrite (Hv (125%N :: rest)). reflexivity.
  - cbn [map]. rewrite join_comma_two_app, prop_text_eq. cbn [fst snd].
    cbn [read_props_with skip_ws dropWhile is_json_ws QUOTE N.eqb Pos.eqb orb].
    rewrite read_quote. cbn [mbind option_bind skip_ws dropWhile is_json_ws N.eqb Pos.eqb orb].
    rewrite (Hv (44%N :: join_comma (prop_text kv' :: map prop_text kvs) ++ 125%N :: rest)).
    cbn [app mbind option_bind skip_ws dropWhile is_json_ws N.eqb Pos.eqb orb].
    change (read_props_with read n
              (join_comma (map prop_text (kv' :: kvs)) ++ 125%N :: rest)
            ≫= (fun '(kvs0, rest0) => Some ((k, v) :: kvs0, rest0))
            = Some ((k, v) :: kv' :: kvs, rest)).
    rewrite IH; [reflexivity | assumption | cbn [length] in Hn; lia].
Qed.

End Loops.

Lemma skip_ws_head c r : is_json_ws c = false -> skip_ws (c :: r) = c :: r.
Proof. intros Hc. unfold skip_ws. cbn [dropWhile]. now rewrite Hc. Qed.

Lemma read_keyword_written kw v rest : read_keyword kw v (kw ++ rest) = Some (v, rest).
Proof.
  unfold read_keyword.
  rewrite take_app_length, drop_app_length, bool_decide_eq_true_2; reflexivity.
Qed.

(** What is written for a value starts with a character that is neither
    white space nor a closing bracket. *)
Lemma written_head v tail :
  number_free v = true ->
  exists c t, skip_ws (write_json v ++ tail) = c :: t /\ (c =? 93)%N = false.
Proof.
  destruct v as [|[|]|z|s|items|props]; intros Hfree; try discriminate;
    do 2 eexists; split; try reflexivity; reflexivity.
Qed.

Lemma join_comma_head p ps tail :
  exists tail', join_comma (p :: ps) ++ tail = p ++ tail'.
Proof.
  destruct ps as [|q ps]; [rewrite join_comma_one | rewrite join_comma_two_app]; eauto.
Qed.

Lemma write_json_JStr s rest :
  write_json (JStr s) ++ rest = QUOTE :: quote_chars s ++ QUOTE :: rest.
Proof. cbn [write_json]. unfold quote. cbn [app]. now rewrite <- app_assoc. Qed.

Lemma write_json_JArr items rest :
  write_json (JArr items) ++ rest
  = 91%N :: join_comma (map write_json items) ++ 93%N :: rest.
Proof.
  cbn [write_json]. change (lit "[") with [91%N]. change (lit "]") with [93%N].
  cbn [app]. now rewrite <- app_assoc.
Qed.

Lemma write_json_JObj props rest :
  write_json (JObj props) ++ rest
  = 123%N :: join_comma (map prop_text props) ++ 125%N :: rest.
Proof.
  cbn [write_json]. change (lit "{") with [123%N]. change (lit "}") with [125%N].
  cbn [app]. now rewrite <- app_assoc.
Qed.

Lemma length_write_json_JArr items :
  length (write_json (JArr items)) = S (S (length (join_comma (map write_json items)))).
Proof.
  rewrite <- (app_nil_r (write_json _)), write_json_JArr.
  cbn [length]. rewrite length_app. cbn [length]. lia.
Qed.

Lemma length_write_json_JObj props :
  length (write_json (JObj props)) = S (S (length (join_comma (map prop_text props)))).
Proof.
  rewrite <- (app_nil_r (write_json _)), write_json_JObj.
  cbn [length]. rewrite length_app. cbn [length]. lia.
Qed.

(** [read_value] reads back what [write_json] wrote for a value without
    numbers, and leaves what follows it. *)
Lemma read_value_written j :
  number_free j = true ->
  forall fuel rest, (length (write_json j) < fuel)%nat ->
    read_value fuel (write_json j ++ rest) = Some (j, rest).
Proof.
  induction j as [|b|z|s|items IH|props IH] using json_induction;
    intros Hfree fuel rest Hfuel; (destruct fuel as [|fuel]; [lia|]);
    rewrite read_value_step.
  - exact (read_keyword_written (lit "null") JNull rest).
  - destruct b.
    + exact (read_keyword_written (lit "true") (JBool true) rest).
    + exact (read_keyword_written (lit "false") (JBool false) rest).
  - discriminate.
  - rewrite write_json_JStr.
    cbn [skip_ws dropWhile is_json_ws QUOTE N.eqb Pos.eqb orb].
    rewrite read_quote. reflexivity.
  - rewrite write_json_JArr, skip_ws_head by reflexivity.
    cbn [QUOTE N.eqb Pos.eqb].
    destruct items as [|v vs]; [reflexivity|].
    assert (Hhead : exists c t,
               skip_ws (join_comma (map write_json (v :: vs)) ++ 93%N :: rest) = c :: t
               /\ (c =? 93)%N = false).
    { destruct (join_comma_head (write_json v) (map write_json vs) (93%N :: rest))
        as [tail' Htail].
      cbn [map]. rewrite Htail. apply written_head.
      cbn [number_free forallb] in Hfree. now apply andb_true_iff in Hfree. }
    destruct Hhead as (c & t & Hskip & Hc). rewrite Hskip, Hc.
    rewrite read_items_with_written; [reflexivity | |].
    + rewrite length_write_json_JArr in Hfuel.
      cbn [number_free] in Hfree. rewrite forallb_forall in Hfree.
      rewrite Forall_forall in IH |- *. intros x Hx rest'.
      apply IH; [assumption | apply Hfree, list_elem_of_In, Hx |].
      pose proof (length_join_comma_elem (write_json x) (map write_json (v :: vs))
                    (list_elem_of_fmap_2 _ _ _ Hx)). lia.
    + pose proof (length_join_comma (map write_json (v :: vs))) as Hlen.
      rewrite length_map in Hlen. rewrite length_app. cbn [length] in *. lia.
  - rewrite write_json_JObj, skip_ws_head by reflexivity.
    cbn [QUOTE N.eqb Pos.eqb].
    destruct props as [|kv kvs]; [reflexivity|].
    assert (Hhead : exists t,
               skip_ws (join_comma (map prop_text (kv :: kvs)) ++ 125%N :: rest)
               = QUOTE :: t).
    { destruct (join_comma_head (prop_text kv) (map prop_text kvs) (125%N :: rest))
        as [tail' Htail].
      cbn [map]. rewrite Htail, prop_text_eq. eexists. reflexivity. }
    destruct Hhead as (t & Hskip). rewrite Hskip. cbn [QUOTE N.eqb Pos.eqb].
    rewrite read_props_with_written; [reflexivity | |].
    + rewrite length_write_json_JObj in Hfuel.
      cbn [number_free] in Hfree. rewrite forallb_forall in Hfree.
      rewrite Forall_forall in IH |- *. intros x Hx rest'.
      apply IH; [assumption | apply (Hfree x), list_elem_of_In, Hx |].
      pose proof (length_join_comma_elem (prop_text x) (map prop_text (kv :: kvs))
                    (list_elem_of_fmap_2 _ _ _ Hx)) as Hlen.
      unfold prop_text at 1 in Hlen. rewrite !length_app in Hlen. lia.
    + pose proof (length_join_comma (map prop_text (kv :: kvs))) as Hlen.
      rewrite length_map in Hlen. rewrite length_app. cbn [length] in *. lia.
Qed.

Lemma write_json_nonempty j : number_free j = true -> write_json j <> [].
Proof. destruct j as [|[|]|z|s|items|props]; intros Hfree; discriminate. Qed.

(** [JSON.parse] of the reference codec reads back what its
    [JSON.stringify] wrote for a value without numbers. *)
Lemma read_json_write_json j : number_free j = true -> read_json (write_json j) = Some j.
Proof.
  intros Hfree. unfold read_json.
  rewrite <- (app_nil_r (write_json j)) at 2.
  rewrite read_value_written; [reflexivity | assumption | lia].
Qed.

(** *** Instants *)

Lemma digits_value_snoc ds c :
  digits_value (ds ++ [c]) = digits_value ds * 10 + Z.of_N (c - 48).
Proof. unfold digits_value. now rewrite fold_left_app. Qed.

Lemma pad_digits_length w : forall n, length (pad_digits w n) = w.
Proof.
  induction w as [|w IH]; intros n; [reflexivity|].
  cbn [pad_digits]. rewrite length_app, IH. cbn [length]. lia.
Qed.

Lemma pad_digits_digits w : forall n, forallb is_digit (pad_digits w n) = true.
Proof.
  induction w as [|w IH]; intros n; [reflexivity|].
  cbn [pad_digits]. rewrite forallb_app, IH. cbn [forallb].
  unfold is_digit. pose proof (Z.mod_pos_bound n 10 ltac:(lia)) as Hd.
  rewrite !andb_true_iff, !N.leb_le. lia.
Qed.

Lemma pad_digits_value w : forall n,
  0 <= n < 10 ^ Z.of_nat w -> digits_value (pad_digits w n) = n.
Proof.
  induction w as [|w IH]; intros n Hn.
  - change (10 ^ Z.of_nat 0) with 1 in Hn. cbn. lia.
  - rewrite Nat2Z.inj_succ, Z.pow_succ_r in Hn by lia.
    cbn [pad_digits]. rewrite digits_value_snoc, IH.
    + pose proof (Z.mod_pos_bound n 10 ltac:(lia)) as Hd.
      pose proof (Z.div_mod n 10 ltac:(lia)) as Hdm. lia.
    + Z.div_mod_to_equations. lia.
Qed.

(** A zero-padded number is read back. *)
Lemma read_digits_pad w n rest :
  0 <= n < 10 ^ Z.of_nat w ->
  read_digits w (pad_digits w n ++ rest) = Some (n, rest).
Proof.
  intros Hn. unfold read_digits. cbv zeta.
  rewrite take_app_length', drop_app_length' by (symmetry; apply pad_digits_length).
  now rewrite pad_digits_length, Nat.eqb_refl, pad_digits_digits, pad_digits_value.
Qed.

Lemma expect_written c r : expect c (c :: r) = Some r.
Proof. unfold expect. now rewrite N.eqb_refl. Qed.

Lemma InLeapYear_cases t : InLeapYear t = 0 \/ InLeapYear t = 1.
Proof. unfold InLeapYear. destruct (_ =? _); auto. Qed.

Lemma DateFromTime_range t : 1 <= DateFromTime t <= 31.
Proof.
  pose proof (DayWithinYear_range t) as Hd.
  unfold DateFromTime, MonthFromTime. cbv zeta.
  destruct (InLeapYear_cases t) as [E | E]; rewrite E in *;
    repeat match goal with
           | |- context [if ?a <? ?b then _ else _] => destruct (Z.ltb_spec a b)
           end; cbn [daysBeforeMonth]; lia.
Qed.

(** The years of the instants a [Date] can hold take at most six digits. *)
Lemma YearFromTime_range t :
  Z.abs t <= maxTime -> - 1000000 < YearFromTime t < 1000000.
Proof.
  intros Ht. unfold YearFromTime, YearFromDay, Day, msPerDay, maxTime in *. cbv zeta.
  repeat match goal with |- context [if ?b then _ else _] => destruct b end;
    Z.div_mod_to_equations; lia.
Qed.

(** The year of an ISO string: four digits, or a sign and six digits. *)
Lemma read_year_written y rest s :
  - 1000000 < y < 1000000 ->
  s = (if (0 <=? y) && (y <=? 9999) then pad_digits 4 y
       else (if y <? 0 then [45%N] else [43%N]) ++ pad_digits 6 (Z.abs y)) ++ rest ->
  match s with
  | c :: r =>
      if (c =? 43)%N then read_digits 6 r
      else if (c =? 45)%N then '(v, r') ← read_digits 6 r; Some (- v, r')
      else read_digits 4 s
  | [] => None
  end = Some (y, rest).
Proof.
  intros Hy ->.
  destruct (Z.leb_spec 0 y) as [H0|H0]; [destruct (Z.leb_spec y 9999) as [H9|H9]|];
    cbn [andb].
  - pose proof (read_digits_pad 4 y rest ltac:(change (10 ^ Z.of_nat 4) with 10000; lia))
      as Hread.
    pose proof (pad_digits_digits 4 y) as Hdigits.
    pose proof (pad_digits_length 4 y) as Hlen.
    destruct (pad_digits 4 y) as [|c r]; [discriminate Hlen|].
    cbn [forallb] in Hdigits. apply andb_true_iff in Hdigits as [Hc _].
    unfold is_digit in Hc. apply andb_true_iff in Hc as [Hc1 Hc2].
    apply N.leb_le in Hc1, Hc2. cbn [app].
    destruct (N.eqb_spec c 43); [lia|]. destruct (N.eqb_spec c 45); [lia|].
    exact Hread.
  - destruct (Z.ltb_spec y 0); [lia|]. cbn [app N.eqb Pos.eqb].
    rewrite read_digits_pad by (change (10 ^ Z.of_nat 6) with 1000000; lia).
    do 2 f_equal. lia.
  - destruct (Z.ltb_spec y 0); [|lia]. cbn [app N.eqb Pos.eqb].
    rewrite read_digits_pad by (change (10 ^ Z.of_nat 6) with 1000000; lia).
    cbn [mbind option_bind]. do 2 f_equal. lia.
Qed.

(** [Date.parse] of the reference codec reads back the ISO string of
    every instant a [Date] can hold. *)
Lemma read_iso_write_iso t : Z.abs t <= maxTime -> read_iso (write_iso t) = Some t.
Proof.
  intros Ht.
  pose proof (YearFromTime_range t Ht) as Hy.
  pose proof (MonthFromTime_range t) as Hmo.
  pose proof (DateFromTime_range t) as Hd.
  pose proof (MakeDay_fields t) as Hday.
  assert (Hms : 0 <= TimeWithinDay t < 86400000)
    by (apply Z.mod_pos_bound; reflexivity).
  assert (Ht' : t = Day t * msPerDay + TimeWithinDay t).
  { unfold Day, TimeWithinDay, msPerDay. Z.div_mod_to_equations. lia. }
  unfold write_iso. cbv zeta.
  generalize dependent (YearFromTime t). intros y Hy.
  generalize dependent (MonthFromTime t). intros mo Hmo.
  generalize dependent (DateFromTime t). intros d Hd Hday.
  generalize dependent (TimeWithinDay t). intros ms Hms Ht'.
  unfold read_iso.
  change (lit "-") with [45%N]. change (lit "+") with [43%N].
  change (lit "T") with [84%N]. change (lit ":") with [58%N].
  change (lit ".") with [46%N]. change (lit "Z") with [90%N].
  rewrite (read_year_written y _ _ Hy eq_refl). cbn [mbind option_bind app].
  rewrite expect_written. cbn [mbind option_bind].
  rewrite read_digits_pad by (change (10 ^ Z.of_nat 2) with 100; lia).
  cbn [mbind option_bind]. rewrite expect_written. cbn [mbind option_bind].
  rewrite read_digits_pad by (change (10 ^ Z.of_nat 2) with 100; lia).
  cbn [mbind option_bind]. rewrite expect_written. cbn [mbind option_bind].
  rewrite read_digits_pad
    by (change (10 ^ Z.of_nat 2) with 100; Z.div_mod_to_equations; lia).
  cbn [mbind option_bind]. rewrite expect_written. cbn [mbind option_bind].
  rewrite read_digits_pad
    by (change (10 ^ Z.of_nat 2) with 100; Z.div_mod_to_equations; lia).
  cbn [mbind option_bind]. rewrite expect_written. cbn [mbind option_bind].
  rewrite read_digits_pad
    by (change (10 ^ Z.of_nat 2) with 100; Z.div_mod_to_equations; lia).
  cbn [mbind option_bind]. rewrite expect_written. cbn [mbind option_bind].
  rewrite read_digits_pad
    by (change (10 ^ Z.of_nat 3) with 1000; Z.div_mod_to_equations; lia).
  cbn [mbind option_bind]. rewrite expect_written. cbn [mbind option_bind falsy].
  replace (mo + 1 - 1) with mo by lia. rewrite Hday.
  replace (ms / 3600000 * 3600000 + ms / 60000 mod 60 * 60000
           + ms / 1000 mod 60 * 1000 + ms mod 1000) with ms
    by (Z.div_mod_to_equations; lia).
  unfold MakeDate. rewrite <- Ht'.
  repeat match goal with
         | |- context [?a <=? ?b] =>
             destruct (Z.leb_spec a b); [|Z.div_mod_to_equations; lia]
         end.
  cbn [andb]. unfold TimeClip. destruct (Z.ltb_spec maxTime (Z.abs t)); [lia | reflexivity].
Qed.

(** *** The laws *)

Lemma plain_number_free j : plain j = true -> number_free j = true.
Proof.
  induction j as [|b|z|s|items IH|props IH] using json_induction; intros Hplain;
    try reflexivity; try discriminate.
  - cbn [plain number_free] in *. rewrite forallb_forall in *.
    rewrite Forall_forall in IH. intros x Hx.
    apply IH; [apply list_elem_of_In, Hx | apply Hplain, Hx].
  - cbn [plain number_free] in *. apply andb_true_iff in Hplain as [_ Hplain].
    rewrite forallb_forall in *. rewrite Forall_forall in IH. intros x Hx.
    apply IH; [apply list_elem_of_In, Hx|].
    specialize (Hplain x Hx). now apply andb_true_iff in Hplain.
Qed.

(** The reference codec is lawful. *)
Lemma codec_lawful : @lawful codec.
Proof.
  split.
  - intros j Hplain. apply plain_number_free in Hplain. split.
    + now apply write_json_nonempty.
    + now apply read_json_write_json.
  - exact read_iso_write_iso.
Qed.

End ReferenceFacts.

(* ===================================================================== *)
(** ** Facts about the model service and the gate *)
(* ===================================================================== *)

Module GateFacts.
Import Js Runtime ModelDownload Gate RuntimeFacts.

(** Case analysis on the script of faults and on the tests a call makes. *)
Ltac fault_cases :=
  repeat (cbn;
          match goal with
          | |- context [match ?l with [] => _ | _ :: _ => _ end] =>
              is_var l; destruct l as [|[?|] ?]
          | |- context [if ?b then _ else _] => destruct b eqn:?
          end).

(** The check never throws. *)
Lemma isModelAvailable_returns w : exists b w', isModelAvailable w = (Return b, w').
Proof.
  unfold isModelAvailable, FileSystem_getInfoAsync, FileSystem_deleteAsync,
    AsyncStorage_getItem, AsyncStorage_removeItem, platform_call.
  io_unfold. destruct (unsupported w); [eauto|].
  destruct w as [web fs st file fl tr ns gs].
  fault_cases; eauto.
Qed.

(** The check answers [true] only on a platform with a file system, for a
    file that exists, a version tag that is the current one and a flag
    that is set. *)
Lemma isModelAvailable_true w w' :
  isModelAvailable w = (Return true, w') ->
  unsupported w = false
  /\ modelFileExists w = true
  /\ asyncStorage w !! MODEL_VERSION_KEY = Some CURRENT_MODEL_VERSION
  /\ asyncStorage w !! MODEL_STORAGE_KEY = Some (lit "true").
Proof.
  unfold isModelAvailable, FileSystem_getInfoAsync, FileSystem_deleteAsync,
    AsyncStorage_getItem, AsyncStorage_removeItem, platform_call.
  io_unfold. destruct (unsupported w) eqn:Hu; [discriminate|].
  destruct w as [web fs st file fl tr ns gs].
  fault_cases; try discriminate;
    intros [= Hflag _];
    repeat match goal with
           | Hb : negb _ = false |- _ => apply negb_false_iff in Hb
           | Hb : bool_decide _ = true |- _ => apply bool_decide_eq_true in Hb
           end; cbn in *; subst; auto.
Qed.

(** C8, as amended. A version tag that is not the current one never lets
    the check answer Available: it answers not-available whatever the
    platform calls do. When the check gets to compare the tag (the
    platform has a file system and the asset file exists) and its calls go
    through, it deletes the asset and removes the installed flag and the
    version tag before it answers. *)
Theorem C8_stale_version_tag w :
  asyncStorage w !! MODEL_VERSION_KEY <> Some CURRENT_MODEL_VERSION ->
  (exists w', isModelAvailable w = (Return false, w'))
  /\ (unsupported w = false -> modelFileExists w = true -> quiet 5 w = true ->
      exists w',
        isModelAvailable w = (Return false, w')
        /\ modelFileExists w' = false
        /\ asyncStorage w' !! MODEL_STORAGE_KEY = None
        /\ asyncStorage w' !! MODEL_VERSION_KEY = None).
Proof.
  intros Hstale. split.
  - destruct (isModelAvailable_returns w) as ([|] & w' & Hrun); [|eauto].
    apply isModelAvailable_true in Hrun as (_ & _ & Hv & _). contradiction.
  - intros Hu Hfile Hq.
    unfold isModelAvailable, FileSystem_getInfoAsync, FileSystem_deleteAsync,
      AsyncStorage_getItem, AsyncStorage_removeItem.
    io_unfold. rewrite Hu.
    destruct (platform_call_quiet (fun w0 => (Return (modelFileExists w0), w0)) 4 w Hq)
      as [-> Hq1].
    replace (modelFileExists (advance w)) with true by (rewrite <- Hfile; now destruct w).
    cbn [negb].
    destruct (platform_call_quiet
                (fun w0 => (Return (asyncStorage w0 !! MODEL_VERSION_KEY), w0)) 3 _ Hq1)
      as [-> Hq2].
    replace (asyncStorage (advance (advance w)) !! MODEL_VERSION_KEY)
      with (asyncStorage w !! MODEL_VERSION_KEY) by now destruct w.
    rewrite bool_decide_eq_false_2 by exact Hstale. cbn [negb].
    destruct (platform_call_quiet
                (fun w0 => (Return tt, with_modelFileExists false w0)) 2 _ Hq2)
      as [-> Hq3].
    set (w3 := with_modelFileExists false _) in *.
    assert (Hq3' : quiet 2 w3 = true) by (revert Hq3; now destruct w).
    destruct (platform_call_quiet
                (fun w0 => (Return tt, with_asyncStorage (delete MODEL_STORAGE_KEY) w0)) 1 _ Hq3')
      as [-> Hq4].
    set (w4 := with_asyncStorage _ _) in *.
    assert (Hq4' : quiet 1 w4 = true) by (revert Hq4; subst w3; now destruct w).
    destruct (platform_call_quiet
                (fun w0 => (Return tt, with_asyncStorage (delete MODEL_VERSION_KEY) w0)) 0 _ Hq4')
      as [-> _].
    eexists. split; [reflexivity|]. subst w4 w3. destruct w. cbn.
    split; [reflexivity|]. split.
    + rewrite lookup_delete_ne by discriminate. apply lookup_delete_eq.
    + apply lookup_delete_eq.
Qed.

(** On a platform other than the web whose file-system module did not
    load, the gate ends in Failed and [isModelReady] stays as it was. *)
Lemma gate_fails_without_file_system w :
  platformIsWeb w = false -> fileSystemLoaded w = false ->
  exists w',
    validateAndEnsureModel w = (Return tt, w')
    /\ isModelReady (gateState w') = isModelReady (gateState w)
    /\ isModelDownloading (gateState w') = false
    /\ modelDownloadError (gateState w')
       = Some "Model download not supported on web platform"%string.
Proof.
  intros Hweb Hfs.
  unfold validateAndEnsureModel, isModelAvailable, downloadModel, unsupported, setGate.
  io_unfold. rewrite Hweb, Hfs.
  destruct w; cbn in *; subst. cbn. eexists. split; [reflexivity|]. auto.
Qed.

(** C9, as amended. On the web platform the gate goes straight to
    Available: it sets [isModelReady], makes no platform call and changes
    nothing else, so the rest of the app is not held back there. *)
Theorem C9_gate_on_web w :
  platformIsWeb w = true ->
  validateAndEnsureModel w = (Return tt, with_gateState (setIsModelReady true) w)
  /\ isModelReady (gateState (snd (validateAndEnsureModel w))) = true.
Proof.
  intros Hweb. unfold validateAndEnsureModel, setGate. io_unfold.
  rewrite Hweb. split; reflexivity.
Qed.

End GateFacts.

(* ===================================================================== *)
(** ** Concrete runs *)
(* ===================================================================== *)

Module Cases.
Import Js JsDate Runtime NoteUtils UseNotes ModelDownload Gate Reference Samples.
Import DateSpec CodecSpec.

(** *** Title generation *)

Example title_of_long_first_line :
  generateTitleFromContent
    (lit "  " ++ [LF]
     ++ lit "  hello world this is a very long first line exceeding fifty characters total"
     ++ [LF] ++ lit "second line")
  = lit "hello world this is a very long first line exceedi...".
Proof. vm_compute. reflexivity. Qed.

Example title_and_bucket_of_new_note :
  title note0 = lit "Buy milk"
  /\ @getDateCategory utc (new_Date env0) (updatedAt note0) = Today.
Proof. vm_compute. split; reflexivity. Qed.

(** *** Date buckets *)

(** C4. Central European Time, the night after the clocks went back: now
    is 2024-10-28 00:01 and the note was updated at 23:59 the day before.
    The calendar dates are one day apart, which the rule buckets as
    Yesterday, but the two local midnights are 25 hours apart,
    [Math.ceil(25 / 24)] is 2, and [getDateCategory] answers This week:
    [categorizeNotes] lists the note under This week and nothing under
    Yesterday. *)
Theorem C4_yesterday_after_clocks_go_back :
  let clock := 1730070060000 in
  @calendarDiffDays cet_2024 clock 1730069940000 = 1
  /\ categoryOfDiff 1 = Yesterday
  /\ @Date_ymd cet_2024 (Some 2024) (Some 9) (Some 28) = Some 1730070000000
  /\ @Date_ymd cet_2024 (Some 2024) (Some 9) (Some 27) = Some 1729980000000
  /\ @getDateCategory cet_2024 clock (updatedAt night_note) = ThisWeek
  /\ @categorizeNotes cet_2024 (fun _ => clock) [night_note]
     = {| cat_Today := []; cat_Yesterday := []; cat_ThisWeek := [night_note];
          cat_ThisMonth := []; cat_Older := [] |}.
Proof. vm_compute. repeat split; reflexivity. Qed.

(** C10. Central European Time, the day the clocks go forward: now is
    2024-03-31 12:00 and the note is dated 2024-04-01 08:00, one calendar
    day after today. The two local midnights are 23 hours apart,
    [Math.ceil(-23 / 24)] is -0, which [=== 0] accepts, and
    [getDateCategory] answers Today, not This week. *)
Theorem C10_tomorrow_when_clocks_go_forward :
  let clock := 1711879200000 in
  @calendarDiffDays cet_2024 clock 1711951200000 = -1
  /\ @Date_ymd cet_2024 (Some 2024) (Some 2) (Some 31) = Some 1711839600000
  /\ @Date_ymd cet_2024 (Some 2024) (Some 3) (Some 1) = Some 1711922400000
  /\ @getDateCategory cet_2024 clock (updatedAt april_note) = Today
  /\ @categorizeNotes cet_2024 (fun _ => clock) [april_note]
     = {| cat_Today := [april_note]; cat_Yesterday := []; cat_ThisWeek := [];
          cat_ThisMonth := []; cat_Older := [] |}.
Proof. vm_compute. repeat split; reflexivity. Qed.

(** Newest first within a bucket. *)
Example buckets_are_sorted :
  let older := {| id := lit "o"; title := lit "o"; content := [];
                  createdAt := Some 0; updatedAt := Some 1730069000000 |} in
  @categorizeNotes (fixed_offset 3600000) (fun _ => 1730070060000)
     [older; april_note; night_note]
  = {| cat_Today := []; cat_Yesterday := [night_note; older]; cat_ThisWeek := [];
       cat_ThisMonth := []; cat_Older := [april_note] |}.
Proof. vm_compute. reflexivity. Qed.

(** The same two instants in a zone that keeps its offset. *)
Example same_instants_fixed_offset :
  @getDateCategory (fixed_offset 3600000) 1730070060000 (Some 1730069940000) = Yesterday
  /\ @getDateCategory (fixed_offset 7200000) 1711879200000 (Some 1711951200000) = ThisWeek.
Proof. vm_compute. split; reflexivity. Qed.

(** The two general facts about zones with one offset, at work on
    Central European winter time. *)
Example yesterday_by_the_calendar :
  @getDateCategory (fixed_offset 3600000) 1730070060000 (Some 1730069940000)
  = categoryOfDiff (@calendarDiffDays (fixed_offset 3600000) 1730070060000 1730069940000).
Proof.
  apply (@DateFacts.getDateCategory_fixed_offset (fixed_offset 3600000) 3600000).
  - reflexivity.
  - split; vm_compute; [intros [_ Hle]; apply Hle; reflexivity | discriminate].
  - split; vm_compute; [intros [_ Hle]; apply Hle; reflexivity | discriminate].
Qed.

Example next_year_is_this_week :
  @getDateCategory (fixed_offset 3600000) 1730070060000 (Some 1767225600000) = ThisWeek.
Proof.
  apply (@DateFacts.future_note_fixed_offset (fixed_offset 3600000) 3600000).
  - reflexivity.
  - split; vm_compute; discriminate.
  - vm_compute. discriminate.
  - vm_compute. reflexivity.
Qed.

(** *** The note store *)

Lemma C1_failed_write_is_swallowed_witness :
  faults failing_device = [Some "disk full"%string]
  /\ (exists w',
        @addNote codec env0 input1 failing_device
        = (Return (createNote env0 input1), w')
        /\ notes (notesState w') = notes (notesState failing_device)
        /\ asyncStorage w' = asyncStorage failing_device
        /\ error (notesState w') = Some "Failed to save notes"%string)
  /\ (exists w',
        @updateNoteById codec env0 (id note0) {| upd_title := None; upd_content := Some (lit "Buy bread") |} failing_device
        = (Return (updateNote env0 note0 {| upd_title := None; upd_content := Some (lit "Buy bread") |}), w')
        /\ notes (notesState w') = notes (notesState failing_device)
        /\ asyncStorage w' = asyncStorage failing_device
        /\ error (notesState w') = Some "Failed to save notes"%string).
Proof.
  split; [reflexivity|].
  destruct (@HookFacts.C1_failed_write_is_swallowed codec env0 failing_device
              "disk full"%string [] eq_refl) as [Hadd Hupd].
  split.
  - exact (Hadd input1).
  - apply (Hupd (id note0) _ 0%nat note0); [discriminate | reflexivity].
Defined.

Lemma C2_load_failure_is_not_signalled_witness :
  @load_fails codec failing_device
  /\ exists w',
       @loadNotes codec failing_device = (Return tt, w')
       /\ notes (notesState w') = []
       /\ loading (notesState w') = false
       /\ error (notesState w') = None
       /\ asyncStorage w' = asyncStorage failing_device.
Proof.
  assert (Hfail : @load_fails codec failing_device).
  { left. exists "disk full"%string, []. reflexivity. }
  split; [exact Hfail|].
  exact (@HookFacts.C2_load_failure_is_not_signalled codec failing_device Hfail).
Defined.

(** A stored text that is not JSON is a load failure as well. *)
Example load_fails_on_broken_text :
  @load_fails codec
    (with_asyncStorage (insert NOTES_STORAGE_KEY (lit "[{")) device).
Proof.
  right. split; [reflexivity|]. exists (lit "[{").
  split; [reflexivity|]. split; [discriminate|]. exact I.
Qed.

(** Two notes created in the same millisecond with the same random draw
    get the same id. *)
Example same_reading_same_draw_same_id :
  let before := @createAll codec [(env0, input0)] device in
  let run := @addNote codec env0 input1 (snd before) in
  exists n1 n2,
    fst before = Return [n1] /\ fst run = Return n2
    /\ n1 <> n2 /\ id n2 = id n1
    /\ notes (notesState (snd run)) = [n2; n1].
Proof.
  exists (createNote env0 input0), (createNote env0 input1).
  vm_compute. repeat split; try reflexivity. discriminate.
Qed.

Lemma C5_same_reading_and_draw_same_id_witness :
  (env0, input0) ∈ [(env0, input0)]
  /\ notes (notesState
              (snd (@addNote codec env0 input1
                      (snd (@createAll codec [(env0, input0)] device)))))
     = [createNote env0 input1; createNote env0 input0]
  /\ id (createNote env0 input1) = id (createNote env0 input0)
  /\ exists created w1 n w2,
       @createAll codec [(env0, input0)] device = (Return created, w1)
       /\ @addNote codec env0 input1 w1 = (Return n, w2)
       /\ (exists m, m ∈ created /\ id m = id n)
       /\ content n = input_content input1
       /\ title n <> []
       /\ createdAt n = updatedAt n
       /\ (quiet 1 w1 = true -> getNoteById (notesState w2) (id n) = Some n).
Proof.
  assert (Hprior : (env0, input0) ∈ [(env0, input0)])
    by (apply list_elem_of_singleton; reflexivity).
  split; [exact Hprior|]. split; [vm_compute; reflexivity|]. split; [reflexivity|].
  exact (@HookFacts.C5_same_reading_and_draw_same_id codec [(env0, input0)] env0 input1
           device (env0, input0) Hprior eq_refl eq_refl).
Defined.

(** Three milliseconds later the id is a new one. *)
Example later_draw_is_fresh : generateId env1 ∉ [generateId env0].
Proof.
  intros Hin. apply list_elem_of_singleton in Hin. revert Hin.
  apply NoteFacts.generateId_distinct; [reflexivity | discriminate].
Qed.

Example undated_note_is_loaded :
  fst (@loadNotesFromStorage codec
         (with_asyncStorage (insert NOTES_STORAGE_KEY undated_blob) device))
  = Return [undated_note].
Proof. vm_compute. reflexivity. Qed.

(** A note with Invalid Dates, which no create or update builds, does not
    come back as it was: [toJSON] writes [null] for an Invalid Date and
    [new Date(null)] is 1970-01-01T00:00:00Z. *)
Example invalid_date_comes_back_as_epoch :
  let saved := snd (@saveNotesToStorage codec [undated_note] device) in
  let epoch_note :=
    {| id := lit "a"; title := lit "t"; content := lit "c";
       createdAt := Some 0; updatedAt := Some 0 |} in
  fst (@loadNotesFromStorage codec saved) = Return [epoch_note]
  /\ [epoch_note] <> [undated_note].
Proof. vm_compute. split; [reflexivity | discriminate]. Qed.

Lemma C6_save_then_load_roundtrip_witness :
  @lawful codec
  /\ Forall has_instants [note0; createNote env0 input1]
  /\ quiet 2 device = true
  /\ exists w1 w2,
       @saveNotesToStorage codec [note0; createNote env0 input1] device = (Return tt, w1)
       /\ @loadNotesFromStorage codec w1 = (Return [note0; createNote env0 input1], w2).
Proof.
  assert (Hns : Forall has_instants [note0; createNote env0 input1]).
  { repeat (apply Forall_cons; split); try apply Forall_nil;
      split; (eexists; split; [reflexivity | vm_compute; discriminate]). }
  split; [exact ReferenceFacts.codec_lawful|]. split; [exact Hns|]. split; [reflexivity|].
  exact (@CodecFacts.C6_save_then_load_roundtrip codec _ device
           ReferenceFacts.codec_lawful Hns eq_refl).
Defined.

(** The empty collection round-trips too. *)
Example empty_collection_roundtrip :
  fst (@loadNotesFromStorage codec (snd (@saveNotesToStorage codec [] device)))
  = Return [].
Proof. vm_compute. reflexivity. Qed.

(** The empty string is an id no note has, and updating it fails with
    ["Invalid note ID"], not with ["Note not found"]. *)
Lemma C7_empty_id_is_invalid_not_missing :
  Forall (fun n => id n <> []) (notes (notesState (with_notes [note0] device)))
  /\ fst (@updateNoteById codec env0 [] {| upd_title := None; upd_content := Some (lit "x") |}
            (with_notes [note0] device))
     = Throw (Error "Invalid note ID")
  /\ Error "Invalid note ID" <> Error "Note not found".
Proof.
  split; [repeat constructor; discriminate|].
  split; [vm_compute; reflexivity | discriminate].
Qed.

Lemma C7_update_absent_id_witness :
  Forall (fun n => id n <> lit "no-such-id") (notes (notesState (with_notes [note0] device)))
  /\ exists w',
       @updateNoteById codec env0 (lit "no-such-id")
         {| upd_title := None; upd_content := Some (lit "x") |} (with_notes [note0] device)
       = (Throw (Error "Note not found"), w')
       /\ notes (notesState w') = [note0]
       /\ asyncStorage w' = ∅
       /\ faults w' = []
       /\ error (notesState w') = Some "Failed to update note: Note not found"%string.
Proof.
  assert (Habsent : Forall (fun n => id n <> lit "no-such-id")
                      (notes (notesState (with_notes [note0] device)))).
  { repeat constructor. vm_compute. discriminate. }
  split; [exact Habsent|].
  exact (@HookFacts.C7_update_absent_id codec env0 (lit "no-such-id")
           {| upd_title := None; upd_content := Some (lit "x") |}
           (with_notes [note0] device) Habsent).
Defined.

(** *** The model service and the gate *)

(** A stale tag and a set flag, but no asset file: the check answers
    not-available and leaves both in place. With the file there and a
    delete that rejects, it answers not-available and leaves the file, the
    flag and the tag in place. *)
Lemma C8_stale_flags_left_in_place :
  let no_file := with_modelFileExists false stale_device in
  let busy := with_faults [None; None; Some "EBUSY"%string] stale_device in
  asyncStorage no_file !! MODEL_VERSION_KEY = Some (lit "0.9.0")
  /\ fst (isModelAvailable no_file) = Return false
  /\ asyncStorage (snd (isModelAvailable no_file)) = stale_storage
  /\ fst (isModelAvailable busy) = Return false
  /\ modelFileExists (snd (isModelAvailable busy)) = true
  /\ asyncStorage (snd (isModelAvailable busy)) = stale_storage.
Proof. vm_compute. repeat split; reflexivity. Qed.

Lemma C8_stale_version_tag_witness :
  asyncStorage stale_device !! MODEL_VERSION_KEY <> Some CURRENT_MODEL_VERSION
  /\ unsupported stale_device = false
  /\ modelFileExists stale_device = true
  /\ quiet 5 stale_device = true
  /\ exists w',
       isModelAvailable stale_device = (Return false, w')
       /\ modelFileExists w' = false
       /\ asyncStorage w' !! MODEL_STORAGE_KEY = None
       /\ asyncStorage w' !! MODEL_VERSION_KEY = None.
Proof.
  assert (Hstale : asyncStorage stale_device !! MODEL_VERSION_KEY
                   <> Some CURRENT_MODEL_VERSION).
  { vm_compute. discriminate. }
  split; [exact Hstale|]. split; [reflexivity|]. split; [reflexivity|].
  split; [reflexivity|].
  exact (proj2 (GateFacts.C8_stale_version_tag stale_device Hstale)
           eq_refl eq_refl eq_refl).
Defined.

Lemma C9_native_without_file_system_is_blocked :
  unsupported no_file_system = true
  /\ fst (validateAndEnsureModel no_file_system) = Return tt
  /\ isModelReady (gateState (snd (validateAndEnsureModel no_file_system))) = false
  /\ modelDownloadError (gateState (snd (validateAndEnsureModel no_file_system)))
     = Some "Model download not supported on web platform"%string.
Proof. vm_compute. repeat split; reflexivity. Qed.

Lemma C9_gate_on_web_witness :
  platformIsWeb browser = true
  /\ validateAndEnsureModel browser
     = (Return tt, with_gateState (setIsModelReady true) browser)
  /\ isModelReady (gateState (snd (validateAndEnsureModel browser))) = true.
Proof.
  split; [reflexivity|].
  exact (GateFacts.C9_gate_on_web browser eq_refl).
Defined.

End Cases.

(* ===================================================================== *)
(** ** The shape of titles *)
(* ===================================================================== *)

Module TitleShapeFacts.
Import Js JsDate Runtime NoteUtils TitleShape JsFacts TitleFacts NoteFacts.

Lemma dropWhile_clean s : starts_clean (dropWhile is_ws s) = true.
Proof.
  induction s as [|c r IH]; [reflexivity|]. simpl.
  destruct (is_ws c) eqn:E; [exact IH | simpl; now rewrite E].
Qed.

Lemma dropWhile_fix s : starts_clean s = true -> dropWhile is_ws s = s.
Proof.
  destruct s as [|c r]; [reflexivity|]. simpl.
  now destruct (is_ws c).
Qed.

Lemma trimEnd_fix s : ends_clean s = true -> trimEnd s = s.
Proof.
  intros H. unfold trimEnd. rewrite dropWhile_fix by exact H.
  apply reverse_involutive.
Qed.

Lemma trimEnd_ends_clean s : ends_clean (trimEnd s) = true.
Proof.
  unfold ends_clean, trimEnd. rewrite reverse_involutive. apply dropWhile_clean.
Qed.

Lemma trimEnd_starts_clean s : starts_clean s = true -> starts_clean (trimEnd s) = true.
Proof.
  intros H. destruct (trimEnd_decompose s) as (w & _ & Hs).
  destruct (trimEnd s) as [|c r]; [reflexivity|].
  rewrite Hs in H. exact H.
Qed.

(** A string trims to itself when it starts and ends clean. *)
Lemma trim_fix s : starts_clean s = true -> ends_clean s = true -> trim s = s.
Proof.
  intros Hs He. unfold trim, trimStart.
  rewrite dropWhile_fix by exact Hs. now apply trimEnd_fix.
Qed.

Lemma trim_clean s : starts_clean (trim s) = true /\ ends_clean (trim s) = true.
Proof.
  unfold trim, trimStart. split.
  - apply trimEnd_starts_clean, dropWhile_clean.
  - apply trimEnd_ends_clean.
Qed.

(** Trimming twice is trimming once. *)
Lemma trim_idem s : trim (trim s) = trim s.
Proof. destruct (trim_clean s). now apply trim_fix. Qed.

Lemma Forall_dropWhile {A} (P : A -> Prop) p l : Forall P l -> Forall P (dropWhile p l).
Proof.
  induction 1 as [|x r Hx Hr IH]; simpl; [constructor|].
  destruct (p x); [exact IH | now constructor].
Qed.

Lemma Forall_trim (P : N -> Prop) s : Forall P s -> Forall P (trim s).
Proof.
  intros H. unfold trim, trimEnd, trimStart.
  apply Forall_reverse, Forall_dropWhile, Forall_reverse, Forall_dropWhile, H.
Qed.

(** No piece of [s.split(sep)] holds the separator. *)
Lemma split_pieces_no_sep sep s :
  Forall (Forall (fun c => c <> sep)) (split sep s).
Proof.
  induction s as [|c r IH]; simpl.
  - repeat constructor.
  - destruct (N.eqb_spec c sep) as [->|Hne].
    + constructor; [constructor | exact IH].
    + destruct (split sep r) as [|l ls]; [repeat constructor; exact Hne|].
      inversion IH; subst. constructor; [now constructor | assumption].
Qed.

Lemma DEFAULT_TITLE_well_shaped : well_shaped DEFAULT_TITLE.
Proof.
  split; [discriminate|]. split; [vm_compute; lia|].
  split; [|vm_compute; reflexivity].
  repeat constructor; discriminate.
Qed.

Lemma limitTitle_trim_well_shaped line :
  Forall (fun c => c <> LF) line -> trim line <> [] ->
  well_shaped (limitTitle (trim line)).
Proof.
  intros Hline Hne. pose proof (Forall_trim _ _ Hline) as Hlf.
  destruct (trim_clean line) as [Hs He].
  unfold limitTitle, substring0.
  destruct (Nat.ltb_spec 50 (length (trim line))) as [Hlong | Hshort].
  - destruct (trim line) as [|c r] eqn:Et; [contradiction|].
    split; [discriminate|]. split.
    { rewrite length_app, length_take. change (length (lit "...")) with 3%nat. lia. }
    split.
    { apply Forall_app. split; [now apply Forall_take|].
      repeat constructor; discriminate. }
    change (take 50 (c :: r)) with (c :: take 49 r).
    replace ((c :: take 49 r) ++ lit "...")
      with ((c :: take 49 r ++ [46; 46]%N) ++ [46%N])
      by (cbn; now rewrite <- !app_assoc).
    apply trim_fix; [exact Hs|].
    unfold ends_clean. rewrite reverse_app. reflexivity.
  - split; [exact Hne|]. split; [lia|]. split; [exact Hlf|]. apply trim_idem.
Qed.

Lemma firstNonEmptyLine_well_shaped lines :
  Forall (Forall (fun c => c <> LF)) lines -> well_shaped (firstNonEmptyLine lines).
Proof.
  induction 1 as [|l ls Hl _ IH]; simpl; [apply DEFAULT_TITLE_well_shaped|].
  destruct (falsy (trim l)) eqn:E; [exact IH|].
  apply limitTitle_trim_well_shaped; [exact Hl | now apply falsy_false].
Qed.

Lemma generateTitle_well_shaped content : well_shaped (generateTitleFromContent content).
Proof.
  unfold generateTitleFromContent.
  destruct (falsy content || falsy (trim content)); [apply DEFAULT_TITLE_well_shaped|].
  cbv zeta. pose proof (split_pieces_no_sep LF (trim content)) as Hp.
  destruct (falsy (trim (first (split LF (trim content))))) eqn:E.
  - now apply firstNonEmptyLine_well_shaped.
  - apply limitTitle_trim_well_shaped; [|now apply falsy_false].
    unfold first. destruct Hp; [constructor | assumption].
Qed.

Lemma limitTitle_idem t : limitTitle (limitTitle t) = limitTitle t.
Proof.
  unfold limitTitle, substring0.
  destruct (50 <? length t)%nat eqn:E; [|now rewrite E].
  apply Nat.ltb_lt in E.
  assert (Hl : length (take 50 t) = 50%nat) by (rewrite length_take; lia).
  rewrite length_app, Hl. change (50 <? 50 + length (lit "..."))%nat with true.
  cbv iota. now rewrite take_app_length' by (symmetry; exact Hl).
Qed.

(** The title of a well-shaped string that [limitTitle] leaves alone is
    the string. *)
Lemma title_of_title t :
  well_shaped t -> limitTitle t = t -> generateTitleFromContent t = t.
Proof.
  intros (Hne & _ & Hlf & Htrim) Hlim. unfold generateTitleFromContent.
  rewrite Htrim. apply falsy_false in Hne. rewrite Hne. cbn [orb]. cbv zeta.
  assert (Hsplit : split LF t = [t]).
  { clear - Hlf. induction Hlf as [|c r Hc _ IH]; [reflexivity|].
    simpl. destruct (N.eqb_spec c LF); [contradiction|]. now rewrite IH. }
  rewrite Hsplit. cbn [first hd]. rewrite Htrim, Hne. exact Hlim.
Qed.

Lemma firstNonEmptyLine_limited lines :
  limitTitle (firstNonEmptyLine lines) = firstNonEmptyLine lines.
Proof.
  induction lines as [|l ls IH]; simpl; [reflexivity|].
  destruct (falsy (trim l)); [exact IH | apply limitTitle_idem].
Qed.

(** A generated title is cut already. *)
Lemma generateTitle_limited content :
  limitTitle (generateTitleFromContent content) = generateTitleFromContent content.
Proof.
  unfold generateTitleFromContent.
  destruct (falsy content || falsy (trim content)); [reflexivity|]. cbv zeta.
  destruct (falsy (trim (first (split LF (trim content))))).
  - apply firstNonEmptyLine_limited.
  - apply limitTitle_idem.
Qed.

(** X1. Whatever the content, the title [generateTitleFromContent] returns
    is not empty, has at most 53 code units (50 and the ellipsis), holds no
    line feed and has no blank at either end: trimming it changes nothing.
    It is its own title: generating a title from it gives it back, cut and
    ellipsis included. *)
Theorem generated_title_shape (content : jstring) :
  let t := generateTitleFromContent content in
  t <> [] /\ (length t <= 53)%nat /\ (LF ∉ t) /\ trim t = t
  /\ generateTitleFromContent t = t.
Proof.
  destruct (generateTitle_well_shaped content) as (Hne & Hlen & Hlf & Htrim).
  cbv zeta. split; [exact Hne|]. split; [exact Hlen|]. split; [|split; [exact Htrim|]].
  - intros Hin. rewrite Forall_forall in Hlf. now apply (Hlf LF Hin).
  - apply title_of_title; [apply generateTitle_well_shaped | apply generateTitle_limited].
Qed.

(** X2. No note is built with a blank title. [createNote] stores the
    title trimmed; [updateNote] keeps the id and the creation date of the
    note, stamps it with the instant of the update, and stores a title
    that is not blank, generated from the content when the one it is given
    is. *)
Theorem built_notes_have_titles (env : Ambient) :
  (forall noteInput,
      let n := createNote env noteInput in
      trim (title n) = title n /\ title n <> [])
  /\ (forall existingNote updates,
      let n := updateNote env existingNote updates in
      trim (title n) <> []
      /\ id n = id existingNote
      /\ createdAt n = createdAt existingNote
      /\ updatedAt n = Some (new_Date env)).
Proof.
  split.
  - intros noteInput. cbv zeta. unfold createNote. cbn [title].
    destruct (falsy (trim (input_title noteInput))) eqn:E.
    + destruct (generateTitle_well_shaped (or_empty (input_content noteInput)))
        as (Hne & _ & _ & Htrim). now split.
    + split; [apply trim_idem | now apply falsy_false].
  - intros existingNote updates. cbv zeta. unfold updateNote.
    cbn [title id createdAt updatedAt].
    split; [|now repeat split].
    match goal with |- context [if ?b then _ else _] => destruct b eqn:E end.
    + destruct (generateTitle_well_shaped
                  (or_empty (match upd_content updates with
                             | Some c => c
                             | None => content existingNote
                             end))) as (Hne & _ & _ & Htrim).
      now rewrite Htrim.
    + apply orb_false_iff in E as [_ E]. now apply falsy_false.
Qed.

End TitleShapeFacts.

(* ===================================================================== *)
(** ** The mutators of the hook *)
(* ===================================================================== *)

Module StoreFacts.
Import Js JsDate Runtime NoteUtils UseNotes CodecSpec StoreSpec.
Import JsFacts TitleFacts RuntimeFacts NoteFacts HookFacts.
Import Reference Samples.

Section WithCodec.
Context `{Codec}.

(** [saveNotes] resolves, one way or the other. *)
Lemma saveNotes_cases ns w :
  saveNotes ns w
  = (Return tt,
     with_notesState (set_notes_saved ns)
       (with_asyncStorage (insert NOTES_STORAGE_KEY (JSON_stringify ns)) (advance w)))
  \/ saveNotes ns w
     = (Return tt, with_notesState (set_error (Some "Failed to save notes")) (advance w)).
Proof.
  destruct (faults w) as [|[reason|] rest] eqn:Hf.
  - left. apply saveNotes_write_succeeds. now apply quiet_nil.
  - right. now apply (saveNotes_write_rejects ns w reason rest).
  - left. apply saveNotes_write_succeeds. unfold quiet. now rewrite Hf.
Qed.

Lemma getNoteById_found st noteId existingNote :
  getNoteById st noteId = Some existingNote ->
  exists i, list_find (fun n => id n = noteId) (notes st) = Some (i, existingNote).
Proof.
  unfold getNoteById.
  destruct (list_find _ (notes st)) as [[i n]|]; [|discriminate].
  intros [= <-]. now exists i.
Qed.

Lemma getNoteById_absent st noteId :
  getNoteById st noteId = None <-> Forall (fun n => id n <> noteId) (notes st).
Proof.
  unfold getNoteById. rewrite fmap_None. apply list_find_None.
Qed.

(** What [updateNoteById] does before it saves. *)
Lemma updateNoteById_found env noteId updates w i existingNote :
  noteId <> [] ->
  list_find (fun n => id n = noteId) (notes (notesState w)) = Some (i, existingNote) ->
  updateNoteById env noteId updates w
  = match saveNotes (<[i := updateNote env existingNote updates]> (notes (notesState w))) w with
    | (Return _, w') => (Return (updateNote env existingNote updates), w')
    | (Throw e, w') =>
        (Throw e, with_notesState
                    (set_error (Some ("Failed to update note: " +:+ message_of e))) w')
    | (OutOfModel, w') => (OutOfModel, w')
    end.
Proof.
  intros Hne Hfind. unfold updateNoteById, findIndex. io_unfold.
  apply falsy_false in Hne. rewrite Hne. cbn beta iota.
  unfold compose. rewrite Hfind. cbn [fmap option_fmap option_map fst].
  apply list_find_Some in Hfind as (Hlook & Hid & _).
  rewrite Hlook. cbn [id updateNote]. rewrite Hid, Hne.
  rewrite bool_decide_eq_true_2 by reflexivity. cbn [negb orb].
  destruct (saveNotes _ w) as [[[]|e|] w']; reflexivity.
Qed.

(** X3. When the write goes through, [updateNoteById] replaces the note
    in place: the note found under the id afterwards is the updated one,
    the ids of the collection and their order are as before, every note
    with another id is where it was, the blob holds the new collection and
    the error field is cleared. *)
Theorem update_replaces_in_place env noteId updates w existingNote :
  quiet 1 w = true ->
  noteId <> [] ->
  getNoteById (notesState w) noteId = Some existingNote ->
  exists w',
    updateNoteById env noteId updates w
    = (Return (updateNote env existingNote updates), w')
    /\ getNoteById (notesState w') noteId = Some (updateNote env existingNote updates)
    /\ map id (notes (notesState w')) = map id (notes (notesState w))
    /\ (forall j n, notes (notesState w) !! j = Some n -> id n <> noteId ->
                    notes (notesState w') !! j = Some n)
    /\ asyncStorage w' !! NOTES_STORAGE_KEY
       = Some (JSON_stringify (notes (notesState w')))
    /\ error (notesState w') = None.
Proof.
  intros Hq Hne Hget. destruct (getNoteById_found _ _ _ Hget) as (i & Hfind).
  rewrite (updateNoteById_found env noteId updates w i existingNote Hne Hfind).
  rewrite (saveNotes_write_succeeds _ w Hq).
  eexists. split; [reflexivity|].
  pose proof Hfind as Hfind'.
  apply list_find_Some in Hfind' as (Hlook & Hid & Hbefore).
  set (updated := updateNote env existingNote updates).
  assert (Hnotes : forall a, notes (notesState
            (with_notesState (set_notes_saved (<[i:=updated]> (notes (notesState w)))) a))
          = <[i:=updated]> (notes (notesState w))) by now intros [].
  rewrite !Hnotes.
  split; [|split; [|split; [|split]]].
  - unfold getNoteById. cbn [notes]. rewrite Hnotes.
    assert (Hfound : list_find (fun n => id n = noteId) (<[i:=updated]> (notes (notesState w)))
                     = Some (i, updated)).
    { apply list_find_Some. split; [|split].
      - apply list_lookup_insert_eq. now apply lookup_lt_Some in Hlook.
      - exact Hid.
      - intros j y Hj Hlt. rewrite list_lookup_insert_ne in Hj by lia.
        now apply (Hbefore j y). }
    now rewrite Hfound.
  - rewrite list_fmap_insert. apply list_insert_id.
    rewrite list_lookup_fmap, Hlook. reflexivity.
  - intros j n Hj Hother. destruct (decide (j = i)) as [->|Hji].
    + rewrite Hlook in Hj. injection Hj as <-. contradiction.
    + now rewrite list_lookup_insert_ne by congruence.
  - destruct w. cbn. apply lookup_insert_eq.
  - now destruct w.
Qed.

(** X4. [updateNoteById] throws for two reasons only: an empty id
    (["Invalid note ID"]) and an id no note has (["Note not found"]). For
    an id a note has it resolves with the updated note whatever the
    platform does: the two structure checks cannot fail, and a rejected
    write is not passed on. *)
Theorem update_outcomes env noteId updates w :
  match fst (updateNoteById env noteId updates w) with
  | Return n =>
      noteId <> []
      /\ exists existingNote,
           getNoteById (notesState w) noteId = Some existingNote
           /\ n = updateNote env existingNote updates
  | Throw e =>
      (noteId = [] /\ e = Error "Invalid note ID")
      \/ (noteId <> [] /\ getNoteById (notesState w) noteId = None
          /\ e = Error "Note not found")
  | OutOfModel => False
  end.
Proof.
  destruct noteId as [|c r] eqn:Hid.
  - unfold updateNoteById. io_unfold. cbn. left. now split.
  - rewrite <- Hid. assert (Hne : noteId <> []) by (rewrite Hid; discriminate).
    clear Hid. destruct (getNoteById (notesState w) noteId) as [existingNote|] eqn:Hget.
    + destruct (getNoteById_found _ _ _ Hget) as (i & Hfind).
      rewrite (updateNoteById_found env noteId updates w i existingNote Hne Hfind).
      destruct (saveNotes_cases (<[i:=updateNote env existingNote updates]> (notes (notesState w))) w)
        as [-> | ->]; cbn; (split; [exact Hne|]); now exists existingNote.
    + pose proof (proj1 (getNoteById_absent _ _) Hget) as Habsent.
      unfold updateNoteById, findIndex, setState. io_unfold.
      apply falsy_false in Hne. rewrite Hne. unfold compose.
      rewrite (proj2 (list_find_None _ _) Habsent). cbn.
      right. split; [now apply falsy_false|]. now split.
Qed.

Lemma find_cons (P : Note -> Prop) `{!forall n, Decision (P n)} x (l : list Note) :
  snd <$> list_find P (x :: l)
  = if decide (P x) then Some x else snd <$> list_find P l.
Proof.
  cbn. destruct (decide (P x)); [reflexivity|].
  now destruct (list_find P l) as [[]|].
Qed.

(** Looking up another id finds the same note once the notes with
    [noteId] are filtered out. *)
Lemma find_in_filter noteId other (l : list Note) :
  other <> noteId ->
  snd <$> list_find (fun n => id n = other) (filter (fun n => id n <> noteId) l)
  = snd <$> list_find (fun n => id n = other) l.
Proof.
  intros Hne. induction l as [|x r IH]; [reflexivity|].
  rewrite filter_cons, (find_cons _ x r).
  destruct (decide (id x <> noteId)) as [Hx | Hx].
  - rewrite find_cons. now rewrite IH.
  - rewrite IH. rewrite decide_False; [reflexivity|].
    intros Heq. apply Hx. congruence.
Qed.

Lemma saveNotes_applied_or_dropped ns w :
  exists w', saveNotes ns w = (Return tt, w') /\ (applied ns w' \/ dropped w w').
Proof.
  destruct (saveNotes_cases ns w) as [-> | ->]; eexists; (split; [reflexivity|]).
  - left. destruct w. cbn. split; [reflexivity|]. split; [apply lookup_insert_eq | reflexivity].
  - right. now destruct w.
Qed.

Lemma addNote_runs env noteInput w :
  addNote env noteInput w
  = match saveNotes (createNote env noteInput :: notes (notesState w)) w with
    | (Return _, w') => (Return (createNote env noteInput), w')
    | (Throw e, w') =>
        (Throw e, with_notesState
                    (set_error (Some ("Failed to create note: " +:+ message_of e))) w')
    | (OutOfModel, w') => (OutOfModel, w')
    end.
Proof.
  unfold addNote. io_unfold.
  change (id (createNote env noteInput)) with (generateId env).
  rewrite generateId_nonempty. cbn beta iota.
  destruct (saveNotes _ w) as [[[]|e|] w']; reflexivity.
Qed.

Lemma deleteNote_runs noteId w :
  deleteNote noteId w
  = saveNotes (filter (fun note => id note <> noteId) (notes (notesState w))) w.
Proof.
  unfold deleteNote. io_unfold. unfold compose.
  destruct (saveNotes_cases (filter (fun note => id note <> noteId) (notes (notesState w))) w)
    as [-> | ->]; reflexivity.
Qed.

Lemma deleteAllNotes_runs w : deleteAllNotes w = saveNotes [] w.
Proof.
  unfold deleteAllNotes. io_unfold.
  destruct (saveNotes_cases [] w) as [-> | ->]; reflexivity.
Qed.

Lemma filter_all (P : Note -> Prop) `{!forall n, Decision (P n)} (l : list Note) :
  Forall P l -> filter P l = l.
Proof.
  induction 1 as [|x r Hx _ IH]; [reflexivity|].
  rewrite filter_cons, decide_True by exact Hx. now rewrite IH.
Qed.

(** X5. When the write goes through, [deleteNote] removes every note
    that has the id and nothing else: no note is found under the id
    afterwards, every other id finds the note it found before, and the
    notes that are left are in their old order. An id that no note has is
    no error: the collection is as before. The blob holds the new
    collection. *)
Theorem delete_removes_note noteId w :
  quiet 1 w = true ->
  exists w',
    deleteNote noteId w = (Return tt, w')
    /\ getNoteById (notesState w') noteId = None
    /\ (forall other, other <> noteId ->
          getNoteById (notesState w') other = getNoteById (notesState w) other)
    /\ notes (notesState w') `sublist_of` notes (notesState w)
    /\ (getNoteById (notesState w) noteId = None ->
        notes (notesState w') = notes (notesState w))
    /\ asyncStorage w' !! NOTES_STORAGE_KEY
       = Some (JSON_stringify (notes (notesState w')))
    /\ error (notesState w') = None.
Proof.
  intros Hq. rewrite deleteNote_runs, (saveNotes_write_succeeds _ w Hq).
  eexists. split; [reflexivity|].
  set (kept := filter (fun note => id note <> noteId) (notes (notesState w))).
  assert (Hnotes : forall a, notes (notesState (with_notesState (set_notes_saved kept) a)) = kept)
    by now intros [].
  rewrite !Hnotes.
  split; [|split; [|split; [|split; [|split]]]].
  - apply getNoteById_absent. rewrite Hnotes. apply Forall_forall.
    intros n Hn. now apply list_elem_of_filter in Hn as [Hn _].
  - intros other Hother. unfold getNoteById. rewrite Hnotes.
    now apply find_in_filter.
  - apply sublist_filter.
  - intros Habsent. apply filter_all. now apply getNoteById_absent.
  - destruct w. cbn. apply lookup_insert_eq.
  - now destruct w.
Qed.

(** X6. [addNote], [deleteNote] and [deleteAllNotes] never throw,
    whatever the platform does, and each is all or nothing: either the
    collection in memory and the stored blob are both the new ones, or
    the write was rejected, both are as before and the error field says
    ["Failed to save notes"]. [addNote] resolves with the note
    [createNote] built in either case. *)
Theorem mutators_are_all_or_nothing env w :
  (forall noteInput, exists w',
      addNote env noteInput w = (Return (createNote env noteInput), w')
      /\ (applied (createNote env noteInput :: notes (notesState w)) w'
          \/ dropped w w'))
  /\ (forall noteId, exists w',
      deleteNote noteId w = (Return tt, w')
      /\ (applied (filter (fun note => id note <> noteId) (notes (notesState w))) w'
          \/ dropped w w'))
  /\ (exists w',
      deleteAllNotes w = (Return tt, w') /\ (applied [] w' \/ dropped w w')).
Proof.
  split; [|split].
  - intros noteInput. rewrite addNote_runs.
    destruct (saveNotes_applied_or_dropped
                (createNote env noteInput :: notes (notesState w)) w) as (w' & -> & Hw').
    now exists w'.
  - intros noteId. rewrite deleteNote_runs. apply saveNotes_applied_or_dropped.
  - rewrite deleteAllNotes_runs. apply saveNotes_applied_or_dropped.
Qed.

Lemma saveNotes_in_sync ns w : in_sync w -> in_sync (saveNotes ns w).2.
Proof.
  intros Hs. destruct (saveNotes_applied_or_dropped ns w) as (w' & -> & [Ha | Hd]);
    unfold in_sync in *; cbn [snd].
  - destruct Ha as (-> & -> & _). reflexivity.
  - destruct Hd as (-> & -> & _). exact Hs.
Qed.

(** X7. The stored blob stays the serialisation of the collection in
    memory: when it is before a call of [addNote], [updateNoteById],
    [deleteNote], [deleteAllNotes] or [clearError], it is afterwards,
    whether the call resolves or throws and whatever the platform does. *)
Theorem write_through_is_kept env w :
  in_sync w ->
  (forall noteInput, in_sync (addNote env noteInput w).2)
  /\ (forall noteId updates, in_sync (updateNoteById env noteId updates w).2)
  /\ (forall noteId, in_sync (deleteNote noteId w).2)
  /\ in_sync (deleteAllNotes w).2
  /\ in_sync (clearError w).2.
Proof.
  intros Hs. split; [|split; [|split; [|split]]].
  - intros noteInput. rewrite addNote_runs.
    pose proof (saveNotes_in_sync (createNote env noteInput :: notes (notesState w)) w Hs) as Hs'.
    destruct (saveNotes_applied_or_dropped
                (createNote env noteInput :: notes (notesState w)) w) as (w' & Hrun & _).
    rewrite Hrun in *. exact Hs'.
  - intros noteId updates.
    destruct (falsy noteId) eqn:Hid.
    + unfold updateNoteById, setState. io_unfold. rewrite Hid. cbn.
      revert Hs. unfold in_sync. now destruct w.
    + apply falsy_false in Hid.
      destruct (getNoteById (notesState w) noteId) as [existingNote|] eqn:Hget.
      * destruct (getNoteById_found _ _ _ Hget) as (i & Hfind).
        rewrite (updateNoteById_found env noteId updates w i existingNote Hid Hfind).
        pose proof (saveNotes_in_sync
                      (<[i:=updateNote env existingNote updates]> (notes (notesState w))) w Hs) as Hs'.
        destruct (saveNotes_applied_or_dropped
                    (<[i:=updateNote env existingNote updates]> (notes (notesState w))) w)
          as (w' & Hrun & _).
        rewrite Hrun in *. exact Hs'.
      * pose proof (proj1 (getNoteById_absent _ _) Hget) as Habsent.
        unfold updateNoteById, findIndex, setState. io_unfold.
        apply falsy_false in Hid. rewrite Hid. unfold compose.
        rewrite (proj2 (list_find_None _ _) Habsent). cbn.
        revert Hs. unfold in_sync. now destruct w.
  - intros noteId. rewrite deleteNote_runs. now apply saveNotes_in_sync.
  - rewrite deleteAllNotes_runs. now apply saveNotes_in_sync.
  - revert Hs. unfold in_sync, clearError, setState. io_unfold. now destruct w.
Qed.

(** Reading back a blob the codec round-trips. *)
Lemma loadNotesFromStorage_decodes ns w :
  quiet 1 w = true ->
  asyncStorage w !! NOTES_STORAGE_KEY = Some (JSON_stringify ns) ->
  text_round_trips (JArr (map Note_toJSON ns)) ->
  Forall timestamps_round_trip ns ->
  loadNotesFromStorage w = (Return ns, advance w).
Proof.
  intros Hq Hget [Hne Hparse] Hdates.
  unfold loadNotesFromStorage, AsyncStorage_getItem. io_unfold.
  rewrite (proj1 (platform_call_quiet _ 0 w Hq)).
  replace (asyncStorage (advance w) !! NOTES_STORAGE_KEY)
    with (Some (JSON_stringify ns)) by (rewrite <- Hget; now destruct w).
  unfold JSON_stringify in *. apply falsy_false in Hne. rewrite Hne, Hparse.
  unfold map_revive.
  rewrite CodecFacts.toJSON_no_null, (CodecFacts.revive_all_toJSON ns Hdates).
  reflexivity.
Qed.

(** X8. What is in memory is what the next launch loads: when the blob
    is in step with the collection of a running app, [loadNotes] on a
    state with that storage (the state of the hook being whatever it is
    after a restart) yields that very collection, with [loading] off and
    no error, provided the read goes through and the platform reads back
    the JSON text and the ISO strings it wrote for this collection. *)
Theorem reload_restores_collection w restarted :
  in_sync w ->
  asyncStorage restarted = asyncStorage w ->
  quiet 1 restarted = true ->
  text_round_trips (JArr (map Note_toJSON (notes (notesState w)))) ->
  Forall timestamps_round_trip (notes (notesState w)) ->
  exists w',
    loadNotes restarted = (Return tt, w')
    /\ notes (notesState w') = notes (notesState w)
    /\ loading (notesState w') = false
    /\ error (notesState w') = None
    /\ asyncStorage w' = asyncStorage w.
Proof.
  intros Hs Hst Hq Htext Hdates. unfold loadNotes, setState. io_unfold.
  set (w1 := with_notesState (set_loading true None) restarted).
  assert (Hq1 : quiet 1 w1 = true) by (revert Hq; now destruct restarted).
  assert (Hget : asyncStorage w1 !! NOTES_STORAGE_KEY
                 = Some (JSON_stringify (notes (notesState w)))).
  { unfold in_sync in Hs. rewrite <- Hs, <- Hst. now destruct restarted. }
  rewrite (loadNotesFromStorage_decodes _ w1 Hq1 Hget Htext Hdates).
  eexists. split; [reflexivity|]. subst w1. rewrite <- Hst. now destruct restarted.
Qed.

(** [loadNotesFromStorage] catches whatever is thrown, and writes
    nothing. *)
Lemma loadNotesFromStorage_never_throws w :
  match loadNotesFromStorage w with
  | (Throw _, _) => False
  | (_, w') => asyncStorage w' = asyncStorage w /\ notesState w' = notesState w
  end.
Proof.
  unfold loadNotesFromStorage, AsyncStorage_getItem, platform_call, map_revive.
  io_unfold. destruct w as [web fs st file fl tr ns gs]. cbn.
  destruct fl as [|[m|] fl]; cbn; auto;
    (destruct (st !! NOTES_STORAGE_KEY) as [text|]; cbn; [|auto];
     destruct (falsy text); cbn; [auto|];
     destruct (JSON_parse text) as [[| | | |items|]|]; cbn; auto;
     destruct (existsb is_null items); cbn; [auto|];
     destruct (revive_all items); cbn; auto).
Qed.

(** X9. [loadNotes] never throws and never reports a failure: whenever
    it returns, [loading] is off, the error field is [null] and the
    storage is as it was. Its [catch], which would set ["Failed to load
    notes"], cannot be reached, because [loadNotesFromStorage] catches
    every error itself. *)
Theorem loadNotes_never_reports w :
  match loadNotes w with
  | (Return _, w') =>
      loading (notesState w') = false
      /\ error (notesState w') = None
      /\ asyncStorage w' = asyncStorage w
  | (Throw _, _) => False
  | (OutOfModel, _) => True
  end.
Proof.
  unfold loadNotes, setState. io_unfold.
  pose proof (loadNotesFromStorage_never_throws
                (with_notesState (set_loading true None) w)) as Hload.
  destruct (loadNotesFromStorage _) as [[ns|e|] w1]; [|contradiction|exact I].
  destruct Hload as [Hst Hns]. cbn.
  destruct w1, w. cbn in *. subst. auto.
Qed.

(** X10. With nothing stored under the key, or the empty string, as on
    the first launch, [loadNotes] yields the empty collection: nothing is
    parsed, and there is no error. *)
Theorem first_launch_loads_nothing w :
  quiet 1 w = true ->
  asyncStorage w !! NOTES_STORAGE_KEY = None
  \/ asyncStorage w !! NOTES_STORAGE_KEY = Some (lit "") ->
  exists w',
    loadNotes w = (Return tt, w')
    /\ notes (notesState w') = []
    /\ loading (notesState w') = false
    /\ error (notesState w') = None
    /\ asyncStorage w' = asyncStorage w.
Proof.
  intros Hq Hkey.
  set (w1 := with_notesState (set_loading true None) w).
  assert (Hq1 : quiet 1 w1 = true) by (revert Hq; now destruct w).
  assert (Hload : loadNotesFromStorage w1 = (Return [], advance w1)).
  { unfold loadNotesFromStorage, AsyncStorage_getItem. io_unfold.
    rewrite (proj1 (platform_call_quiet _ 0 w1 Hq1)).
    replace (asyncStorage (advance w1) !! NOTES_STORAGE_KEY)
      with (asyncStorage w !! NOTES_STORAGE_KEY) by now destruct w.
    destruct Hkey as [Hk | Hk]; rewrite Hk; reflexivity. }
  unfold loadNotes, setState. io_unfold. fold w1. rewrite Hload.
  eexists. split; [reflexivity|]. now destruct w.
Qed.

End WithCodec.

Lemma update_replaces_in_place_witness :
  quiet 1 (with_notes [createNote env1 input1; note0] device) = true
  /\ id note0 <> []
  /\ getNoteById (notesState (with_notes [createNote env1 input1; note0] device)) (id note0)
     = Some note0
  /\ exists w',
       @updateNoteById codec env1 (id note0)
         {| upd_title := None; upd_content := Some (lit "Buy bread") |}
         (with_notes [createNote env1 input1; note0] device)
       = (Return (updateNote env1 note0
                    {| upd_title := None; upd_content := Some (lit "Buy bread") |}), w')
       /\ getNoteById (notesState w') (id note0)
          = Some (updateNote env1 note0
                    {| upd_title := None; upd_content := Some (lit "Buy bread") |})
       /\ map id (notes (notesState w')) = [id (createNote env1 input1); id note0]
       /\ (forall j n,
              notes (notesState (with_notes [createNote env1 input1; note0] device)) !! j = Some n ->
              id n <> id note0 -> notes (notesState w') !! j = Some n)
       /\ asyncStorage w' !! NOTES_STORAGE_KEY
          = Some (@JSON_stringify codec (notes (notesState w')))
       /\ error (notesState w') = None.
Proof.
  split; [reflexivity|]. split; [discriminate|]. split; [vm_compute; reflexivity|].
  exact (@update_replaces_in_place codec env1 (id note0)
           {| upd_title := None; upd_content := Some (lit "Buy bread") |}
           (with_notes [createNote env1 input1; note0] device) note0
           eq_refl ltac:(discriminate) ltac:(vm_compute; reflexivity)).
Defined.

Lemma delete_removes_note_witness :
  quiet 1 (with_notes [createNote env1 input1; note0] device) = true
  /\ exists w',
       @deleteNote codec (id note0) (with_notes [createNote env1 input1; note0] device)
       = (Return tt, w')
       /\ getNoteById (notesState w') (id note0) = None
       /\ (forall other, other <> id note0 ->
             getNoteById (notesState w') other
             = getNoteById (notesState (with_notes [createNote env1 input1; note0] device)) other)
       /\ notes (notesState w') `sublist_of` [createNote env1 input1; note0]
       /\ (getNoteById (notesState (with_notes [createNote env1 input1; note0] device)) (id note0)
           = None ->
           notes (notesState w') = [createNote env1 input1; note0])
       /\ asyncStorage w' !! NOTES_STORAGE_KEY
          = Some (@JSON_stringify codec (notes (notesState w')))
       /\ error (notesState w') = None.
Proof.
  split; [reflexivity|].
  exact (@delete_removes_note codec (id note0)
           (with_notes [createNote env1 input1; note0] device) eq_refl).
Defined.

(** A phone whose storage holds the two notes in memory. *)
Lemma write_through_is_kept_witness :
  let w := snd (@addNote codec env1 input1 (snd (@addNote codec env0 input0 device))) in
  @in_sync codec w
  /\ (forall noteInput, @in_sync codec (@addNote codec env0 noteInput w).2)
  /\ (forall noteId updates, @in_sync codec (@updateNoteById codec env0 noteId updates w).2)
  /\ (forall noteId, @in_sync codec (@deleteNote codec noteId w).2)
  /\ @in_sync codec (@deleteAllNotes codec w).2
  /\ @in_sync codec (clearError w).2.
Proof.
  assert (Hs : @in_sync codec
                 (snd (@addNote codec env1 input1 (snd (@addNote codec env0 input0 device))))).
  { vm_compute. reflexivity. }
  split; [exact Hs|].
  exact (@write_through_is_kept codec env0 _ Hs).
Defined.

Lemma reload_restores_collection_witness :
  let w := snd (@addNote codec env1 input1 (snd (@addNote codec env0 input0 device))) in
  let restarted := with_asyncStorage (fun _ => asyncStorage w) device in
  @in_sync codec w
  /\ asyncStorage restarted = asyncStorage w
  /\ quiet 1 restarted = true
  /\ exists w',
       @loadNotes codec restarted = (Return tt, w')
       /\ notes (notesState w') = [createNote env1 input1; note0]
       /\ loading (notesState w') = false
       /\ error (notesState w') = None
       /\ asyncStorage w' = asyncStorage w.
Proof.
  assert (Hs : @in_sync codec
                 (snd (@addNote codec env1 input1 (snd (@addNote codec env0 input0 device))))).
  { vm_compute. reflexivity. }
  assert (Htext : @text_round_trips codec
                    (JArr (map (@Note_toJSON codec) [createNote env1 input1; note0]))).
  { split; [vm_compute; discriminate | vm_compute; reflexivity]. }
  assert (Hdates : Forall (@timestamps_round_trip codec) [createNote env1 input1; note0]).
  { repeat constructor; (eexists; split; [reflexivity | vm_compute; reflexivity]). }
  cbv zeta. split; [exact Hs|]. split; [reflexivity|]. split; [reflexivity|].
  exact (@reload_restores_collection codec _
           (with_asyncStorage
              (fun _ => asyncStorage
                          (snd (@addNote codec env1 input1
                                  (snd (@addNote codec env0 input0 device))))) device)
           Hs eq_refl eq_refl Htext Hdates).
Defined.

Lemma first_launch_loads_nothing_witness :
  quiet 1 device = true
  /\ (asyncStorage device !! NOTES_STORAGE_KEY = None
      \/ asyncStorage device !! NOTES_STORAGE_KEY = Some (lit ""))
  /\ exists w',
       @loadNotes codec device = (Return tt, w')
       /\ notes (notesState w') = []
       /\ loading (notesState w') = false
       /\ error (notesState w') = None
       /\ asyncStorage w' = asyncStorage device.
Proof.
  split; [reflexivity|]. split; [left; reflexivity|].
  exact (@first_launch_loads_nothing codec device eq_refl (or_introl eq_refl)).
Defined.

End StoreFacts.

(* ===================================================================== *)
(** ** Searching and listing *)
(* ===================================================================== *)

Module ViewFacts.
Import Js JsDate Runtime NoteUtils UseNotes ListScreen ViewSpec.
Import JsFacts TitleFacts NoteFacts.
Import Reference Samples Phones.

Lemma startsWith_spec s sub :
  startsWith s sub = true <-> exists after, s = sub ++ after.
Proof.
  revert s. induction sub as [|c sub IH]; intros s.
  - destruct s; (split; [intros _; eexists; reflexivity | reflexivity]).
  - destruct s as [|d s]; cbn.
    + split; [discriminate | intros (after & Habs); discriminate].
    + rewrite andb_true_iff, IH, N.eqb_eq. split.
      * intros (-> & after & ->). now exists after.
      * intros (after & [= -> ->]). split; [reflexivity | now exists after].
Qed.

(** [includes] decides that the string occurs. *)
Lemma includes_spec s sub : includes s sub = true <-> occurs_in sub s.
Proof.
  unfold occurs_in. induction s as [|d s IH].
  - cbn [includes]. rewrite orb_false_r, startsWith_spec. split.
    + intros (after & Hs). exists [], after. exact Hs.
    + intros (before & after & Hs). symmetry in Hs.
      apply app_eq_nil in Hs as [-> Hs]. exists after. now rewrite Hs.
  - cbn [includes]. rewrite orb_true_iff, IH, startsWith_spec. split.
    + intros [(after & Hs) | (before & after & Hs)].
      * exists [], after. exact Hs.
      * exists (d :: before), after. now rewrite Hs.
    + intros ([|b before] & after & Hs).
      * left. exists after. exact Hs.
      * right. injection Hs as -> Hs. now exists before, after.
Qed.

Section WithCaseMapping.
Context `{CaseMapping}.

Lemma filterNotes_blank notes searchTerm :
  trim searchTerm = [] -> filterNotes notes searchTerm = notes.
Proof. intros Hb. unfold filterNotes. now rewrite Hb. Qed.

Lemma filterNotes_elem notes searchTerm n :
  trim searchTerm <> [] ->
  n ∈ filterNotes notes searchTerm <-> n ∈ notes /\ matches searchTerm n.
Proof.
  intros Hb. unfold filterNotes, matches.
  apply falsy_false in Hb. rewrite Hb. cbv zeta.
  rewrite !list_elem_of_In, filter_In, orb_true_iff, !includes_spec. reflexivity.
Qed.

Lemma filterNotes_sublist notes searchTerm :
  filterNotes notes searchTerm `sublist_of` notes.
Proof.
  unfold filterNotes. destruct (falsy (trim searchTerm)); [reflexivity|]. cbv zeta.
  induction notes as [|n ns IH]; [constructor|]. cbn [List.filter].
  destruct (_ || _); [now apply sublist_skip | now apply sublist_cons].
Qed.

(** X11. [filterNotes]: a blank search term (empty, or nothing but white
    space) keeps every note. Any other term keeps exactly the notes in
    whose lower-cased title or content the lower-cased term occurs, the
    term taken as typed, blanks at its ends included. In either case the
    notes that are kept are in their old order, and filtering again with
    the same term changes nothing. *)
Theorem filterNotes_keeps_the_matches notes searchTerm :
  (trim searchTerm = [] -> filterNotes notes searchTerm = notes)
  /\ (trim searchTerm <> [] ->
      forall n, n ∈ filterNotes notes searchTerm <-> n ∈ notes /\ matches searchTerm n)
  /\ filterNotes notes searchTerm `sublist_of` notes
  /\ filterNotes (filterNotes notes searchTerm) searchTerm = filterNotes notes searchTerm.
Proof.
  split; [apply filterNotes_blank|].
  split; [intros Hb n; now apply filterNotes_elem|].
  split; [apply filterNotes_sublist|].
  unfold filterNotes. destruct (falsy (trim searchTerm)); [reflexivity|]. cbv zeta.
  induction notes as [|n ns IH]; [reflexivity|]. cbn [List.filter].
  destruct (_ || _) eqn:E; [|exact IH].
  cbn [List.filter]. rewrite E. now rewrite IH.
Qed.

End WithCaseMapping.

(** *** Buckets *)

Lemma insert_sorted_perm x l : insert_sorted x l ≡ₚ x :: l.
Proof.
  induction l as [|y r IH]; [reflexivity|]. simpl.
  destruct (goes_after x y); [|reflexivity].
  rewrite IH. apply Permutation_swap.
Qed.

Lemma sort_newest_first_perm l : sort_newest_first l ≡ₚ l.
Proof.
  induction l as [|x r IH]; [reflexivity|]. simpl.
  now rewrite insert_sorted_perm, IH.
Qed.

(** The five buckets, one after the other. *)
Lemma buckets_on_bucket category f cs :
  (forall l, f l ≡ₚ l) ->
  concat (map (fun c => bucket c (on_bucket category f cs)) CATEGORY_ORDER)
  ≡ₚ concat (map (fun c => bucket c cs) CATEGORY_ORDER).
Proof.
  intros Hf. destruct category; cbn; rewrite Hf; reflexivity.
Qed.

Lemma buckets_push category n cs :
  concat (map (fun c => bucket c (on_bucket category (fun l => l ++ [n]) cs)) CATEGORY_ORDER)
  ≡ₚ n :: concat (map (fun c => bucket c cs) CATEGORY_ORDER).
Proof.
  destruct category; cbn; solve_Permutation.
Qed.

Lemma categorize_each_perm categoryOf notes : forall i cs,
  concat (map (fun c => bucket c (categorize_each categoryOf i notes cs)) CATEGORY_ORDER)
  ≡ₚ concat (map (fun c => bucket c cs) CATEGORY_ORDER) ++ notes.
Proof.
  induction notes as [|n rest IH]; intros i cs; cbn [categorize_each].
  - now rewrite app_nil_r.
  - rewrite IH, buckets_push. cbn. apply Permutation_middle.
Qed.

Lemma bucket_categorizeNotes `{TimeZone} clock notes category :
  bucket category (categorizeNotes clock notes)
  = sort_newest_first
      (bucket category
         (categorize_each (fun i note => getDateCategory (clock i) (updatedAt note)) 0 notes
            {| cat_Today := []; cat_Yesterday := []; cat_ThisWeek := [];
               cat_ThisMonth := []; cat_Older := [] |})).
Proof. unfold categorizeNotes. cbv zeta. cbn [foldr]. now destruct category. Qed.

(** The buckets of [categorizeNotes], in the order of the screen, hold
    the notes it was given. *)
Lemma categorizeNotes_perm `{TimeZone} clock notes :
  concat (map (fun c => bucket c (categorizeNotes clock notes)) CATEGORY_ORDER) ≡ₚ notes.
Proof.
  unfold categorizeNotes. cbv zeta. cbn [foldr].
  rewrite !buckets_on_bucket by apply sort_newest_first_perm.
  now rewrite categorize_each_perm.
Qed.

(** X12. [categorizeNotes] loses no note and lists none twice: its five
    lists together hold the notes it was given, as often as they were
    given. A note is in the list of the category [getDateCategory]
    answered for its [updatedAt] when its turn came. *)
Theorem categorizeNotes_is_a_partition `{TimeZone} (clock : nat -> Z) (notes : list Note) :
  let c := categorizeNotes clock notes in
  cat_Today c ++ cat_Yesterday c ++ cat_ThisWeek c ++ cat_ThisMonth c ++ cat_Older c
  ≡ₚ notes
  /\ forall category n,
       n ∈ bucket category c ->
       exists j, notes !! j = Some n
                 /\ getDateCategory (clock j) (updatedAt n) = category.
Proof.
  cbv zeta. split.
  - rewrite <- (categorizeNotes_perm clock notes) at 6.
    cbn [map concat CATEGORY_ORDER bucket]. now rewrite app_nil_r.
  - intros category n Hn. now apply categorizeNotes_elem.
Qed.

Lemma Forall_insert_sorted (P : Note -> Prop) x l :
  P x -> Forall P l -> Forall P (insert_sorted x l).
Proof.
  intros Hx Hl. apply Forall_forall. intros n Hn.
  apply insert_sorted_elem in Hn as [-> | Hn]; [exact Hx|].
  rewrite Forall_forall in Hl. now apply Hl.
Qed.

Lemma insert_sorted_sorted x l :
  updatedAt x <> NaN -> Forall (fun n => updatedAt n <> NaN) l ->
  StronglySorted not_older l -> StronglySorted not_older (insert_sorted x l).
Proof.
  intros Hx Hl Hs. induction Hs as [|y r Hr IH Hy]; simpl.
  - repeat constructor.
  - inversion Hl as [|? ? Hvy Hvr]; subst.
    unfold goes_after, compareNotes, num_sub, getTime.
    destruct (updatedAt x) as [tx|] eqn:Ex; [|contradiction].
    destruct (updatedAt y) as [ty|] eqn:Ey; [|contradiction].
    destruct (Z.ltb_spec 0 (ty - tx)) as [Hlt | Hge].
    + constructor; [now apply IH|].
      apply Forall_insert_sorted; [|exact Hy].
      unfold not_older. rewrite Ex, Ey. lia.
    + constructor; [now constructor|].
      constructor.
      * unfold not_older. rewrite Ex, Ey. lia.
      * eapply Forall_impl; [exact Hy|]. intros n. unfold not_older.
        rewrite Ex, Ey. destruct (updatedAt n); [lia | tauto].
Qed.

Lemma sort_newest_first_sorted l :
  Forall (fun n => updatedAt n <> NaN) l ->
  StronglySorted not_older (sort_newest_first l).
Proof.
  induction 1 as [|x r Hx Hr IH]; simpl; [constructor|].
  apply insert_sorted_sorted; [exact Hx | | exact IH].
  apply Forall_forall. intros n Hn.
  apply (proj1 (sort_newest_first_elem _ _)) in Hn.
  rewrite Forall_forall in Hr. exact (Hr n Hn).
Qed.

(** X13. When every note has a valid [updatedAt], each list
    [categorizeNotes] returns is sorted newest first: no note comes
    before one that was updated later. *)
Theorem buckets_newest_first `{TimeZone} (clock : nat -> Z) (notes : list Note) :
  Forall (fun n => updatedAt n <> NaN) notes ->
  forall category,
    StronglySorted not_older (bucket category (categorizeNotes clock notes)).
Proof.
  intros Hvalid category. rewrite bucket_categorizeNotes.
  apply sort_newest_first_sorted. apply Forall_forall. intros n Hn.
  apply categorize_each_elem in Hn as [Hn | (j & Hj & _)].
  - destruct category; cbn in Hn; now apply elem_of_nil in Hn.
  - rewrite Forall_forall in Hvalid. apply list_elem_of_lookup_2 in Hj.
    exact (Hvalid n Hj).
Qed.

Lemma buckets_newest_first_witness :
  Forall (fun n => updatedAt n <> NaN) [evening_note; april_note; night_note]
  /\ bucket Yesterday
       (@categorizeNotes (fixed_offset 3600000) (fun _ => 1730070060000)
          [evening_note; april_note; night_note])
     = [night_note; evening_note]
  /\ forall category,
       StronglySorted not_older
         (bucket category
            (@categorizeNotes (fixed_offset 3600000) (fun _ => 1730070060000)
               [evening_note; april_note; night_note])).
Proof.
  assert (Hvalid : Forall (fun n => updatedAt n <> NaN)
                     [evening_note; april_note; night_note]).
  { repeat constructor; discriminate. }
  split; [exact Hvalid|]. split; [vm_compute; reflexivity|].
  exact (@buckets_newest_first (fixed_offset 3600000) (fun _ => 1730070060000) _ Hvalid).
Defined.

Lemma hasNotes_false c :
  hasNotes c = false ->
  concat (map (fun category => bucket category c) CATEGORY_ORDER) = [].
Proof.
  unfold hasNotes. destruct c as [a b c d e]. cbn.
  intros Hnone. repeat (apply orb_false_iff in Hnone as [? Hnone]).
  destruct a, b, c, d, e; try discriminate. reflexivity.
Qed.

Lemma renderedNotes_buckets c :
  renderedNotes c = concat (map (fun category => bucket category c) CATEGORY_ORDER).
Proof.
  unfold renderedNotes. destruct (hasNotes c) eqn:Hh.
  - f_equal. apply map_ext. intros category. unfold renderCategory. cbv zeta.
    now destruct (bucket category c).
  - symmetry. now apply hasNotes_false.
Qed.

(** X14. What the start screen lists: the hook filters the notes of its
    state by the search term and buckets the result, and the screen
    renders the buckets in its fixed order. Every note that passes the
    filter is rendered once, none is rendered that is not in the state,
    and with a blank search term the notes of the state are all rendered.
    [hasNotes], which decides between the list and the empty-state text,
    is false exactly when no note passes the filter. *)
Theorem screen_lists_each_match_once `{CaseMapping} `{TimeZone}
    (clock : nat -> Z) (st : NotesState) (searchTerm : jstring) :
  let shown := renderedNotes (categorizedNotes clock st searchTerm) in
  shown ≡ₚ filteredNotes st searchTerm
  /\ (forall n, n ∈ shown -> n ∈ notes st)
  /\ (trim searchTerm = [] -> shown ≡ₚ notes st)
  /\ (hasNotes (categorizedNotes clock st searchTerm) = false
      <-> filteredNotes st searchTerm = []).
Proof.
  cbv zeta. unfold categorizedNotes.
  assert (Hperm : renderedNotes (categorizeNotes clock (filteredNotes st searchTerm))
                  ≡ₚ filteredNotes st searchTerm).
  { rewrite renderedNotes_buckets. apply categorizeNotes_perm. }
  split; [exact Hperm|]. split; [|split].
  - intros n Hn. rewrite Hperm in Hn. unfold filteredNotes in Hn.
    eapply elem_of_sublist; [exact Hn | apply filterNotes_sublist].
  - intros Hb. rewrite Hperm. unfold filteredNotes. now rewrite filterNotes_blank.
  - rewrite renderedNotes_buckets in Hperm. split.
    + intros Hnone. apply Permutation_nil_r. rewrite <- Hperm.
      now rewrite hasNotes_false.
    + intros Hempty. rewrite Hempty. reflexivity.
Qed.

(** The search at work: case is ignored, and a blank term keeps all. *)
Example search_by_word :
  @filterNotes ascii_lowercase [createNote env1 input1; note0] (lit "MILK") = [note0]
  /\ @filterNotes ascii_lowercase [createNote env1 input1; note0] (lit "  ")
     = [createNote env1 input1; note0].
Proof. vm_compute. split; reflexivity. Qed.

End ViewFacts.

(* ===================================================================== *)
(** ** Date buckets in general *)
(* ===================================================================== *)

Module BucketFacts.
Import Js JsDate Runtime NoteUtils DateSpec.
Import NoteFacts DateFacts.
Import Reference Samples.

(** The calendar fields of an instant depend on its day only. *)
Lemma fields_of_day a b :
  Day a = Day b ->
  YearFromTime a = YearFromTime b
  /\ MonthFromTime a = MonthFromTime b
  /\ DateFromTime a = DateFromTime b.
Proof.
  intros Hd.
  assert (Hy : YearFromTime a = YearFromTime b) by (unfold YearFromTime; now rewrite Hd).
  assert (Hw : DayWithinYear a = DayWithinYear b)
    by (unfold DayWithinYear; now rewrite Hd, Hy).
  assert (Hl : InLeapYear a = InLeapYear b) by (unfold InLeapYear; now rewrite Hy).
  assert (Hm : MonthFromTime a = MonthFromTime b)
    by (unfold MonthFromTime; now rewrite Hw, Hl).
  split; [exact Hy|]. split; [exact Hm|].
  unfold DateFromTime. now rewrite Hw, Hm, Hl.
Qed.

Section AnyZone.
Context `{TimeZone}.

(** X15. In every time zone, daylight saving or not, a note updated on
    the local calendar day of the clock is in Today, as long as the local
    midnight of that day is a valid date. In particular a note is in
    Today at the instant it is created. *)
Theorem same_local_day_is_today (clock t : Z) :
  Day (LocalTime clock) = Day (LocalTime t) ->
  Date_ymd (getFullYear (Some clock)) (getMonth (Some clock)) (getDate (Some clock)) <> NaN ->
  getDateCategory clock (Some t) = Today
  /\ forall env noteInput,
       new_Date env = clock ->
       getDateCategory clock (updatedAt (createNote env noteInput)) = Today.
Proof.
  intros Hday Hvalid.
  assert (Hsame : forall u, Day (LocalTime clock) = Day (LocalTime u) ->
                            getDateCategory clock (Some u) = Today).
  { intros u Hu. destruct (fields_of_day _ _ Hu) as (Hy & Hm & Hd).
    unfold getDateCategory. cbv zeta.
    change (getFullYear (Some u)) with (Some (YearFromTime (LocalTime u))).
    change (getMonth (Some u)) with (Some (MonthFromTime (LocalTime u))).
    change (getDate (Some u)) with (Some (DateFromTime (LocalTime u))).
    change (getFullYear (Some clock)) with (Some (YearFromTime (LocalTime clock))) in *.
    change (getMonth (Some clock)) with (Some (MonthFromTime (LocalTime clock))) in *.
    change (getDate (Some clock)) with (Some (DateFromTime (LocalTime clock))) in *.
    rewrite <- Hy, <- Hm, <- Hd.
    destruct (Date_ymd _ _ _) as [midnight|]; [|contradiction].
    unfold getTime, num_sub, ceil_div. cbn [fmap option_fmap option_map].
    rewrite Z.sub_diag. reflexivity. }
  split; [now apply Hsame|].
  intros env noteInput <-. cbn [updatedAt createNote]. now apply Hsame.
Qed.

(** X16. A note whose [updatedAt] is an Invalid Date is filed under
    Older, at any time and in any zone: every comparison with its
    difference in days is false. *)
Theorem invalid_date_is_older (clock : nat -> Z) (notes : list Note) (n : Note) :
  n ∈ notes ->
  updatedAt n = NaN ->
  (forall now, getDateCategory now (updatedAt n) = Older)
  /\ n ∈ cat_Older (categorizeNotes clock notes).
Proof.
  intros Hin Hnan.
  assert (Holder : forall now, getDateCategory now (updatedAt n) = Older).
  { intros now. rewrite Hnan. unfold getDateCategory. cbv zeta.
    change (getFullYear NaN) with NaN. change (getMonth NaN) with NaN.
    change (getDate NaN) with NaN. change (Date_ymd NaN NaN NaN) with NaN.
    destruct (Date_ymd _ _ _); reflexivity. }
  split; [exact Holder|].
  apply list_elem_of_lookup_1 in Hin as (j & Hj).
  apply (categorizeNotes_elem clock notes Older n). exists j. split; [exact Hj|].
  apply Holder.
Qed.

Variable offset : Z.
Hypothesis constant_offset : forall t isUTC, LocalTZA t isUTC = offset.

(** X17. In a zone that keeps one offset from UTC, the bucket follows
    the calendar: with [d] the number of local calendar days from the
    note's date to today, the note is in Today exactly when [d] is 0, in
    Yesterday when it is 1, in This week when it is 2 to 7 or negative (a
    note dated after today), in This month when it is 8 to 30, and in
    Older beyond. *)
Theorem buckets_follow_the_calendar (clock t : Z) :
  plainDay offset clock -> plainDay offset t ->
  let d := calendarDiffDays clock t in
  let category := getDateCategory clock (Some t) in
  (category = Today <-> d = 0)
  /\ (category = Yesterday <-> d = 1)
  /\ (category = ThisWeek <-> d < 0 \/ 2 <= d <= 7)
  /\ (category = ThisMonth <-> 8 <= d <= 30)
  /\ (category = Older <-> 30 < d).
Proof.
  intros Hc Ht. cbv zeta.
  rewrite (getDateCategory_fixed_offset offset constant_offset clock t Hc Ht).
  unfold categoryOfDiff. generalize (calendarDiffDays clock t). intros d.
  destruct (Z.eqb_spec d 0); [repeat split; try discriminate; lia|].
  destruct (Z.eqb_spec d 1); [repeat split; try discriminate; lia|].
  destruct (Z.leb_spec d 7); [repeat split; try discriminate; lia|].
  destruct (Z.leb_spec d 30); repeat split; try discriminate; lia.
Qed.

End AnyZone.

Lemma same_local_day_is_today_witness :
  Day (@LocalTime cet_2024 1730070060000) = Day (@LocalTime cet_2024 1730112000000)
  /\ @Date_ymd cet_2024 (@getFullYear cet_2024 (Some 1730070060000))
       (@getMonth cet_2024 (Some 1730070060000))
       (@getDate cet_2024 (Some 1730070060000)) <> NaN
  /\ @getDateCategory cet_2024 1730070060000 (Some 1730112000000) = Today
  /\ forall env noteInput,
       new_Date env = 1730070060000 ->
       @getDateCategory cet_2024 1730070060000 (updatedAt (createNote env noteInput)) = Today.
Proof.
  assert (Hday : Day (@LocalTime cet_2024 1730070060000)
                 = Day (@LocalTime cet_2024 1730112000000)) by (vm_compute; reflexivity).
  assert (Hvalid : @Date_ymd cet_2024 (@getFullYear cet_2024 (Some 1730070060000))
                     (@getMonth cet_2024 (Some 1730070060000))
                     (@getDate cet_2024 (Some 1730070060000)) <> NaN)
    by (vm_compute; discriminate).
  split; [exact Hday|]. split; [exact Hvalid|].
  exact (@same_local_day_is_today cet_2024 1730070060000 1730112000000 Hday Hvalid).
Defined.

Lemma invalid_date_is_older_witness :
  undated_note ∈ [note0; undated_note]
  /\ updatedAt undated_note = NaN
  /\ (forall now, @getDateCategory cet_2024 now (updatedAt undated_note) = Older)
  /\ undated_note ∈ cat_Older (@categorizeNotes cet_2024 (fun _ => 1730070060000)
                                 [note0; undated_note]).
Proof.
  assert (Hin : undated_note ∈ [note0; undated_note])
    by (apply elem_of_cons; right; apply list_elem_of_singleton; reflexivity).
  split; [exact Hin|]. split; [reflexivity|].
  exact (@invalid_date_is_older cet_2024 (fun _ => 1730070060000)
           [note0; undated_note] undated_note Hin eq_refl).
Defined.

Lemma buckets_follow_the_calendar_witness :
  (forall t isUTC, @LocalTZA (fixed_offset 3600000) t isUTC = 3600000)
  /\ plainDay 3600000 1730070060000
  /\ plainDay 3600000 1729500000000
  /\ @calendarDiffDays (fixed_offset 3600000) 1730070060000 1729500000000 = 7
  /\ let category := @getDateCategory (fixed_offset 3600000) 1730070060000 (Some 1729500000000) in
     (category = Today <-> 7 = 0)
     /\ (category = Yesterday <-> 7 = 1)
     /\ (category = ThisWeek <-> 7 < 0 \/ 2 <= 7 <= 7)
     /\ (category = ThisMonth <-> 8 <= 7 <= 30)
     /\ (category = Older <-> 30 < 7).
Proof.
  assert (Hc : plainDay 3600000 1730070060000).
  { split; vm_compute; [intros [_ Hle]; apply Hle; reflexivity | discriminate]. }
  assert (Ht : plainDay 3600000 1729500000000).
  { split; vm_compute; [intros [_ Hle]; apply Hle; reflexivity | discriminate]. }
  split; [reflexivity|]. split; [exact Hc|]. split; [exact Ht|].
  split; [vm_compute; reflexivity|].
  exact (@buckets_follow_the_calendar (fixed_offset 3600000) 3600000
           (fun _ _ => eq_refl) 1730070060000 1729500000000 Hc Ht).
Defined.

End BucketFacts.

(* ===================================================================== *)
(** ** The model service *)
(* ===================================================================== *)

Module ModelFacts.
Import Js Runtime ModelDownload Gate ModelSpec GateSpec.
Import RuntimeFacts GateFacts.
Import Reference Samples Phones.

(** *** What a call leaves alone *)

Section Respects.
Variable R : App -> App -> Prop.
Hypothesis R_refl : forall w, R w w.
Hypothesis R_trans : forall w1 w2 w3, R w1 w2 -> R w2 w3 -> R w1 w3.
Hypothesis R_faults : forall l w, R w (with_faults l w).

Lemma respects_ret {A} (a : A) : respects R (ret a).
Proof. intros w. split; [discriminate | apply R_refl]. Qed.

Lemma respects_throw {A} e : respects R (@throw A e).
Proof. intros w. split; [discriminate | apply R_refl]. Qed.

Lemma respects_get {A} (f : App -> A) : respects R (get f).
Proof. intros w. split; [discriminate | apply R_refl]. Qed.

Lemma respects_modify f : (forall w, R w (f w)) -> respects R (modify f).
Proof. intros Hf w. split; [discriminate | apply Hf]. Qed.

Lemma respects_bind {A B} (m : IO A) (k : A -> IO B) :
  respects R m -> (forall a, respects R (k a)) -> respects R (bind m k).
Proof.
  intros Hm Hk w. unfold bind. destruct (Hm w) as [Hr Hw].
  destruct (m w) as [[a|e|] w1]; cbn in *.
  - destruct (Hk a w1) as [Hr' Hw']. split; [exact Hr' | now apply (R_trans _ w1)].
  - split; [discriminate | exact Hw].
  - contradiction.
Qed.

Lemma respects_try_catch {A} (body : IO A) handler :
  respects R body -> (forall e, respects R (handler e)) ->
  respects R (try_catch body handler).
Proof.
  intros Hm Hk w. unfold try_catch. destruct (Hm w) as [Hr Hw].
  destruct (body w) as [[a|e|] w1]; cbn in *.
  - split; [discriminate | exact Hw].
  - destruct (Hk e w1) as [Hr' Hw']. split; [exact Hr' | now apply (R_trans _ w1)].
  - contradiction.
Qed.

Lemma respects_platform_call {A} (effect : IO A) :
  respects R effect -> respects R (platform_call effect).
Proof.
  intros He w. unfold platform_call. destruct (faults w) as [|[m|] rest].
  - apply He.
  - split; [discriminate | apply R_faults].
  - destruct (He (with_faults rest w)) as [Hr Hw].
    split; [exact Hr | exact (R_trans _ _ _ (R_faults rest w) Hw)].
Qed.

Lemma respects_progress (onProgress : Z * Z -> IO unit) ps :
  (forall p, respects R (onProgress p)) ->
  respects R (foldr (fun p k => onProgress p;; k) (ret tt) ps).
Proof.
  intros Hp. induction ps as [|p ps IH]; [apply respects_ret|].
  cbn [foldr]. apply respects_bind; [apply Hp | intros _; exact IH].
Qed.

End Respects.

Lemma same_verdict_refl w : same_verdict w w.
Proof. now repeat split. Qed.

Lemma same_verdict_trans w1 w2 w3 :
  same_verdict w1 w2 -> same_verdict w2 w3 -> same_verdict w1 w3.
Proof.
  unfold same_verdict. intros (? & ? & ? & ? & ? & ? & ?) (? & ? & ? & ? & ? & ? & ?).
  repeat split; congruence.
Qed.

Lemma same_verdict_faults l w : same_verdict w (with_faults l w).
Proof. now destruct w. Qed.

(** Applies the rules of [respects] to a call of the service. *)
Ltac respects_verdict :=
  repeat first
    [ apply (respects_bind _ same_verdict_trans)
    | apply (respects_try_catch _ same_verdict_trans)
    | apply (respects_platform_call _ same_verdict_trans same_verdict_faults)
    | apply (respects_ret _ same_verdict_refl)
    | apply (respects_throw _ same_verdict_refl)
    | apply (respects_get _ same_verdict_refl)
    | apply respects_modify; intros []; now repeat split
    | match goal with |- forall _, _ => intro end
    | match goal with
      | |- respects _ (if ?b then _ else _) => destruct b
      | |- respects _ (match ?x with _ => _ end) => destruct x
      end ].

Lemma isModelAvailable_verdict : respects same_verdict isModelAvailable.
Proof.
  unfold isModelAvailable, FileSystem_getInfoAsync, FileSystem_deleteAsync,
    AsyncStorage_getItem, AsyncStorage_removeItem.
  unfold mbind, mret, IO_bind, IO_ret. respects_verdict.
Qed.

Lemma show_progress_verdict p : respects same_verdict (show_progress p).
Proof. intros w. split; [discriminate | now destruct w]. Qed.

Lemma show_progress_screen_only : screen_only show_progress.
Proof. intros p w. eexists. split; [reflexivity | now destruct w]. Qed.

Lemma downloadModel_verdict onProgress :
  (forall p, respects same_verdict (onProgress p)) ->
  respects same_verdict (downloadModel onProgress).
Proof.
  intros Hp. unfold downloadModel, downloadAsync, FileSystem_getInfoAsync,
    FileSystem_deleteAsync, AsyncStorage_setItem, AsyncStorage_removeItem.
  unfold mbind, mret, IO_bind, IO_ret.
  repeat first
    [ apply isModelAvailable_verdict
    | apply (respects_progress _ same_verdict_refl same_verdict_trans); exact Hp
    | progress respects_verdict ].
Qed.

(** When the check answers [true] it has read, and written nothing. *)
Lemma isModelAvailable_true_reads w w' :
  isModelAvailable w = (Return true, w') -> only_faults_differ w w'.
Proof.
  unfold only_faults_differ, isModelAvailable, FileSystem_getInfoAsync,
    FileSystem_deleteAsync, AsyncStorage_getItem, AsyncStorage_removeItem, platform_call.
  io_unfold. destruct (unsupported w) eqn:Hu; [discriminate|].
  destruct w as [web fs st file fl tr ns gs].
  fault_cases; try discriminate; intros [= _ <-]; reflexivity.
Qed.

Lemma installed_only_faults_differ w w' :
  only_faults_differ w w' -> installed w -> installed w'.
Proof. unfold only_faults_differ. intros ->. now destruct w. Qed.

(** With the model in place and three calls that go through, the check
    answers [true]. *)
Lemma isModelAvailable_installed w :
  unsupported w = false -> installed w -> quiet 3 w = true ->
  isModelAvailable w = (Return true, advance (advance (advance w))).
Proof.
  intros Hu (Hfile & Hver & Hflag) Hq.
  unfold isModelAvailable, FileSystem_getInfoAsync, AsyncStorage_getItem.
  io_unfold. rewrite Hu.
  destruct (platform_call_quiet (fun w0 => (Return (modelFileExists w0), w0)) 2 w Hq)
    as [-> Hq1].
  replace (modelFileExists (advance w)) with true by (rewrite <- Hfile; now destruct w).
  cbn [negb].
  destruct (platform_call_quiet
              (fun w0 => (Return (asyncStorage w0 !! MODEL_VERSION_KEY), w0)) 1 _ Hq1)
    as [-> Hq2].
  replace (asyncStorage (advance (advance w)) !! MODEL_VERSION_KEY)
    with (Some CURRENT_MODEL_VERSION) by (rewrite <- Hver; now destruct w).
  rewrite bool_decide_eq_true_2 by reflexivity. cbn [negb].
  destruct (platform_call_quiet
              (fun w0 => (Return (asyncStorage w0 !! MODEL_STORAGE_KEY), w0)) 0 _ Hq2)
    as [-> _].
  replace (asyncStorage (advance (advance (advance w))) !! MODEL_STORAGE_KEY)
    with (Some (lit "true")) by (rewrite <- Hflag; now destruct w).
  now rewrite bool_decide_eq_true_2 by reflexivity.
Qed.

(** X18. [isModelAvailable] never throws. It answers [true] only when
    the platform has a file system, the asset file exists, the version tag
    is the current one and the installed flag is set, and then it has
    written nothing; with these in place and its three reads going
    through, [true] is what it answers. On the web, or without a file
    system, it answers [false] without a platform call. *)
Theorem isModelAvailable_answers w :
  (exists b w', isModelAvailable w = (Return b, w'))
  /\ (forall w', isModelAvailable w = (Return true, w') ->
        unsupported w = false /\ installed w /\ only_faults_differ w w')
  /\ (unsupported w = false -> installed w -> quiet 3 w = true ->
      fst (isModelAvailable w) = Return true)
  /\ (unsupported w = true -> isModelAvailable w = (Return false, w)).
Proof.
  split; [apply isModelAvailable_returns|]. split; [|split].
  - intros w' Hrun. pose proof (isModelAvailable_true w w' Hrun) as (Hu & Hi).
    split; [exact Hu|]. split; [exact Hi|]. now apply isModelAvailable_true_reads.
  - intros Hu Hi Hq. now rewrite (isModelAvailable_installed w Hu Hi Hq).
  - intros Hu. unfold isModelAvailable. io_unfold. now rewrite Hu.
Qed.

(** X19. With the model in place [downloadModel] downloads nothing: when
    the check it starts with answers [true] it returns at once, in the
    state the check left, without asking the transport and without calling
    the progress callback. *)
Theorem download_skips_installed_model onProgress w w' :
  isModelAvailable w = (Return true, w') ->
  downloadModel onProgress w = (Return tt, w')
  /\ only_faults_differ w w'.
Proof.
  intros Hrun. pose proof (isModelAvailable_true w w' Hrun) as (Hu & _).
  split; [|now apply isModelAvailable_true_reads].
  unfold downloadModel. io_unfold. now rewrite Hu, Hrun.
Qed.


(** *** Downloads when no platform call rejects *)

Lemma platform_call_no_faults {A} (effect : IO A) w :
  faults w = [] -> platform_call effect w = effect w.
Proof. intros Hf. unfold platform_call. now rewrite Hf. Qed.

Lemma isModelAvailable_no_faults w :
  faults w = [] -> unsupported w = false ->
  exists b w1,
    isModelAvailable w = (Return b, w1)
    /\ faults w1 = []
    /\ unsupported w1 = false
    /\ transport w1 = transport w
    /\ gateState w1 = gateState w
    /\ (b = true -> w1 = w).
Proof.
  intros Hf Hu.
  unfold isModelAvailable, FileSystem_getInfoAsync, FileSystem_deleteAsync,
    AsyncStorage_getItem, AsyncStorage_removeItem, platform_call.
  io_unfold. rewrite Hu.
  destruct w as [web fs st file fl tr ns gs]. cbn in Hf, Hu. subst fl.
  fault_cases; eexists _, _; (split; [reflexivity|]); cbn;
    repeat split; try assumption; try reflexivity; discriminate.
Qed.

Lemma progress_screen_only onProgress ps :
  screen_only onProgress ->
  forall w, exists w',
    foldr (fun p k => onProgress p;; k) (ret tt) ps w = (Return tt, w')
    /\ same_platform w w'.
Proof.
  intros Hp. induction ps as [|p ps IH]; intros w.
  - exists w. split; [reflexivity | now repeat split].
  - cbn [foldr]. io_unfold.
    destruct (Hp p w) as (w1 & -> & H1). destruct (IH w1) as (w2 & -> & H2).
    exists w2. split; [reflexivity|].
    destruct H1 as (? & ? & ? & ? & ? & ?), H2 as (? & ? & ? & ? & ? & ?).
    repeat split; congruence.
Qed.

(** What the transport leaves behind. *)
Lemma downloadAsync_runs onProgress w :
  screen_only onProgress ->
  exists w',
    downloadAsync onProgress w
    = (match dl_outcome (transport w) with
       | DownloadRejects m => Throw (Rejected m)
       | DownloadNoResult => Return None
       | DownloadCompletes => Return (Some tt)
       end, w')
    /\ same_platform
         (with_modelFileExists (dl_fileWritten (transport w) || modelFileExists w) w) w'.
Proof.
  intros Hp. unfold downloadAsync.
  destruct (progress_screen_only onProgress (dl_progress (transport w)) Hp
              (with_modelFileExists (dl_fileWritten (transport w) || modelFileExists w) w))
    as (w' & Hev & Hsame).
  revert Hev. generalize (foldr (fun p k => onProgress p;; k) (ret tt)). intros events Hev.
  io_unfold. rewrite Hev.
  exists w'. split; [|exact Hsame].
  now destruct (dl_outcome (transport w)).
Qed.

(** A download that completes and leaves the file puts the model in
    place. *)
Lemma downloadModel_installs onProgress w :
  unsupported w = false -> faults w = [] -> screen_only onProgress ->
  dl_outcome (transport w) = DownloadCompletes ->
  dl_fileWritten (transport w) = true ->
  exists w',
    downloadModel onProgress w = (Return tt, w')
    /\ installed w' /\ faults w' = [] /\ unsupported w' = false.
Proof.
  intros Hu Hf Hp Hout Hfile.
  destruct (isModelAvailable_no_faults w Hf Hu) as (b & w1 & Hrun & Hf1 & Hu1 & Htr & _ & Hsame).
  unfold downloadModel. io_unfold. rewrite Hu, Hrun.
  destruct b.
  - rewrite (Hsame eq_refl) in *. exists w.
    split; [reflexivity|]. split; [|now split].
    now apply (isModelAvailable_true w w Hrun).
  - destruct (downloadAsync_runs onProgress w1 Hp) as (w2 & -> & Hplat).
    rewrite Htr, Hout, Hfile in *. cbn [orb] in Hplat.
    destruct Hplat as (Hweb & Hfs & Hst & Hex & Hf2 & Htr2).
    assert (Hf2' : faults w2 = []) by (rewrite Hf2, <- Hf1; now destruct w1).
    unfold FileSystem_getInfoAsync, AsyncStorage_setItem.
    rewrite (platform_call_no_faults _ w2 Hf2').
    unfold get at 1. cbn [fst snd].
    replace (modelFileExists w2) with true by (rewrite Hex; now destruct w1).
    cbn [negb].
    rewrite (platform_call_no_faults _ w2 Hf2'). unfold modify at 1.
    rewrite platform_call_no_faults by (rewrite <- Hf2'; now destruct w2).
    unfold modify. eexists. split; [reflexivity|].
    split; [|split].
    + split; [|split].
      * destruct w2. cbn in *. rewrite Hex. now destruct w1.
      * destruct w2. cbn. apply lookup_insert_eq.
      * destruct w2. cbn. rewrite lookup_insert_ne by discriminate. apply lookup_insert_eq.
    + rewrite <- Hf2'. now destruct w2.
    + unfold unsupported in *. destruct w2, w1. cbn in *. subst. exact Hu1.
Qed.


(** X20. When no platform call rejects and the transport completes and
    leaves the file, [downloadModel] returns with the model in place: the
    file exists, the installed flag is set and the version tag is the
    current one, whatever was stored before (a stale model is replaced).
    [isModelAvailable] then answers [true]. The progress callback may do
    to the screens what it likes. *)
Theorem download_puts_model_in_place onProgress w :
  unsupported w = false -> faults w = [] -> screen_only onProgress ->
  dl_outcome (transport w) = DownloadCompletes ->
  dl_fileWritten (transport w) = true ->
  exists w',
    downloadModel onProgress w = (Return tt, w')
    /\ installed w'
    /\ isModelAvailable w' = (Return true, w').
Proof.
  intros Hu Hf Hp Hout Hfile.
  destruct (downloadModel_installs onProgress w Hu Hf Hp Hout Hfile)
    as (w' & Hrun & Hi & Hf' & Hu').
  exists w'. split; [exact Hrun|]. split; [exact Hi|].
  rewrite (isModelAvailable_installed w' Hu' Hi (quiet_nil 3 w' Hf')).
  now rewrite !(advance_nil w' Hf').
Qed.

(** The [catch] of [downloadModel]: the partial download and the flag
    are removed, and the error is thrown again. *)
Lemma cleanup_then_throw (e : exn) w :
  faults w = [] ->
  exists w',
    (try_catch (FileSystem_deleteAsync;; AsyncStorage_removeItem MODEL_STORAGE_KEY)
       (fun cleanupError => ret tt);; @throw unit e) w
    = (Throw e, w')
    /\ modelFileExists w' = false
    /\ asyncStorage w' !! MODEL_STORAGE_KEY = None.
Proof.
  intros Hf. unfold FileSystem_deleteAsync, AsyncStorage_removeItem. io_unfold.
  rewrite (platform_call_no_faults _ w Hf).
  rewrite platform_call_no_faults by (rewrite <- Hf; now destruct w).
  eexists. split; [reflexivity|].
  destruct w. cbn. split; [reflexivity | apply lookup_delete_eq].
Qed.

(** A download that does not complete: the error is thrown again after
    the cleanup. *)
Lemma downloadModel_fails onProgress w :
  unsupported w = false -> faults w = [] -> screen_only onProgress ->
  fst (isModelAvailable w) = Return false ->
  dl_outcome (transport w) <> DownloadCompletes ->
  exists w',
    downloadModel onProgress w
    = (Throw match dl_outcome (transport w) with
             | DownloadRejects m => Rejected m
             | _ => Error "Download failed - no result returned"
             end, w')
    /\ modelFileExists w' = false
    /\ asyncStorage w' !! MODEL_STORAGE_KEY = None.
Proof.
  intros Hu Hf Hp Hno Hout.
  destruct (isModelAvailable_no_faults w Hf Hu) as (b & w1 & Hrun & Hf1 & Hu1 & Htr & _ & _).
  rewrite Hrun in Hno. injection Hno as ->.
  unfold downloadModel. io_unfold. rewrite Hu, Hrun.
  destruct (downloadAsync_runs onProgress w1 Hp) as (w2 & -> & Hplat).
  rewrite Htr in *.
  destruct Hplat as (Hweb & Hfs & Hst & Hex & Hf2 & Htr2).
  assert (Hf2' : faults w2 = []) by (rewrite Hf2, <- Hf1; now destruct w1).
  destruct (dl_outcome (transport w)) as [m| |]; [| |contradiction];
    exact (cleanup_then_throw _ w2 Hf2').
Qed.

(** Without the asset file the check answers [false] and changes
    nothing. *)
Lemma isModelAvailable_no_file w :
  faults w = [] -> unsupported w = false -> modelFileExists w = false ->
  isModelAvailable w = (Return false, w).
Proof.
  intros Hf Hu Hfile. unfold isModelAvailable, FileSystem_getInfoAsync. io_unfold.
  rewrite Hu, (platform_call_no_faults _ w Hf). now rewrite Hfile.
Qed.

(** X21. When the model is not in place and the transport rejects or
    resolves to nothing, [downloadModel] throws the transport's own
    rejection, or ["Download failed - no result returned"], after it has
    cleaned up: with no platform call rejecting, the file is gone, partial
    download included, and the installed flag is removed. *)
Theorem failed_download_cleans_up onProgress w :
  unsupported w = false -> faults w = [] -> screen_only onProgress ->
  fst (isModelAvailable w) = Return false ->
  dl_outcome (transport w) <> DownloadCompletes ->
  exists w',
    downloadModel onProgress w
    = (Throw match dl_outcome (transport w) with
             | DownloadRejects m => Rejected m
             | _ => Error "Download failed - no result returned"
             end, w')
    /\ modelFileExists w' = false
    /\ asyncStorage w' !! MODEL_STORAGE_KEY = None.
Proof. apply downloadModel_fails. Qed.

(** X22. [deleteModel] refuses on the web or without a file system, with
    no platform call. When it returns, the file is gone and the installed
    flag and the version tag are removed, and [isModelAvailable] answers
    [false] from then on, whatever the platform does. *)
Theorem deleted_model_is_unavailable w :
  (unsupported w = true ->
   deleteModel w = (Throw (Error "Model deletion not supported on web platform"), w))
  /\ (forall w',
        deleteModel w = (Return tt, w') ->
        modelFileExists w' = false
        /\ asyncStorage w' !! MODEL_STORAGE_KEY = None
        /\ asyncStorage w' !! MODEL_VERSION_KEY = None
        /\ fst (isModelAvailable w') = Return false).
Proof.
  split.
  - intros Hu. unfold deleteModel. io_unfold. now rewrite Hu.
  - intros w' Hrun.
    assert (Hgone : modelFileExists w' = false
                    /\ asyncStorage w' !! MODEL_STORAGE_KEY = None
                    /\ asyncStorage w' !! MODEL_VERSION_KEY = None).
    { revert Hrun.
      unfold deleteModel, FileSystem_deleteAsync, AsyncStorage_removeItem, platform_call.
      io_unfold. destruct (unsupported w); [discriminate|].
      destruct w as [web fs st file fl tr ns gs].
      fault_cases; try discriminate; intros [= <-]; cbn;
        (split; [reflexivity|]); (split; [|apply lookup_delete_eq]);
        (rewrite lookup_delete_ne by discriminate; apply lookup_delete_eq). }
    destruct Hgone as (Hfile & Hflag & Hver).
    split; [exact Hfile|]. split; [exact Hflag|]. split; [exact Hver|].
    destruct (isModelAvailable_returns w') as ([|] & w'' & Hcheck); [|now rewrite Hcheck].
    apply isModelAvailable_true in Hcheck as (_ & Hthere & _). congruence.
Qed.


(** *** On concrete phones *)

Lemma download_skips_installed_model_witness :
  let offline := with_transport (transport rejecting_device) provisioned_device in
  isModelAvailable offline = (Return true, offline)
  /\ downloadModel show_progress offline = (Return tt, offline)
  /\ only_faults_differ offline offline.
Proof.
  cbv zeta. split; [vm_compute; reflexivity|].
  exact (download_skips_installed_model show_progress
           (with_transport (transport rejecting_device) provisioned_device)
           (with_transport (transport rejecting_device) provisioned_device)
           ltac:(vm_compute; reflexivity)).
Defined.

Lemma download_puts_model_in_place_witness :
  unsupported stale_device = false /\ faults stale_device = []
  /\ screen_only show_progress
  /\ dl_outcome (transport stale_device) = DownloadCompletes
  /\ dl_fileWritten (transport stale_device) = true
  /\ exists w',
       downloadModel show_progress stale_device = (Return tt, w')
       /\ installed w'
       /\ isModelAvailable w' = (Return true, w').
Proof.
  split; [reflexivity|]. split; [reflexivity|]. split; [exact show_progress_screen_only|].
  split; [reflexivity|]. split; [reflexivity|].
  exact (download_puts_model_in_place show_progress stale_device
           eq_refl eq_refl show_progress_screen_only eq_refl eq_refl).
Defined.

Lemma failed_download_cleans_up_witness :
  unsupported rejecting_device = false /\ faults rejecting_device = []
  /\ screen_only show_progress
  /\ fst (isModelAvailable rejecting_device) = Return false
  /\ dl_outcome (transport rejecting_device) <> DownloadCompletes
  /\ exists w',
       downloadModel show_progress rejecting_device
       = (Throw (Rejected "connection reset"), w')
       /\ modelFileExists w' = false
       /\ asyncStorage w' !! MODEL_STORAGE_KEY = None.
Proof.
  split; [reflexivity|]. split; [reflexivity|]. split; [exact show_progress_screen_only|].
  split; [reflexivity|]. split; [discriminate|].
  exact (failed_download_cleans_up show_progress rejecting_device
           eq_refl eq_refl show_progress_screen_only eq_refl ltac:(discriminate)).
Defined.

End ModelFacts.

(* ===================================================================== *)
(** ** The gate of the start screen *)
(* ===================================================================== *)

Module GateRuns.
Import Js Runtime ModelDownload Gate ModelSpec GateSpec.
Import RuntimeFacts GateFacts ModelFacts.
Import Reference Samples Phones.

(** The paths through [validateAndEnsureModel] off the web. *)
Lemma gate_runs w :
  platformIsWeb w = false ->
  exists b w1,
    isModelAvailable w = (Return b, w1)
    /\ if b : bool
       then validateAndEnsureModel w = (Return tt, with_gateState (setIsModelReady true) w1)
       else match downloadModel show_progress (download_started w1) with
            | (Return _, w2) =>
                exists b' w3,
                  isModelAvailable w2 = (Return b', w3)
                  /\ validateAndEnsureModel w
                     = (Return tt,
                        if b' : bool then ended_ready w3
                        else ended_failed
                               (Error "Model download completed but validation failed") w3)
            | (Throw e, w2) => validateAndEnsureModel w = (Return tt, ended_failed e w2)
            | (OutOfModel, _) => False
            end.
Proof.
  intros Hweb. destruct (isModelAvailable_returns w) as (b & w1 & Hrun).
  exists b, w1. split; [exact Hrun|].
  unfold validateAndEnsureModel.
  change (fun progress => setGate (setModelDownloadProgress progress)) with show_progress.
  remember (downloadModel show_progress) as download eqn:Hdl.
  unfold setGate. io_unfold. rewrite Hweb, Hrun.
  destruct b; [reflexivity|].
  fold (download_started w1).
  pose proof (downloadModel_verdict show_progress show_progress_verdict (download_started w1))
    as [Hnot _]. rewrite <- Hdl in Hnot.
  destruct (download (download_started w1)) as [[[]|e|] w2]; cbn in Hnot; [| |contradiction].
  - destruct (isModelAvailable_returns w2) as (b' & w3 & Hrun'). exists b', w3.
    split; [exact Hrun'|]. rewrite Hrun'. now destruct b'.
  - reflexivity.
Qed.

Lemma installed_with_gateState f w : installed w -> installed (with_gateState f w).
Proof. now destruct w. Qed.

Lemma isModelAvailable_true_installed w w' :
  isModelAvailable w = (Return true, w') -> installed w'.
Proof.
  intros Hrun. apply (installed_only_faults_differ w w').
  - now apply isModelAvailable_true_reads.
  - now apply (isModelAvailable_true w w' Hrun).
Qed.

Lemma isModelAvailable_keeps w b w' :
  isModelAvailable w = (Return b, w') -> same_verdict w w'.
Proof.
  intros Hrun. pose proof (isModelAvailable_verdict w) as [_ Hs].
  now rewrite Hrun in Hs.
Qed.

Lemma opened_fields w :
  isModelReady (gateState (with_gateState (setIsModelReady true) w)) = true
  /\ modelDownloadError (gateState (with_gateState (setIsModelReady true) w))
     = modelDownloadError (gateState w)
  /\ isModelDownloading (gateState (with_gateState (setIsModelReady true) w))
     = isModelDownloading (gateState w).
Proof. now destruct w. Qed.

Lemma download_started_verdict w :
  isModelReady (gateState (download_started w)) = isModelReady (gateState w)
  /\ isModelDownloading (gateState (download_started w)) = true
  /\ modelDownloadError (gateState (download_started w)) = None
  /\ notesState (download_started w) = notesState w.
Proof. now destruct w. Qed.

(** X23. Off the web the gate never opens on its own word: when
    [validateAndEnsureModel] turns [isModelReady] on, the asset file
    exists, the version tag is the current one and the installed flag is
    set in the state it ends in, whatever the platform calls and the
    transport did on the way. *)
Theorem gate_opens_only_on_installed_model w :
  platformIsWeb w = false ->
  isModelReady (gateState w) = false ->
  isModelReady (gateState (snd (validateAndEnsureModel w))) = true ->
  installed (snd (validateAndEnsureModel w)).
Proof.
  intros Hweb Hclosed. destruct (gate_runs w Hweb) as (b & w1 & Hrun & Hgate).
  pose proof (isModelAvailable_keeps w b w1 Hrun) as (Hr1 & _).
  destruct b.
  - rewrite Hgate. cbn [snd]. intros _.
    apply installed_with_gateState. now apply (isModelAvailable_true_installed w w1).
  - pose proof (downloadModel_verdict show_progress show_progress_verdict (download_started w1))
      as [_ (Hr2 & _)].
    destruct (download_started_verdict w1) as (Hr0 & _).
    destruct (downloadModel show_progress (download_started w1)) as [[[]|e|] w2];
      cbn [snd] in Hr2; [| |contradiction].
    + destruct Hgate as (b' & w3 & Hrun' & ->). cbn [snd].
      pose proof (isModelAvailable_keeps w2 b' w3 Hrun') as (Hr3 & _).
      destruct b'.
      * intros _. unfold ended_ready. do 2 apply installed_with_gateState.
        now apply (isModelAvailable_true_installed w2 w3).
      * intros Hopen. exfalso. revert Hopen. unfold ended_failed.
        destruct w3. cbn in *. congruence.
    + rewrite Hgate. cbn [snd]. intros Hopen. exfalso. revert Hopen. unfold ended_failed.
      destruct w2. cbn in *. congruence.
Qed.

(** Every path through the gate returns. *)
Lemma gate_ends w :
  exists w',
    validateAndEnsureModel w = (Return tt, w')
    /\ (isModelReady (gateState w') = true
        \/ exists message, modelDownloadError (gateState w') = Some message)
    /\ (isModelDownloading (gateState w) = false ->
        isModelDownloading (gateState w') = false)
    /\ notesState w' = notesState w.
Proof.
  destruct (platformIsWeb w) eqn:Hweb.
  - exists (with_gateState (setIsModelReady true) w). split.
    + unfold validateAndEnsureModel, setGate. io_unfold. now rewrite Hweb.
    + destruct w. cbn. auto.
  - destruct (gate_runs w Hweb) as (b & w1 & Hrun & Hgate).
    pose proof (isModelAvailable_keeps w b w1 Hrun) as (_ & Hd1 & _ & Hn1 & _).
    destruct b.
    + eexists. split; [exact Hgate|]. destruct w1. cbn in *.
      split; [now left|]. split; [congruence | exact Hn1].
    + pose proof (downloadModel_verdict show_progress show_progress_verdict (download_started w1))
        as [_ (_ & _ & _ & Hn2 & _)].
      destruct (download_started_verdict w1) as (_ & _ & _ & Hn0).
      destruct (downloadModel show_progress (download_started w1)) as [[[]|e|] w2];
        cbn [snd] in Hn2; [| |contradiction].
      * destruct Hgate as (b' & w3 & Hrun' & Hgate).
        pose proof (isModelAvailable_keeps w2 b' w3 Hrun') as (_ & _ & _ & Hn3 & _).
        eexists. split; [exact Hgate|].
        destruct b'; destruct w3; cbn in *;
          (split; [first [now left | right; eexists; reflexivity]|]);
          (split; [reflexivity | congruence]).
      * eexists. split; [exact Hgate|]. destruct w2. cbn in *.
        split; [right; eexists; reflexivity|]. split; [reflexivity | congruence].
Qed.

(** X24. The gate always comes to an end: [validateAndEnsureModel] never
    throws, on any platform and whatever the platform calls and the
    transport do, and it ends with [isModelReady] on or with an error
    message to show; the download indicator is off afterwards when it was
    off before. The notes are not touched. *)
Theorem gate_always_ends w :
  exists w',
    validateAndEnsureModel w = (Return tt, w')
    /\ (isModelReady (gateState w') = true
        \/ exists message, modelDownloadError (gateState w') = Some message)
    /\ (isModelDownloading (gateState w) = false ->
        isModelDownloading (gateState w') = false)
    /\ notesState w' = notesState w.
Proof. apply gate_ends. Qed.

(** X25. Retrying on a phone where the platform calls go through and the
    transport completes and leaves the file ends with the gate open:
    [isModelReady] is on, the error of the failed attempt is cleared, the
    download indicator is off and the model is in place, whether it had to
    be downloaded or was there already. *)
Theorem retry_opens_the_gate w :
  platformIsWeb w = false -> fileSystemLoaded w = true -> faults w = [] ->
  dl_outcome (transport w) = DownloadCompletes ->
  dl_fileWritten (transport w) = true ->
  isModelDownloading (gateState w) = false ->
  exists w',
    retryModelDownload w = (Return tt, w')
    /\ isModelReady (gateState w') = true
    /\ modelDownloadError (gateState w') = None
    /\ isModelDownloading (gateState w') = false
    /\ installed w'.
Proof.
  intros Hweb Hfs Hf Hout Hfile Hoff.
  unfold retryModelDownload, setGate. io_unfold.
  set (w0 := with_gateState (setModelDownloadError None) w).
  assert (Hweb0 : platformIsWeb w0 = false) by now destruct w.
  assert (Hu0 : unsupported w0 = false) by (unfold unsupported; destruct w; cbn in *; now subst).
  assert (Hf0 : faults w0 = []) by now destruct w.
  assert (He0 : modelDownloadError (gateState w0) = None) by now destruct w.
  assert (Hd0 : isModelDownloading (gateState w0) = false) by now destruct w.
  assert (Htr0 : transport w0 = transport w) by now destruct w.
  destruct (gate_runs w0 Hweb0) as (b & w1 & Hrun & Hgate).
  destruct (isModelAvailable_no_faults w0 Hf0 Hu0)
    as (b0 & w1' & Hrun0 & Hf1 & Hu1 & Htr1 & Hg1 & _).
  rewrite Hrun in Hrun0. injection Hrun0 as <- <-.
  destruct b.
  - rewrite Hgate. eexists. split; [reflexivity|].
    pose proof (isModelAvailable_true_installed w0 w1 Hrun) as Hi.
    destruct (opened_fields w1) as (-> & -> & ->). rewrite Hg1.
    split; [reflexivity|]. split; [exact He0|]. split; [exact Hd0|].
    now apply installed_with_gateState.
  - destruct (downloadModel_installs show_progress (download_started w1))
      as (w2 & Hdl & Hi2 & Hf2 & Hu2).
    { unfold unsupported in *. now destruct w1. }
    { rewrite <- Hf1. now destruct w1. }
    { apply show_progress_screen_only. }
    { replace (transport (download_started w1)) with (transport w) by
        (rewrite <- Htr0, <- Htr1; now destruct w1). exact Hout. }
    { replace (transport (download_started w1)) with (transport w) by
        (rewrite <- Htr0, <- Htr1; now destruct w1). exact Hfile. }
    pose proof (downloadModel_verdict show_progress show_progress_verdict (download_started w1))
      as [_ (_ & _ & He2 & _)].
    rewrite Hdl in Hgate, He2. cbn [snd] in He2.
    destruct Hgate as (b' & w3 & Hrun' & ->).
    pose proof (isModelAvailable_installed w2 Hu2 Hi2 (quiet_nil 3 w2 Hf2)) as Hcheck.
    rewrite !(advance_nil w2 Hf2) in Hcheck. rewrite Hcheck in Hrun'.
    injection Hrun' as <- <-.
    eexists. split; [reflexivity|]. unfold ended_ready.
    destruct (download_started_verdict w1) as (_ & _ & He1 & _).
    split; [now destruct w2|]. split; [destruct w2; cbn in *; congruence|].
    split; [now destruct w2|]. now do 2 apply installed_with_gateState.
Qed.

(** X26. On a phone without the asset file, with the platform calls
    going through, a transport that rejects leaves the gate shut with the
    transport's reason as the error message: [isModelReady] is as before,
    the download indicator is off, and the partial download and the
    installed flag are gone. *)
Theorem gate_shows_the_transport_reason w reason :
  platformIsWeb w = false -> fileSystemLoaded w = true -> faults w = [] ->
  modelFileExists w = false ->
  dl_outcome (transport w) = DownloadRejects reason ->
  exists w',
    validateAndEnsureModel w = (Return tt, w')
    /\ modelDownloadError (gateState w') = Some reason
    /\ isModelReady (gateState w') = isModelReady (gateState w)
    /\ isModelDownloading (gateState w') = false
    /\ modelFileExists w' = false
    /\ asyncStorage w' !! MODEL_STORAGE_KEY = None.
Proof.
  intros Hweb Hfs Hf Hfile Hout.
  assert (Hu : unsupported w = false) by (unfold unsupported; now rewrite Hweb, Hfs).
  destruct (gate_runs w Hweb) as (b & w1 & Hrun & Hgate).
  rewrite (isModelAvailable_no_file w Hf Hu Hfile) in Hrun. injection Hrun as <- <-.
  destruct (downloadModel_fails show_progress (download_started w))
    as (w2 & Hdl & Hgone & Hflag).
  { unfold unsupported in *. now destruct w. }
  { rewrite <- Hf. now destruct w. }
  { apply show_progress_screen_only. }
  { rewrite isModelAvailable_no_file; [reflexivity | | |].
    - rewrite <- Hf. now destruct w.
    - unfold unsupported in *. now destruct w.
    - rewrite <- Hfile. now destruct w. }
  { replace (transport (download_started w)) with (transport w) by now destruct w.
    rewrite Hout. discriminate. }
  replace (transport (download_started w)) with (transport w) in Hdl by now destruct w.
  rewrite Hout in Hdl.
  pose proof (downloadModel_verdict show_progress show_progress_verdict (download_started w))
    as [_ (Hr2 & _)].
  rewrite Hdl in Hgate, Hr2. cbn [snd] in Hr2.
  eexists. split; [exact Hgate|]. unfold ended_failed.
  destruct (download_started_verdict w) as (Hr0 & _).
  destruct w2. cbn in *. repeat split; try assumption; congruence.
Qed.

Lemma gate_opens_only_on_installed_model_witness :
  platformIsWeb device = false
  /\ isModelReady (gateState device) = false
  /\ isModelReady (gateState (snd (validateAndEnsureModel device))) = true
  /\ installed (snd (validateAndEnsureModel device)).
Proof.
  split; [reflexivity|]. split; [reflexivity|]. split; [vm_compute; reflexivity|].
  exact (gate_opens_only_on_installed_model device eq_refl eq_refl
           ltac:(vm_compute; reflexivity)).
Defined.

Lemma retry_opens_the_gate_witness :
  let failed := snd (validateAndEnsureModel rejecting_device) in
  let online := with_transport (transport device) failed in
  modelDownloadError (gateState failed) = Some "connection reset"%string
  /\ platformIsWeb online = false /\ fileSystemLoaded online = true /\ faults online = []
  /\ dl_outcome (transport online) = DownloadCompletes
  /\ dl_fileWritten (transport online) = true
  /\ isModelDownloading (gateState online) = false
  /\ exists w',
       retryModelDownload online = (Return tt, w')
       /\ isModelReady (gateState w') = true
       /\ modelDownloadError (gateState w') = None
       /\ isModelDownloading (gateState w') = false
       /\ installed w'.
Proof.
  cbv zeta. split; [vm_compute; reflexivity|].
  split; [reflexivity|]. split; [reflexivity|]. split; [vm_compute; reflexivity|].
  split; [reflexivity|]. split; [reflexivity|]. split; [vm_compute; reflexivity|].
  exact (retry_opens_the_gate
           (with_transport (transport device) (snd (validateAndEnsureModel rejecting_device)))
           eq_refl eq_refl ltac:(vm_compute; reflexivity) eq_refl eq_refl
           ltac:(vm_compute; reflexivity)).
Defined.

Lemma gate_shows_the_transport_reason_witness :
  platformIsWeb rejecting_device = false /\ fileSystemLoaded rejecting_device = true
  /\ faults rejecting_device = [] /\ modelFileExists rejecting_device = false
  /\ dl_outcome (transport rejecting_device) = DownloadRejects "connection reset"
  /\ exists w',
       validateAndEnsureModel rejecting_device = (Return tt, w')
       /\ modelDownloadError (gateState w') = Some "connection reset"%string
       /\ isModelReady (gateState w') = isModelReady (gateState rejecting_device)
       /\ isModelDownloading (gateState w') = false
       /\ modelFileExists w' = false
       /\ asyncStorage w' !! MODEL_STORAGE_KEY = None.
Proof.
  split; [reflexivity|]. split; [reflexivity|]. split; [reflexivity|].
  split; [reflexivity|]. split; [reflexivity|].
  exact (gate_shows_the_transport_reason rejecting_device "connection reset"
           eq_refl eq_refl eq_refl eq_refl eq_refl).
Defined.

End GateRuns.

(* ===================================================================== *)
(** ** Authentication *)
(* ===================================================================== *)

Module AuthFacts.
Import Js Runtime BiometricAuth Gate StartScreen ModelSpec.
Import RuntimeFacts GateFacts ModelFacts GateRuns.
Import Reference Samples Phones.

Lemma isBiometricEnabled_quiet w :
  quiet 1 w = true ->
  isBiometricEnabled w
  = (Return (bool_decide (asyncStorage w !! BIOMETRIC_ENABLED_KEY = Some (lit "true"))),
     advance w).
Proof.
  intros Hq. unfold isBiometricEnabled, AsyncStorage_getItem. io_unfold.
  rewrite (proj1 (platform_call_quiet _ 0 w Hq)).
  replace (asyncStorage (advance w) !! BIOMETRIC_ENABLED_KEY)
    with (asyncStorage w !! BIOMETRIC_ENABLED_KEY) by now destruct w.
  reflexivity.
Qed.

Lemma isBiometricEnabled_rejected w :
  quiet 1 w = false -> isBiometricEnabled w = (Return false, advance w).
Proof.
  unfold quiet, isBiometricEnabled, AsyncStorage_getItem, platform_call, advance.
  io_unfold. destruct (faults w) as [|[m|] rest]; cbn; try discriminate. reflexivity.
Qed.

(** X27. The biometric preference: what [setBiometricEnabled] stores is
    what [isBiometricEnabled] reads back, when both calls go through.
    [isBiometricEnabled] never throws: a read that rejects counts as
    "not enabled", and it answers [true] only when the stored text is
    ["true"]. *)
Theorem biometric_preference_round_trip (enabled : bool) w :
  quiet 2 w = true ->
  (exists w1 w2,
      setBiometricEnabled enabled w = (Return tt, w1)
      /\ isBiometricEnabled w1 = (Return enabled, w2))
  /\ (forall w0, exists b w',
        isBiometricEnabled w0 = (Return b, w')
        /\ (b = true -> asyncStorage w0 !! BIOMETRIC_ENABLED_KEY = Some (lit "true"))
        /\ (quiet 1 w0 = false -> b = false)).
Proof.
  intros Hq. split.
  - destruct (platform_call_quiet
                (modify (with_asyncStorage
                           (insert BIOMETRIC_ENABLED_KEY (bool_toString enabled))))
                1 w Hq) as [Hset Hq1].
    unfold setBiometricEnabled, AsyncStorage_setItem. io_unfold. rewrite Hset.
    eexists. eexists. split; [reflexivity|].
    set (w1 := with_asyncStorage _ (advance w)).
    assert (Hq1' : quiet 1 w1 = true) by (revert Hq1; now destruct w).
    rewrite (isBiometricEnabled_quiet w1 Hq1'). f_equal. f_equal.
    subst w1. destruct w. cbn. rewrite lookup_insert_eq.
    destruct enabled; [now apply bool_decide_eq_true_2 | now apply bool_decide_eq_false_2].
  - intros w0. destruct (quiet 1 w0) eqn:Hq0.
    + rewrite (isBiometricEnabled_quiet w0 Hq0). eexists. eexists.
      split; [reflexivity|]. split; [apply bool_decide_eq_true_1 | discriminate].
    + rewrite (isBiometricEnabled_rejected w0 Hq0). eexists. eexists.
      split; [reflexivity|]. split; [discriminate | reflexivity].
Qed.


(** The gate, awaited from the screen. *)
Lemma await_gate s w :
  await validateAndEnsureModel s w = (Return tt, s, snd (validateAndEnsureModel w)).
Proof.
  unfold await. destruct (gate_ends w) as (w' & -> & _). reflexivity.
Qed.

(** X28. What the start screen does on launch. When the stored
    preference is ["true"] and the read goes through, the screen asks for
    authentication and stops there: [isAuthenticated] is as before and the
    gate is not run. In every other case the user counts as authenticated
    and the gate runs; this includes a read that rejects while ["true"] is
    stored, because [isBiometricEnabled] answers [false] then. The call
    never throws, so the [catch] of the screen is never entered. *)
Theorem launch_locks_or_opens s w :
  let locked :=
    quiet 1 w
    && bool_decide (asyncStorage w !! BIOMETRIC_ENABLED_KEY = Some (lit "true")) in
  exists s' w',
    checkAuthenticationAndModel s w = (Return tt, s', w')
    /\ isCheckingAuth s' = false
    /\ authenticationError s' = authenticationError s
    /\ if locked
       then isAuthenticated s' = isAuthenticated s
            /\ authenticationRequired s' = true
            /\ w' = advance w
       else isAuthenticated s' = true
            /\ authenticationRequired s' = false
            /\ w' = snd (validateAndEnsureModel (advance w)).
Proof.
  cbv zeta. unfold checkAuthenticationAndModel.
  assert (Hopen : forall s0 w0,
            (setAuth (setIsAuthenticated true);;
             setAuth (setAuthenticationRequired false);;
             setAuth (setIsCheckingAuth false);;
             await validateAndEnsureModel) s0 w0
            = (Return tt,
               setIsCheckingAuth false
                 (setAuthenticationRequired false (setIsAuthenticated true s0)),
               snd (validateAndEnsureModel w0))).
  { intros s0 w0. unfold mbind, UI_bind, ui_bind, setAuth. now rewrite await_gate. }
  revert Hopen.
  generalize (setAuth (setIsAuthenticated true);;
              setAuth (setAuthenticationRequired false);;
              setAuth (setIsCheckingAuth false);;
              await validateAndEnsureModel).
  intros open Hopen.
  unfold ui_try_catch, mbind, UI_bind, ui_bind, setAuth, await.
  destruct (quiet 1 w) eqn:Hq.
  - rewrite (isBiometricEnabled_quiet w Hq). cbn [andb].
    destruct (bool_decide _).
    + eexists _, _. split; [reflexivity|]. now destruct s.
    + rewrite Hopen. eexists _, _. split; [reflexivity|]. now destruct s.
  - rewrite (isBiometricEnabled_rejected w Hq). cbn [andb].
    rewrite Hopen. eexists _, _. split; [reflexivity|]. now destruct s.
Qed.

Section Unlock.
Variable la : LocalAuthentication.

(** How [authenticate] can end. *)
Lemma authenticate_returns reason w :
  exists result w',
    authenticate la reason w = (Return result, w')
    /\ w' = with_faults (faults w') w
    /\ (result = AuthSuccess ->
        hasHardware la = true /\ isEnrolledOnDevice la = true
        /\ authenticatePrompt la
             (if falsy reason then lit "Authenticate to access SaveMyMind" else reason)
           = AuthSuccess)
    /\ (hasHardware la = false -> result = AuthFailure "not_available").
Proof.
  unfold authenticate, checkCapabilities, hasHardwareAsync,
    supportedAuthenticationTypesAsync, isEnrolledAsync, authenticateAsync, platform_call.
  io_unfold. destruct w as [web fs st file fl tr ns gs].
  destruct (hasHardware la) eqn:Hhw; destruct (isEnrolledOnDevice la) eqn:Hen;
    fault_cases; eexists _, _; (split; [reflexivity|]); cbn;
    (split; [reflexivity|]); split; try discriminate; auto.
Qed.

(** X29. [authenticate] never throws and writes nothing. It reports
    success only when the device has the hardware, biometrics are
    enrolled, and the prompt of the platform itself succeeded. Without
    the hardware its answer is [not_available], also when a capability
    query rejects; no prompt is shown then. *)
Theorem authenticate_succeeds_only_through_the_prompt (reason : jstring) w :
  exists result w',
    authenticate la reason w = (Return result, w')
    /\ w' = with_faults (faults w') w
    /\ (result = AuthSuccess ->
        hasHardware la = true /\ isEnrolledOnDevice la = true
        /\ authenticatePrompt la
             (if falsy reason then lit "Authenticate to access SaveMyMind" else reason)
           = AuthSuccess)
    /\ (hasHardware la = false -> result = AuthFailure "not_available").
Proof. apply authenticate_returns. Qed.

(** X30. Unlocking from the start screen: [handleBiometricAuthentication]
    never throws, and it turns [isAuthenticated] on only when the device
    has the hardware, biometrics are enrolled and the platform's prompt
    succeeded. When it does not, the gate is not run and nothing is
    stored: the state of the application differs in the script of faults
    only. *)
Theorem unlock_needs_the_prompt s w :
  exists s' w',
    handleBiometricAuthentication la s w = (Return tt, s', w')
    /\ ((isAuthenticated s' = true
         /\ hasHardware la = true /\ isEnrolledOnDevice la = true
         /\ authenticatePrompt la (lit "Authenticate to access your notes") = AuthSuccess)
        \/ (isAuthenticated s' = isAuthenticated s
            /\ authenticationRequired s' = authenticationRequired s
            /\ w' = with_faults (faults w') w)).
Proof.
  unfold handleBiometricAuthentication.
  destruct (authenticate_returns (lit "Authenticate to access your notes") w)
    as (result & w1 & Hrun & Hw1 & Hok & _).
  unfold ui_try_catch, mbind, UI_bind, ui_bind, setAuth, await. rewrite Hrun.
  destruct result as [|error].
  - destruct (gate_ends w1) as (w2 & -> & _). eexists _, _. split; [reflexivity|].
    left. split; [now destruct s|]. now apply Hok.
  - destruct (String.eqb error EmptyString); eexists _, _;
      (split; [reflexivity|]); right; (split; [now destruct s|]);
      (split; [now destruct s | exact Hw1]).
Qed.

End Unlock.

Lemma biometric_preference_round_trip_witness :
  quiet 2 device = true
  /\ (exists w1 w2,
         setBiometricEnabled true device = (Return tt, w1)
         /\ isBiometricEnabled w1 = (Return true, w2))
  /\ (forall w0, exists b w',
        isBiometricEnabled w0 = (Return b, w')
        /\ (b = true -> asyncStorage w0 !! BIOMETRIC_ENABLED_KEY = Some (lit "true"))
        /\ (quiet 1 w0 = false -> b = false)).
Proof.
  split; [reflexivity|].
  exact (biometric_preference_round_trip true device eq_refl).
Defined.

End AuthFacts.
